(** * CryptoQuest backend: score submission, history and leaderboard

    A shallow embedding of [src/database.js] (the [Database] class over the
    MongoDB collections [users] and [scores]) and of the request handlers of
    [src/server.js], followed by the properties of the score-submission and
    aggregation logic.  The SQLite revision of the submission handler is
    embedded as well, in the module [Sqlite].

    Conventions of the embedding.
    - A JavaScript number is an exact rational extended with [Infinity],
      [-Infinity] and [NaN]; binary64 rounding and the sign of zero are not
      represented.  A number read from a JSON body is a rational.
    - Strings are sequences of ASCII characters; [toLowerCase] and [trim]
      act on the ASCII letters and the ASCII white space.
    - A request body is taken at its documented JSON types: the identifiers
      are strings (an absent field and the empty string are both falsy and
      take the same branch), [score] and [maxScore] are numbers or absent.
    - [new Date()] is the time carried by the request, in milliseconds.
    - The [_id] that MongoDB assigns to a document is left out.
    - The store does not fail, except on a duplicate key and on a [$limit]
      that is not positive.
    - [handle] serves one request at a time; [task_step] and [interleave]
      serve two submissions whose store operations alternate, and
      [user_task_step] does the same for two profile requests. *)

From Stdlib Require Import ZArith QArith Qround List String Ascii Bool Lia Lqa.

From Stdlib Require Import Sorted Permutation.

Import ListNotations.

Set Implicit Arguments.

(** * The program *)

(** ** JavaScript numbers *)

Module JS.

Inductive number : Type :=
| Fin (q : Q)
| PosInf
| NegInf
| NaN.

Definition of_Z (z : Z) : number := Fin (inject_Z z).

(** Sign of a rational, as the comparison of [0] with it: [Lt] when it is
    positive, [Eq] when it is zero, [Gt] when it is negative. *)
Definition Qsign (q : Q) : comparison := (0 ?= q)%Q.

(** [a / b] of the language: a zero divisor gives an infinity or [NaN]. *)
Definition div (a b : number) : number :=
  match a, b with
  | NaN, _ | _, NaN => NaN
  | Fin x, Fin y =>
      match Qsign y with
      | Eq => match Qsign x with
              | Eq => NaN
              | Lt => PosInf
              | Gt => NegInf
              end
      | _ => Fin (x / y)
      end
  | Fin _, (PosInf | NegInf) => Fin 0
  | (PosInf | NegInf), (PosInf | NegInf) => NaN
  | PosInf, Fin y => match Qsign y with Gt => NegInf | _ => PosInf end
  | NegInf, Fin y => match Qsign y with Gt => PosInf | _ => NegInf end
  end.

(** [a * b] of the language. *)
Definition mul (a b : number) : number :=
  match a, b with
  | NaN, _ | _, NaN => NaN
  | Fin x, Fin y => Fin (x * y)
  | PosInf, Fin y | Fin y, PosInf =>
      match Qsign y with Eq => NaN | Lt => PosInf | Gt => NegInf end
  | NegInf, Fin y | Fin y, NegInf =>
      match Qsign y with Eq => NaN | Lt => NegInf | Gt => PosInf end
  | PosInf, PosInf | NegInf, NegInf => PosInf
  | PosInf, NegInf | NegInf, PosInf => NegInf
  end.

(** [a >= b] of the language: false as soon as one side is [NaN]. *)
Definition ge (a b : number) : bool :=
  match a, b with
  | NaN, _ | _, NaN => false
  | Fin x, Fin y => Qle_bool y x
  | PosInf, _ => true
  | _, NegInf => true
  | Fin _, PosInf => false
  | NegInf, _ => false
  end.

(** [Math.round]: the nearest integer, a tie going up. *)
Definition Math_round (a : number) : number :=
  match a with
  | Fin x => of_Z (Qfloor (x + (1 # 2)))
  | other => other
  end.

(** Truthiness of a number, and [a || d] on numbers read from JSON. *)
Definition truthy (q : Q) : bool := negb (Qeq_bool q 0).

Definition or_else (q d : Q) : Q := if truthy q then q else d.

Definition is_NaN (a : number) : bool :=
  match a with NaN => true | _ => false end.

End JS.

(** ** JavaScript strings *)

Module Str.

Local Open Scope char_scope.

Definition is_upper (c : ascii) : bool :=
  let n := nat_of_ascii c in (65 <=? n)%nat && (n <=? 90)%nat.

Definition lower_char (c : ascii) : ascii :=
  if is_upper c then ascii_of_nat (nat_of_ascii c + 32) else c.

Fixpoint toLowerCase (s : string) : string :=
  match s with
  | EmptyString => EmptyString
  | String c s' => String (lower_char c) (toLowerCase s')
  end.

(** Space, tab, line feed, vertical tab, form feed, carriage return. *)
Definition is_space (c : ascii) : bool :=
  let n := nat_of_ascii c in
  (n =? 32)%nat || ((9 <=? n)%nat && (n <=? 13)%nat).

Fixpoint trimStart (s : string) : string :=
  match s with
  | EmptyString => EmptyString
  | String c s' => if is_space c then trimStart s' else s
  end.

(** [trimEnd] keeps a character when it is not white space or when something
    is kept after it. *)
Fixpoint trimEnd (s : string) : string :=
  match s with
  | EmptyString => EmptyString
  | String c s' =>
      match trimEnd s' with
      | EmptyString => if is_space c then EmptyString else String c EmptyString
      | rest => String c rest
      end
  end.

Definition trim (s : string) : string := trimEnd (trimStart s).

Definition is_digit (c : ascii) : bool :=
  let n := nat_of_ascii c in (48 <=? n)%nat && (n <=? 57)%nat.

(** The class [[a-fA-F0-9]]. *)
Definition is_hex (c : ascii) : bool :=
  let n := nat_of_ascii c in
  is_digit c || ((97 <=? n)%nat && (n <=? 102)%nat)
             || ((65 <=? n)%nat && (n <=? 70)%nat).

Fixpoint all_chars (p : ascii -> bool) (s : string) : bool :=
  match s with
  | EmptyString => true
  | String c s' => p c && all_chars p s'
  end.

Definition all_hex (s : string) : bool := all_chars is_hex s.

Definition startsWith (s p : string) : bool := String.prefix p s.

(** [s.includes(p)]. *)
Fixpoint includes (s p : string) : bool :=
  String.prefix p s ||
  match s with
  | EmptyString => false
  | String _ s' => includes s' p
  end.

(** A string is truthy when it is not empty. *)
Definition truthy (s : string) : bool :=
  match s with EmptyString => false | _ => true end.

(** Value of a digit in radix 10 or 16, when it is one. *)
Definition digit_value (radix : Z) (c : ascii) : option Z :=
  let n := Z.of_nat (nat_of_ascii c) in
  let v := if is_digit c then Some (n - 48)%Z
           else if ((97 <=? n) && (n <=? 102))%Z then Some (n - 87)%Z
           else if ((65 <=? n) && (n <=? 70))%Z then Some (n - 55)%Z
           else None in
  match v with
  | Some d => if (d <? radix)%Z then Some d else None
  | None => None
  end.

(** Longest prefix of digits, read in [radix]; [None] when there is none. *)
Fixpoint read_digits (radix : Z) (acc : option Z) (s : string) : option Z :=
  match s with
  | EmptyString => acc
  | String c s' =>
      match digit_value radix c with
      | Some d =>
          read_digits radix
            (Some (match acc with Some a => a * radix + d | None => d end)%Z) s'
      | None => acc
      end
  end.

Definition strip_radix_prefix (s : string) : Z * string :=
  match s with
  | String "0" (String "x" s') | String "0" (String "X" s') => (16%Z, s')
  | _ => (10%Z, s)
  end.

(** [parseInt(s)] without a radix: leading white space, a sign, an optional
    [0x], then the longest run of digits.  [None] is [NaN]; an absent query
    parameter ([undefined]) gives [NaN] as well. *)
Definition parseInt (q : option string) : option Z :=
  match q with
  | None => None
  | Some s =>
      let s1 := trimStart s in
      let '(sign, s2) :=
        match s1 with
        | String "-" r => ((-1)%Z, r)
        | String "+" r => (1%Z, r)
        | _ => (1%Z, s1)
        end in
      let '(radix, s3) := strip_radix_prefix s2 in
      option_map (fun v => (sign * v)%Z) (read_digits radix None s3)
  end.

(** [parseInt(q) || d]: [NaN] and [0] are falsy. *)
Definition parseInt_or (q : option string) (d : Z) : Z :=
  match parseInt q with
  | Some 0%Z | None => d
  | Some v => v
  end.

End Str.

(** ** The document store ([src/database.js]) *)

(** An exception: the [code] the driver sets on a duplicate key, and the
    [message]. *)
Record JsError : Type := mkError { code : option Z; message : string }.

Definition Error (msg : string) : JsError := mkError None msg.

Inductive result (A : Type) : Type :=
| Ok (a : A)
| Throw (e : JsError).

Arguments Ok {A} a.

Arguments Throw {A} e.

Module User.

Record t : Type := mk {
  walletAddress : string;
  username : string;
  profilePictureUrl : option string;
  totalScore : Q;
  level : string;
  createdAt : Z;
  updatedAt : Z
}.

End User.

Module Score.

Record t : Type := mk {
  walletAddress : string;
  quizId : string;
  score : Q;
  difficulty : string;
  maxScore : Q;
  percentage : JS.number;
  createdAt : Z
}.

End Score.

(** The two collections, each in insertion (natural) order. *)
Record DB : Type := mkDB {
  users : list User.t;
  scores : list Score.t
}.

Definition empty_db : DB := mkDB [] [].

(** *** Collection primitives *)

Section Collections.

Variable A : Type.

Fixpoint insert_by (before : A -> A -> bool) (x : A) (l : list A) : list A :=
  match l with
  | [] => [x]
  | y :: l' => if before x y then x :: l else y :: insert_by before x l'
  end.

(** [sort]: documents with equal keys stay in natural order. *)
Definition sort_by (before : A -> A -> bool) (l : list A) : list A :=
  fold_right (insert_by before) [] l.

(** [cursor.skip(n)]. *)
Definition cursor_skip (n : Z) (l : list A) : list A := skipn (Z.to_nat n) l.

(** [cursor.limit(n)]: [0] is no limit, and the driver sends a negative limit
    as its absolute value, for a single batch whose size is not bounded
    here. *)
Definition cursor_limit (n : Z) (l : list A) : list A :=
  if (n =? 0)%Z then l else firstn (Z.abs_nat n) l.

(** [findOneAndUpdate]: the first match is replaced; the new document is the
    [value] of the result, [null] when nothing matched. *)
Fixpoint findOneAndUpdate (p : A -> bool) (f : A -> A) (l : list A)
  : list A * option A :=
  match l with
  | [] => ([], None)
  | x :: l' =>
      if p x then (f x :: l', Some (f x))
      else let '(l'', r) := findOneAndUpdate p f l' in (x :: l'', r)
  end.

(** [array.map((x, index) => ...)], the index starting at [i]. *)
Fixpoint mapi_from (B : Type) (f : A -> Z -> B) (i : Z) (l : list A) : list B :=
  match l with
  | [] => []
  | x :: l' => f x i :: mapi_from f (i + 1) l'
  end.

End Collections.

Definition duplicate_key : JsError :=
  mkError (Some 11000%Z) "E11000 duplicate key error".

Local Open Scope string_scope.

(** The pattern [/^0x[a-fA-F0-9]{40}$/]. *)
Definition isValidWalletAddress (address : string) : bool :=
  match address with
  | String "0" (String "x" rest) =>
      (String.length rest =? 40)%nat && Str.all_hex rest
  | _ => false
  end.

Definition has_wallet (w : string) (u : User.t) : bool :=
  String.eqb (User.walletAddress u) w.

Definition has_score_wallet (w : string) (s : Score.t) : bool :=
  String.eqb (Score.walletAddress s) w.

(** [users.insertOne] under the unique index [wallet_address_unique]. *)
Definition insert_user (u : User.t) (db : DB) : DB * result User.t :=
  if existsb (has_wallet (User.walletAddress u)) (users db)
  then (db, Throw duplicate_key)
  else (mkDB (users db ++ [u]) (scores db), Ok u).

(** Two ledger documents with the same key of the index [wallet_quiz_unique]. *)
Definition same_attempt (s s' : Score.t) : bool :=
  has_score_wallet (Score.walletAddress s) s' &&
  String.eqb (Score.quizId s') (Score.quizId s).

(** [scores.insertOne] under the unique index [wallet_quiz_unique]. *)
Definition insert_score (s : Score.t) (db : DB) : DB * result Score.t :=
  if existsb (same_attempt s) (scores db)
  then (db, Throw duplicate_key)
  else (mkDB (users db) (scores db ++ [s]), Ok s).

Definition valid_username_length (name : string) : bool :=
  negb ((String.length name <? 3)%nat || (30 <? String.length name)%nat).

(** *** User operations *)

Definition createUser (now : Z) (walletAddress username : string)
    (profilePictureUrl : option string) (db : DB) : DB * result User.t :=
  let user :=
    User.mk (Str.trim (Str.toLowerCase walletAddress))
            (Str.trim username)
            (match profilePictureUrl with
             | Some url => if Str.truthy url then Some (Str.trim url) else None
             | None => None
             end)
            0 "beginner" now now in
  let '(db', r) :=
    if negb (isValidWalletAddress (User.walletAddress user))
    then (db, Throw (Error "INVALID_WALLET_FORMAT"))
    else if negb (valid_username_length (User.username user))
    then (db, Throw (Error "INVALID_USERNAME_LENGTH"))
    else insert_user user db in
  match r with
  | Ok u => (db', Ok u)
  | Throw e =>
      if match code e with Some c => (c =? 11000)%Z | None => false end
      then (db', Throw (Error "USER_ALREADY_EXISTS"))
      else if Str.startsWith (message e) "INVALID_"
      then (db', Throw e)
      else (db', Throw (Error "DATABASE_CREATE_ERROR"))
  end.

Definition getUserByWallet (walletAddress : string) (db : DB) : option User.t :=
  find (has_wallet (Str.trim (Str.toLowerCase walletAddress))) (users db).

(** The [updateData] object built by the profile handler: [username] always,
    [profilePictureUrl] when one was supplied. *)
Record UpdateData : Type := mkUpdate {
  upd_username : string;
  upd_profilePictureUrl : option string
}.

Definition updateUser (now : Z) (walletAddress : string) (updateData : UpdateData)
    (db : DB) : DB * result (option User.t) :=
  let name :=
    if Str.truthy (upd_username updateData)
    then Some (Str.trim (upd_username updateData)) else None in
  if match name with Some n => negb (valid_username_length n) | None => false end
  then (db, Throw (Error "INVALID_USERNAME_LENGTH"))
  else
    let picture :=
      match upd_profilePictureUrl updateData with
      | Some url => Some (if Str.truthy url then Some (Str.trim url) else None)
      | None => None
      end in
    let set (u : User.t) :=
      User.mk (User.walletAddress u)
              (match name with Some n => n | None => User.username u end)
              (match picture with Some p => p | None => User.profilePictureUrl u end)
              (User.totalScore u) (User.level u) (User.createdAt u) now in
    let '(us, r) :=
      findOneAndUpdate (has_wallet (Str.trim (Str.toLowerCase walletAddress)))
                       set (users db) in
    (mkDB us (scores db), Ok r).

(** The [$group] stage of [getUserStats]. *)
Record Stats : Type := mkStats {
  quizCount : Z;
  averageScore : Q;
  bestScore : Q;
  sumScore : Q
}.

Definition Qmax (a b : Q) : Q := if Qle_bool a b then b else a.

Definition sum_scores (l : list Score.t) : Q :=
  fold_left Qplus (map Score.score l) 0.

Definition getUserStats (walletAddress : string) (db : DB) : Stats :=
  match filter (has_score_wallet (Str.toLowerCase walletAddress)) (scores db) with
  | [] => mkStats 0 0 0 0
  | s :: l =>
      let n := Z.of_nat (List.length (s :: l)) in
      mkStats n
              (sum_scores (s :: l) / inject_Z n)
              (fold_left Qmax (map Score.score l) (Score.score s))
              (sum_scores (s :: l))
  end.

(** *** Score operations *)

(** The [scoreData] object built by the submission handler. *)
Record ScoreData : Type := mkScoreData {
  sd_walletAddress : string;
  sd_quizId : string;
  sd_score : Q;
  sd_difficulty : string;
  sd_maxScore : Q
}.

(** The document that [createScore] builds from [scoreData]. *)
Definition score_document (now : Z) (scoreData : ScoreData) : Score.t :=
  Score.mk (Str.toLowerCase (sd_walletAddress scoreData))
           (sd_quizId scoreData)
           (sd_score scoreData)
           (sd_difficulty scoreData)
           (JS.or_else (sd_maxScore scoreData) 20)
           (JS.mul (JS.div (JS.Fin (sd_score scoreData))
                           (JS.Fin (JS.or_else (sd_maxScore scoreData) 20)))
                   (JS.Fin 100))
           now.

Definition createScore (now : Z) (scoreData : ScoreData) (db : DB)
  : DB * result Score.t :=
  match insert_score (score_document now scoreData) db with
  | (db', Ok s) => (db', Ok s)
  | (db', Throw e) =>
      if match code e with Some c => (c =? 11000)%Z | None => false end
      then (db', Throw (Error "Quiz already completed by this user"))
      else (db', Throw e)
  end.

Record History : Type := mkHistory {
  h_scores : list Score.t;
  h_total : Z;
  h_hasMore : bool
}.

Definition newer_first (a b : Score.t) : bool :=
  (Score.createdAt b <=? Score.createdAt a)%Z.

Definition getUserScoreHistory (walletAddress : string) (limit offset : Z)
    (db : DB) : History :=
  let mine := filter (has_score_wallet (Str.toLowerCase walletAddress)) (scores db) in
  let page := cursor_limit limit (cursor_skip offset (sort_by newer_first mine)) in
  let total := Z.of_nat (List.length mine) in
  mkHistory page total (offset + Z.of_nat (List.length page) <? total)%Z.

(** *** Leaderboard *)

Record LeaderboardEntry : Type := mkEntry {
  rank : Z;
  e_walletAddress : string;
  e_username : string;
  e_profilePictureUrl : option string;
  e_score : Q;
  e_level : string;
  e_quizCount : Z;
  e_joinedDate : Z
}.

Definition higher_first (a b : User.t * Z) : bool :=
  Qle_bool (User.totalScore (fst b)) (User.totalScore (fst a)).

(** The stages [$match], [$lookup] with [$addFields], and [$sort] of the
    pipeline ([$project] keeps the fields used below). *)
Definition leaderboard_rows (db : DB) : list (User.t * Z) :=
  let matched :=
    filter (fun u => negb (Qle_bool (User.totalScore u) 0)) (users db) in
  let counted :=
    map (fun u =>
           (u, Z.of_nat (List.length
                 (filter (has_score_wallet (User.walletAddress u)) (scores db)))))
        matched in
  sort_by higher_first counted.

(** The entry that [users.map((user, index) => ...)] builds. *)
Definition leaderboard_entry (row : User.t * Z) (index : Z) : LeaderboardEntry :=
  let user := fst row in
  mkEntry (index + 1)
          (User.walletAddress user) (User.username user)
          (User.profilePictureUrl user) (User.totalScore user)
          (User.level user) (snd row) (User.createdAt user).

(** [getLeaderboard]: the [$limit] stage takes a positive limit and fails on
    any other. *)
Definition getLeaderboard (limit : Z) (db : DB) : result (list LeaderboardEntry) :=
  if (limit <=? 0)%Z
  then Throw (mkError (Some 15958%Z) "the limit must be positive")
  else Ok (mapi_from leaderboard_entry 0
             (firstn (Z.to_nat limit) (leaderboard_rows db))).

(** The update [{ $inc: { totalScore: scoreToAdd }, $set: { updatedAt } }]. *)
Definition inc_totalScore (now : Z) (scoreToAdd : Q) (u : User.t) : User.t :=
  User.mk (User.walletAddress u) (User.username u) (User.profilePictureUrl u)
          (User.totalScore u + scoreToAdd)
          (User.level u) (User.createdAt u) now.

(** [updateUserTotalScore]: the increment is one [findOneAndUpdate] of the
    store; the result is the document after it, [null] when none matched. *)
Definition updateUserTotalScore (now : Z) (walletAddress : string) (scoreToAdd : Q)
    (db : DB) : DB * option User.t :=
  let '(us, r) :=
    findOneAndUpdate (has_wallet (Str.toLowerCase walletAddress))
                     (inc_totalScore now scoreToAdd) (users db) in
  (mkDB us (scores db), r).

(** ** The request handlers ([src/server.js]) *)

(** The database is taken as connected: the middleware [checkDbConnection]
    lets every request through. *)

Record ScoreReceipt : Type := mkReceipt {
  r_score : Q;
  r_maxScore : Q;
  r_percentage : JS.number;
  r_difficulty : string;
  r_newTotalScore : Q;
  r_eligibleForReward : bool;
  r_submittedAt : Z
}.

Record Profile : Type := mkProfile {
  p_user : User.t;
  p_quizzesCompleted : Z;
  p_averageScore : JS.number;
  p_bestScore : Q
}.

Record Pagination : Type := mkPagination {
  pg_total : Z;
  pg_limit : Z;
  pg_offset : Z;
  pg_hasMore : bool
}.

(** The JSON body of a response. *)
Inductive Body : Type :=
| Failure (msg : string)
| UserBody (msg : string) (u : User.t)
| ProfileBody (p : Profile)
| ScoreBody (msg : string) (r : ScoreReceipt)
| HistoryBody (history : list Score.t) (pagination : Pagination)
| LeaderboardBody (leaderboard : list LeaderboardEntry) (totalPlayers : Z).

Record Response : Type := Json { status : Z; body : Body }.

Definition isValidIPFSUrl (url : string) : bool :=
  if negb (Str.truthy url) then true
  else Str.startsWith url "ipfs://"
       || Str.startsWith url "https://ipfs.io/ipfs/"
       || Str.startsWith url "https://gateway.pinata.cloud/ipfs/"
       || Str.includes url "ipfs".

Definition internal_error : Response := Json 500 (Failure "Internal server error").

(** POST /api/users *)
Definition post_users (now : Z) (walletAddress username : string)
    (profilePictureUrl : option string) (db : DB) : DB * Response :=
  let supplied :=
    match profilePictureUrl with
    | Some url => if Str.truthy url then Some url else None
    | None => None
    end in
  if negb (Str.truthy walletAddress) || negb (Str.truthy username)
  then (db, Json 400 (Failure "walletAddress and username are required"))
  else if negb (isValidWalletAddress walletAddress)
  then (db, Json 400 (Failure
         "Invalid wallet address format. Must be a valid Ethereum address (0x...)"))
  else if match supplied with Some url => negb (isValidIPFSUrl url) | None => false end
  then (db, Json 400 (Failure
         "Invalid profile picture URL. Must be a valid IPFS URL"))
  else if (String.length username <? 3)%nat || (30 <? String.length username)%nat
  then (db, Json 400 (Failure "Username must be between 3 and 30 characters"))
  else
    let catch (db' : DB) (e : JsError) :=
      if Str.includes (message e) "already exists"
      then (db', Json 409 (Failure (message e)))
      else (db', internal_error) in
    match getUserByWallet walletAddress db with
    | Some _ =>
        match updateUser now walletAddress (mkUpdate username supplied) db with
        | (db', Ok (Some updatedUser)) =>
            (db', Json 200 (UserBody "User updated successfully" updatedUser))
        | (db', Ok None) => (db', Json 500 (Failure "Failed to update user"))
        | (db', Throw e) => catch db' e
        end
    | None =>
        match createUser now walletAddress username profilePictureUrl db with
        | (db', Ok newUser) =>
            (db', Json 201 (UserBody "User created successfully" newUser))
        | (db', Throw e) => catch db' e
        end
    end.

(** GET /api/users/:walletAddress *)
Definition get_user (walletAddress : string) (db : DB) : DB * Response :=
  if negb (isValidWalletAddress walletAddress)
  then (db, Json 400 (Failure "Invalid wallet address format"))
  else
    match getUserByWallet walletAddress db with
    | None => (db, Json 404 (Failure "User not found"))
    | Some user =>
        let stats := getUserStats walletAddress db in
        (db, Json 200 (ProfileBody
               (mkProfile user (quizCount stats)
                          (JS.Math_round (JS.Fin (JS.or_else (averageScore stats) 0)))
                          (JS.or_else (bestScore stats) 0))))
    end.

Definition validDifficulties : list string :=
  ["easy"; "medium"; "hard"; "beginner"; "intermediate"; "advanced"].

(** The checks of POST /api/scores that precede any access to the store: the
    rejection, or the score of a body that passes them.  The text of the
    second message ends with the [maxScore] of the request. *)
Definition validate_submission (walletAddress quizId : string) (score : option Q)
    (difficulty : string) (maxScore : Q) : Response + Q :=
  match score with
  | None =>
      inl (Json 400 (Failure
             "walletAddress, quizId, score, and difficulty are required"))
  | Some sc =>
      if negb (Str.truthy walletAddress) || negb (Str.truthy quizId)
         || negb (Str.truthy difficulty)
      then inl (Json 400 (Failure
             "walletAddress, quizId, score, and difficulty are required"))
      else if negb (Qle_bool 0 sc) || negb (Qle_bool sc maxScore)
      then inl (Json 400 (Failure "Score must be a number between 0 and "))
      else if negb (existsb (String.eqb (Str.toLowerCase difficulty)) validDifficulties)
      then inl (Json 400 (Failure
             "Invalid difficulty. Must be one of: easy, medium, hard, beginner, intermediate, advanced"))
      else inr sc
  end.

(** The [catch] block of POST /api/scores. *)
Definition catch_scores (db : DB) (e : JsError) : DB * Response :=
  if Str.includes (message e) "already completed"
  then (db, Json 409 (Failure (message e)))
  else (db, internal_error).

(** The 201 answer of POST /api/scores. *)
Definition score_submitted (newScore : Score.t) (updatedUser : User.t) : Response :=
  let percentage := Score.percentage newScore in
  Json 201 (ScoreBody "Score submitted successfully"
    (mkReceipt (Score.score newScore) (Score.maxScore newScore)
               (JS.Math_round percentage)
               (Score.difficulty newScore)
               (User.totalScore updatedUser)
               (JS.ge percentage (JS.Fin 70)) (* 70% minimum for rewards *)
               (Score.createdAt newScore))).

(** POST /api/scores *)
Definition post_scores (now : Z) (walletAddress quizId : string) (score : option Q)
    (difficulty : string) (maxScore : option Q) (db : DB) : DB * Response :=
  let maxScore := match maxScore with Some m => m | None => 20 end in
  match validate_submission walletAddress quizId score difficulty maxScore with
  | inl rejected => (db, rejected)
  | inr sc =>
      match getUserByWallet walletAddress db with
      | None =>
          (db, Json 404 (Failure "User not found. Please create profile first."))
      | Some _ =>
          let scoreData :=
            mkScoreData walletAddress quizId sc (Str.toLowerCase difficulty) maxScore in
          match createScore now scoreData db with
          | (db1, Throw e) => catch_scores db1 e
          | (db1, Ok newScore) =>
              match updateUserTotalScore now walletAddress sc db1 with
              | (db2, None) =>
                  catch_scores db2
                    (Error "Cannot read properties of null (reading 'totalScore')")
              | (db2, Some updatedUser) => (db2, score_submitted newScore updatedUser)
              end
          end
      end
  end.

(** [Math.min(parseInt(req.query.limit) || 20, 100)] *)
Definition history_limit (q : option string) : Z := Z.min (Str.parseInt_or q 20) 100.

(** [Math.max(parseInt(req.query.offset) || 0, 0)] *)
Definition history_offset (q : option string) : Z := Z.max (Str.parseInt_or q 0) 0.

(** GET /api/users/:walletAddress/history *)
Definition get_history (walletAddress : string) (qlimit qoffset : option string)
    (db : DB) : DB * Response :=
  let limit := history_limit qlimit in
  let offset := history_offset qoffset in
  if negb (isValidWalletAddress walletAddress)
  then (db, Json 400 (Failure "Invalid wallet address format"))
  else
    match getUserByWallet walletAddress db with
    | None => (db, Json 404 (Failure "User not found"))
    | Some _ =>
        let historyData := getUserScoreHistory walletAddress limit offset db in
        (db, Json 200 (HistoryBody (h_scores historyData)
               (mkPagination (h_total historyData) limit offset
                             (h_hasMore historyData))))
    end.

(** [Math.min(parseInt(req.query.limit) || 100, 500)] *)
Definition leaderboard_limit (q : option string) : Z :=
  Z.min (Str.parseInt_or q 100) 500.

(** GET /api/leaderboard *)
Definition get_leaderboard (qlimit : option string) (db : DB) : DB * Response :=
  match getLeaderboard (leaderboard_limit qlimit) db with
  | Ok leaderboard =>
      (db, Json 200 (LeaderboardBody leaderboard
                       (Z.of_nat (List.length leaderboard))))
  | Throw _ => (db, internal_error)
  end.

(** *** The service as a transition system *)

Inductive Request : Type :=
| PostUsers (now : Z) (walletAddress username : string)
            (profilePictureUrl : option string)
| GetUser (walletAddress : string)
| PostScores (now : Z) (walletAddress quizId : string) (score : option Q)
             (difficulty : string) (maxScore : option Q)
| GetHistory (walletAddress : string) (limit offset : option string)
| GetLeaderboard (limit : option string).

Definition handle (r : Request) (db : DB) : DB * Response :=
  match r with
  | PostUsers now w name picture => post_users now w name picture db
  | GetUser w => get_user w db
  | PostScores now w quiz sc difficulty maxScore =>
      post_scores now w quiz sc difficulty maxScore db
  | GetHistory w limit offset => get_history w limit offset db
  | GetLeaderboard limit => get_leaderboard limit db
  end.

(** The state after serving the requests of [tr] one after the other. *)
Fixpoint run (tr : list Request) (db : DB) : DB :=
  match tr with
  | [] => db
  | r :: tr' => run tr' (fst (handle r db))
  end.

Inductive reachable : DB -> Prop :=
| reachable_init : reachable empty_db
| reachable_step : forall db r, reachable db -> reachable (fst (handle r db)).

(** ** Submissions in flight *)

(** A handler runs up to its next [await], where a store operation is issued;
    the store serves the operations of the requests in flight one at a time,
    in any order.  A submission therefore proceeds in three store operations:
    [getUserByWallet], [createScore], [updateUserTotalScore]. *)

Record Submission : Type := mkSubmission {
  sub_now : Z;
  sub_walletAddress : string;
  sub_quizId : string;
  sub_score : option Q;
  sub_difficulty : string;
  sub_maxScore : option Q
}.

Definition sub_max (r : Submission) : Q :=
  match sub_maxScore r with Some m => m | None => 20 end.

Definition sub_scoreData (r : Submission) (sc : Q) : ScoreData :=
  mkScoreData (sub_walletAddress r) (sub_quizId r) sc
              (Str.toLowerCase (sub_difficulty r)) (sub_max r).

(** Where a submission stands between two store operations. *)
Inductive Task : Type :=
| Received (r : Submission)
| UserChecked (r : Submission) (sc : Q)
| Recorded (r : Submission) (sc : Q) (newScore : Score.t)
| Answered (resp : Response).

(** The next store operation of a submission, with the code that follows it
    up to the next [await]. *)
Definition task_step (t : Task) (db : DB) : Task * DB :=
  match t with
  | Received r =>
      match validate_submission (sub_walletAddress r) (sub_quizId r) (sub_score r)
                                (sub_difficulty r) (sub_max r) with
      | inl rejected => (Answered rejected, db)
      | inr sc =>
          match getUserByWallet (sub_walletAddress r) db with
          | None =>
              (Answered (Json 404
                 (Failure "User not found. Please create profile first.")), db)
          | Some _ => (UserChecked r sc, db)
          end
      end
  | UserChecked r sc =>
      match createScore (sub_now r) (sub_scoreData r sc) db with
      | (db1, Throw e) => (Answered (snd (catch_scores db1 e)), db1)
      | (db1, Ok newScore) => (Recorded r sc newScore, db1)
      end
  | Recorded r sc newScore =>
      match updateUserTotalScore (sub_now r) (sub_walletAddress r) sc db with
      | (db2, None) =>
          (Answered (snd (catch_scores db2
             (Error "Cannot read properties of null (reading 'totalScore')"))), db2)
      | (db2, Some updatedUser) => (Answered (score_submitted newScore updatedUser), db2)
      end
  | Answered _ => (t, db)
  end.

Section Interleaving.

Variables (T S : Type) (step : T -> S -> T * S).

(** Two requests in flight: [true] lets the first one perform its next store
    operation, [false] the second one. *)
Fixpoint interleave (sched : list bool) (a b : T) (st : S) : T * T * S :=
  match sched with
  | [] => (a, b, st)
  | true :: sched' => let '(a', st') := step a st in interleave sched' a' b st'
  | false :: sched' => let '(b', st') := step b st in interleave sched' a b' st'
  end.

End Interleaving.

(** ** Profile requests in flight *)

(** A profile request proceeds in two store operations: [getUserByWallet],
    then [updateUser] when a profile was found and [createUser] when none
    was. *)

Record Registration : Type := mkRegistration {
  reg_now : Z;
  reg_walletAddress : string;
  reg_username : string;
  reg_profilePictureUrl : option string
}.

(** [...(profilePictureUrl && { profilePictureUrl })] *)
Definition reg_supplied (r : Registration) : option string :=
  match reg_profilePictureUrl r with
  | Some url => if Str.truthy url then Some url else None
  | None => None
  end.

(** The [catch] block of POST /api/users. *)
Definition catch_users (db : DB) (e : JsError) : DB * Response :=
  if Str.includes (message e) "already exists"
  then (db, Json 409 (Failure (message e)))
  else (db, internal_error).

(** Where a profile request stands between two store operations. *)
Inductive UserTask : Type :=
| Posted (r : Registration)
| Found (r : Registration)
| NotFound (r : Registration)
| Replied (resp : Response).

(** The next store operation of a profile request, with the code that
    follows it up to the next [await]. *)
Definition user_task_step (t : UserTask) (db : DB) : UserTask * DB :=
  match t with
  | Posted r =>
      let walletAddress := reg_walletAddress r in
      let username := reg_username r in
      if negb (Str.truthy walletAddress) || negb (Str.truthy username)
      then (Replied (Json 400 (Failure "walletAddress and username are required")), db)
      else if negb (isValidWalletAddress walletAddress)
      then (Replied (Json 400 (Failure
             "Invalid wallet address format. Must be a valid Ethereum address (0x...)")),
            db)
      else if match reg_supplied r with
              | Some url => negb (isValidIPFSUrl url)
              | None => false
              end
      then (Replied (Json 400 (Failure
             "Invalid profile picture URL. Must be a valid IPFS URL")), db)
      else if (String.length username <? 3)%nat || (30 <? String.length username)%nat
      then (Replied (Json 400 (Failure "Username must be between 3 and 30 characters")),
            db)
      else
        match getUserByWallet walletAddress db with
        | Some _ => (Found r, db)
        | None => (NotFound r, db)
        end
  | Found r =>
      match updateUser (reg_now r) (reg_walletAddress r)
                       (mkUpdate (reg_username r) (reg_supplied r)) db with
      | (db', Ok (Some updatedUser)) =>
          (Replied (Json 200 (UserBody "User updated successfully" updatedUser)), db')
      | (db', Ok None) => (Replied (Json 500 (Failure "Failed to update user")), db')
      | (db', Throw e) => (Replied (snd (catch_users db' e)), db')
      end
  | NotFound r =>
      match createUser (reg_now r) (reg_walletAddress r) (reg_username r)
                       (reg_profilePictureUrl r) db with
      | (db', Ok newUser) =>
          (Replied (Json 201 (UserBody "User created successfully" newUser)), db')
      | (db', Throw e) => (Replied (snd (catch_users db' e)), db')
      end
  | Replied _ => (t, db)
  end.

(** ** The SQLite revision of the submission handler ([src/server.js]) *)

(** The revision of POST /api/scores over the tables of the SQLite revision
    of [src/database.js].  The row [id]s are left out.  The [code] that the
    driver sets on a violated UNIQUE constraint is a parameter. *)

Module Sqlite.

Record UserRow : Type := mkUserRow {
  wallet_address : string;
  username : string;
  profile_picture : option string;
  total_score : Q;
  level : string;
  created_at : Z
}.

Record ScoreRow : Type := mkScoreRow {
  s_wallet_address : string;
  quiz_id : string;
  score : Q;
  difficulty : string;
  max_score : Q;
  percentage : JS.number;
  s_created_at : Z
}.

Record Tables : Type := mkTables {
  users : list UserRow;
  scores : list ScoreRow
}.

(** The answer of the handler: a failure, or the data of the 201 answer. *)
Inductive Reply : Type :=
| Failed (status : Z) (msg : string)
| Submitted (score maxScore : Q) (percentage : JS.number) (newTotalScore : Q)
            (difficulty : string) (eligible_for_reward : bool).

(** SELECT * FROM users WHERE wallet_address = ? *)
Definition select_user (w : string) (db : Tables) : option UserRow :=
  find (fun u => String.eqb (wallet_address u) w) (users db).

(** INSERT INTO scores ..., under UNIQUE(wallet_address, quiz_id). *)
Definition insert_score (row : ScoreRow) (db : Tables) : option Tables :=
  if existsb (fun s => String.eqb (s_wallet_address s) (s_wallet_address row)
                       && String.eqb (quiz_id s) (quiz_id row)) (scores db)
  then None
  else Some (mkTables (users db) (scores db ++ [row])).

(** UPDATE users SET total_score = ? WHERE wallet_address = ? *)
Definition update_total (newTotalScore : Q) (w : string) (db : Tables) : Tables :=
  mkTables
    (map (fun u =>
            if String.eqb (wallet_address u) w
            then mkUserRow (wallet_address u) (username u) (profile_picture u)
                           newTotalScore (level u) (created_at u)
            else u)
         (users db))
    (scores db).

(** Where a submission stands between two statements: [user] is the row that
    its SELECT returned. *)
Inductive Task : Type :=
| Received (r : Submission)
| Selected (r : Submission) (sc : Q) (user : UserRow)
| Inserted (r : Submission) (sc : Q) (user : UserRow)
| Answered (reply : Reply).

Section Handler.

Variable constraint_code : string.

Definition task_step (t : Task) (db : Tables) : Task * Tables :=
  match t with
  | Received r =>
      match sub_score r with
      | None =>
          (Answered (Failed 400
             "walletAddress, quizId, score, and difficulty are required"), db)
      | Some sc =>
          if negb (Str.truthy (sub_walletAddress r)) || negb (Str.truthy (sub_quizId r))
             || negb (Str.truthy (sub_difficulty r))
          then (Answered (Failed 400
                  "walletAddress, quizId, score, and difficulty are required"), db)
          else if negb (Qle_bool 0 sc)
          then (Answered (Failed 400 "Score must be a non-negative number"), db)
          else
            match select_user (Str.toLowerCase (sub_walletAddress r)) db with
            | None =>
                (Answered (Failed 404 "User not found. Please create profile first."),
                 db)
            | Some user => (Selected r sc user, db)
            end
      end
  | Selected r sc user =>
      let walletAddr := Str.toLowerCase (sub_walletAddress r) in
      let percentage := JS.mul (JS.div (JS.Fin sc) (JS.Fin (sub_max r))) (JS.Fin 100) in
      match insert_score
              (mkScoreRow walletAddr (sub_quizId r) sc (sub_difficulty r) (sub_max r)
                          percentage (sub_now r)) db with
      | None =>
          if String.eqb constraint_code "SQLITE_CONSTRAINT_UNIQUE"
          then (Answered (Failed 409 "Quiz already completed"), db)
          else (Answered (Failed 500 "Failed to save score"), db)
      | Some db1 => (Inserted r sc user, db1)
      end
  | Inserted r sc user =>
      let walletAddr := Str.toLowerCase (sub_walletAddress r) in
      let percentage := JS.mul (JS.div (JS.Fin sc) (JS.Fin (sub_max r))) (JS.Fin 100) in
      let newTotalScore := (total_score user + sc)%Q in
      (Answered (Submitted sc (sub_max r) (JS.Math_round percentage) newTotalScore
                           (sub_difficulty r) (JS.ge percentage (JS.Fin 70))),
       update_total newTotalScore walletAddr db)
  | Answered _ => (t, db)
  end.

End Handler.

Definition total_of (w : string) (db : Tables) : option Q :=
  option_map total_score (select_user w db).

End Sqlite.

(** * Vocabulary of the properties *)

(** ** Observations on a state *)

(** Total score of the participant stored under the key [w]. *)
Definition userTotal (w : string) (db : DB) : option Q :=
  option_map User.totalScore (find (has_wallet w) (users db)).

(** The ledger entries stored under the key [w], in insertion order. *)
Definition ledger (w : string) (db : DB) : list Score.t :=
  filter (has_score_wallet w) (scores db).

(** The raw score that a served request accrued to the participant [w]:
    the request is a submission under that key and was answered 201. *)
Definition accrual_of (w : string) (r : Request) (resp : Response) : option Q :=
  match r with
  | PostScores _ w' _ (Some sc) _ _ =>
      if (status resp =? 201)%Z && String.eqb (Str.toLowerCase w') w
      then Some sc else None
  | _ => None
  end.

(** Raw scores of the successful submissions of [w] while [tr] is served
    from [db], in the order of the requests. *)
Fixpoint accrued (w : string) (tr : list Request) (db : DB) : list Q :=
  match tr with
  | [] => []
  | r :: tr' =>
      let '(db', resp) := handle r db in
      match accrual_of w r resp with
      | Some sc => sc :: accrued w tr' db'
      | None => accrued w tr' db'
      end
  end.

(** A key as the profile handler stores it. *)
Definition wf_key (k : string) : Prop :=
  isValidWalletAddress k = true /\ Str.toLowerCase k = k.

(** The receipt of a submission that found [u] under its key. *)
Definition receipt_of (doc : Score.t) (u : User.t) : ScoreReceipt :=
  mkReceipt (Score.score doc) (Score.maxScore doc)
            (JS.Math_round (Score.percentage doc))
            (Score.difficulty doc)
            (User.totalScore u + Score.score doc)
            (JS.ge (Score.percentage doc) (JS.Fin 70))
            (Score.createdAt doc).

(** ** Invariants of the reachable states *)

(** The key [k] has a profile. *)
Definition registered (k : string) (db : DB) : Prop :=
  In k (map User.walletAddress (users db)).

(** Keys are well formed, totals are not negative, and a ledger entry under
    a well-formed key belongs to a profile. *)
Record Inv (db : DB) : Prop := mkInv {
  inv_keys : Forall (fun u => wf_key (User.walletAddress u)) (users db);
  inv_nonneg : Forall (fun u => (0 <= User.totalScore u)%Q) (users db);
  inv_owned : forall s,
    In s (scores db) ->
    isValidWalletAddress (Score.walletAddress s) = true ->
    registered (Score.walletAddress s) db
}.

(** The percentage in the words of the specification: rawScore / maxScore x 100,
    computed with the division and product of the language. *)
Definition spec_percentage (rawScore maxScore : Q) : JS.number :=
  JS.mul (JS.div (JS.Fin rawScore) (JS.Fin maxScore)) (JS.Fin 100).

(** Participants with a positive total score. *)
Definition ranked (db : DB) : list User.t :=
  filter (fun u => negb (Qle_bool (User.totalScore u) 0)) (users db).

(** ** Two submissions in flight *)

(** The ledger holds an attempt of [k] at the quiz [q]. *)
Definition attempted (k q : string) (db : DB) : bool :=
  existsb (fun s => has_score_wallet k s && String.eqb (Score.quizId s) q) (scores db).

(** The task of the submission [r], of validated score [sc], after [n] store
    operations that all went well. *)
Definition task_at (r : Submission) (sc : Q) (n : nat) (t : Task) : Prop :=
  match n with
  | 0%nat => t = Received r
  | 1%nat => t = UserChecked r sc
  | 2%nat => t = Recorded r sc (score_document (sub_now r) (sub_scoreData r sc))
  | _ => exists resp, t = Answered resp /\ status resp = 201%Z
  end.

(** What a task has added to the total of its participant. *)
Definition banked (n : nat) (sc : Q) : Q := if (3 <=? n)%nat then sc else 0.

(** ** Sample data *)

Definition alice : string := "0xABCDEFabcdef0123456789abcdefABCDEF012345".

Definition alice_key : string := "0xabcdefabcdef0123456789abcdefabcdef012345".

Definition alice_user : User.t :=
  User.mk alice_key "Alice" None 0 "beginner" 1000 1000.

Definition db_alice : DB := mkDB [alice_user] [].

(** Two accepted quizzes, the first one submitted twice, and a profile edit. *)
Definition sample_trace : list Request :=
  [ PostScores 2000 alice "q1" (Some 18) "medium" (Some 20);
    PostScores 2500 alice "q1" (Some 18) "medium" (Some 20);
    PostUsers 2600 alice "Alice B" None;
    PostScores 3000 alice "q2" (Some 10) "Easy" None ].

(** Two submissions of Alice, on the quizzes q1 and q2, for 5 and 7 points. *)
Definition first_submission : Submission :=
  mkSubmission 2000 alice "q1" (Some 5) "easy" None.

Definition second_submission : Submission :=
  mkSubmission 2001 alice "q2" (Some 7) "hard" None.

Definition sqlite_alice : Sqlite.Tables :=
  Sqlite.mkTables [Sqlite.mkUserRow alice_key "Alice" None 0 "beginner" 1000] [].

(** Each request performs a statement in turn. *)
Definition alternating : list bool := [true; false; true; false; true; false].

(** * Vocabulary of the further properties *)

(** The key of a ledger entry in the index [wallet_quiz_unique]. *)
Definition attempt_key (s : Score.t) : string * string :=
  (Score.walletAddress s, Score.quizId s).

(** What the handlers establish of a ledger entry before it is stored. *)
Record entry_ok (s : Score.t) : Prop := mkEntryOk {
  entry_difficulty : In (Score.difficulty s) validDifficulties;
  entry_score_lo : (0 <= Score.score s)%Q;
  entry_score_hi : (Score.score s <= Score.maxScore s)%Q;
  entry_max_pos : (0 < Score.maxScore s)%Q;
  entry_percentage :
    Score.percentage s = JS.Fin (Score.score s / Score.maxScore s * 100);
  entry_wallet_lower : Str.toLowerCase (Score.walletAddress s) = Score.walletAddress s
}.

(** What the handlers establish of a profile. *)
Record profile_ok (u : User.t) : Prop := mkProfileOk {
  profile_key : wf_key (User.walletAddress u);
  profile_name_lo : (3 <= String.length (User.username u))%nat;
  profile_name_hi : (String.length (User.username u) <= 30)%nat;
  profile_level : User.level u = "beginner";
  profile_total : (0 <= User.totalScore u)%Q
}.


(** The checks of POST /api/users that precede any access to the store. *)
Definition passes_profile_checks (walletAddress username : string)
    (profilePictureUrl : option string) : bool :=
  Str.truthy walletAddress && Str.truthy username
  && isValidWalletAddress walletAddress
  && match profilePictureUrl with
     | Some url => if Str.truthy url then isValidIPFSUrl url else true
     | None => true
     end
  && negb ((String.length username <? 3)%nat || (30 <? String.length username)%nat).

(** The picture that [createUser] and [updateUser] store for a supplied one. *)
Definition stored_picture (url : string) : option string :=
  if Str.truthy url then Some (Str.trim url) else None.

(** The profile that [updateUser] writes in place of [u]. *)
Definition edited_profile (now : Z) (upd : UpdateData) (u : User.t) : User.t :=
  User.mk (User.walletAddress u)
          (if Str.truthy (upd_username upd)
           then Str.trim (upd_username upd) else User.username u)
          (match upd_profilePictureUrl upd with
           | Some url => stored_picture url
           | None => User.profilePictureUrl u
           end)
          (User.totalScore u) (User.level u) (User.createdAt u) now.

(** ** Two submissions of one quiz in flight *)

(** Where a submission stands: before each of its three store operations,
    answered 201, or answered 409. *)
Inductive Stage : Type := AtReceived | AtUserChecked | AtRecorded | Won | Lost.

Definition stage_of (r : Submission) (sc : Q) (g : Stage) (t : Task) : Prop :=
  match g with
  | AtReceived => t = Received r
  | AtUserChecked => t = UserChecked r sc
  | AtRecorded => t = Recorded r sc (score_document (sub_now r) (sub_scoreData r sc))
  | Won => exists resp, t = Answered resp /\ status resp = 201%Z
  | Lost => t = Answered (Json 409 (Failure "Quiz already completed by this user"))
  end.

(** The submission has its entry in the ledger. *)
Definition holds_entry (g : Stage) : bool :=
  match g with AtRecorded | Won => true | _ => false end.

(** The stage after the next store operation; [taken] tells whether the
    ledger holds an attempt at the quiz. *)
Definition next_stage (g : Stage) (taken : bool) : Stage :=
  match g with
  | AtReceived => AtUserChecked
  | AtUserChecked => if taken then Lost else AtRecorded
  | AtRecorded => Won
  | Won => Won
  | Lost => Lost
  end.

(** The stages of two submissions of one quiz after the schedule [sched]. *)
Fixpoint stages (sched : list bool) (ga gb : Stage) : Stage * Stage :=
  match sched with
  | [] => (ga, gb)
  | true :: sched' =>
      stages sched' (next_stage ga (holds_entry ga || holds_entry gb)) gb
  | false :: sched' =>
      stages sched' ga (next_stage gb (holds_entry ga || holds_entry gb))
  end.

(** What a submission at the stage [g] has added to the total. *)
Definition credited (g : Stage) (sc : Q) : Q :=
  match g with Won => sc | _ => 0 end.

(** Store operations that a submission at the stage [g] has behind it, an
    answered one counting for three. *)
Definition stage_rank (g : Stage) : nat :=
  match g with
  | AtReceived => 0 | AtUserChecked => 1 | AtRecorded => 2 | Won | Lost => 3
  end.

(** The stages of two submissions of one quiz: never both with an entry, and
    one is refused only when the other has its entry. *)
Definition stages_consistent (ga gb : Stage) : Prop :=
  holds_entry ga && holds_entry gb = false /\
  (ga = Lost -> holds_entry gb = true) /\
  (gb = Lost -> holds_entry ga = true).

(** * Proofs *)

Example parseInt_examples :
  Str.parseInt (Some "25"%string) = Some 25%Z /\
  Str.parseInt (Some " -5px"%string) = Some (-5)%Z /\
  Str.parseInt (Some "0x1F"%string) = Some 31%Z /\
  Str.parseInt (Some "abc"%string) = None /\
  Str.parseInt None = None.
Proof. repeat split; reflexivity. Qed.

Example trim_examples :
  Str.trim "  ab c  "%string = "ab c"%string /\
  Str.toLowerCase "0xABcd"%string = "0xabcd"%string /\
  Str.includes "Quiz already completed by this user" "already completed" = true /\
  Str.includes "USER_ALREADY_EXISTS" "already exists" = false.
Proof. repeat split; reflexivity. Qed.

(** The scenario of the specification: Alice registers, scores 18 of 20 on
    q1 (90%, eligible, total 18), is refused a second attempt at q1, scores
    10 of 20 on q2 (50%, not eligible, total 28) and leads the leaderboard
    with score 28 and two quizzes. *)
Example specification_scenario :
  let q1 := PostScores 2000 alice "q1" (Some 18) "medium" (Some 20) in
  let q2 := PostScores 3000 alice "q2" (Some 10) "medium" (Some 20) in
  handle (PostUsers 1000 alice "Alice" None) empty_db
    = (db_alice, Json 201 (UserBody "User created successfully" alice_user)) /\
  snd (handle q1 db_alice)
    = Json 201 (ScoreBody "Score submitted successfully"
                  (mkReceipt 18 20 (JS.Fin 90) "medium" (0 + 18) true 2000)) /\
  snd (handle q1 (run [q1] db_alice))
    = Json 409 (Failure "Quiz already completed by this user") /\
  snd (handle q2 (run [q1; q1] db_alice))
    = Json 201 (ScoreBody "Score submitted successfully"
                  (mkReceipt 10 20 (JS.Fin 50) "medium" (0 + 18 + 10) false 3000)) /\
  snd (handle (GetLeaderboard (Some "10")) (run [q1; q1; q2] db_alice))
    = Json 200 (LeaderboardBody
                  [mkEntry 1 alice_key "Alice" None (0 + 18 + 10) "beginner" 2 1000] 1).
Proof. cbv zeta. repeat split. Qed.

(** ** Strings: facts used below *)

Lemma is_hex_not_space : forall c, Str.is_hex c = true -> Str.is_space c = false.
Proof.
  intros [[] [] [] [] [] [] [] []]; vm_compute; congruence.
Qed.

Lemma is_hex_lower : forall c, Str.is_hex c = true -> Str.is_hex (Str.lower_char c) = true.
Proof.
  intros [[] [] [] [] [] [] [] []]; vm_compute; congruence.
Qed.

Lemma lower_char_idem : forall c, Str.lower_char (Str.lower_char c) = Str.lower_char c.
Proof.
  intros [[] [] [] [] [] [] [] []]; vm_compute; congruence.
Qed.

Lemma toLowerCase_idem : forall s, Str.toLowerCase (Str.toLowerCase s) = Str.toLowerCase s.
Proof.
  induction s as [|c s IH]; simpl; [reflexivity|].
  now rewrite lower_char_idem, IH.
Qed.

Lemma toLowerCase_length : forall s, String.length (Str.toLowerCase s) = String.length s.
Proof.
  induction s as [|c s IH]; simpl; congruence.
Qed.

Lemma all_hex_lower : forall s, Str.all_hex s = true -> Str.all_hex (Str.toLowerCase s) = true.
Proof.
  unfold Str.all_hex.
  induction s as [|c s IH]; simpl; [reflexivity|].
  rewrite !andb_true_iff. intros [Hc Hs]. split; [now apply is_hex_lower | now apply IH].
Qed.

Lemma all_hex_no_space : forall s,
  Str.all_hex s = true -> Str.all_chars (fun c => negb (Str.is_space c)) s = true.
Proof.
  unfold Str.all_hex.
  induction s as [|c s IH]; simpl; [reflexivity|].
  rewrite !andb_true_iff. intros [Hc Hs]. split; [|now apply IH].
  now rewrite (is_hex_not_space _ Hc).
Qed.

Lemma trimEnd_no_space : forall s,
  Str.all_chars (fun c => negb (Str.is_space c)) s = true -> Str.trimEnd s = s.
Proof.
  induction s as [|c s IH]; simpl; [reflexivity|].
  rewrite andb_true_iff. intros [Hc Hs]. rewrite (IH Hs).
  apply negb_true_iff in Hc.
  destruct s; [now rewrite Hc | reflexivity].
Qed.

Lemma valid_wallet_shape : forall s,
  isValidWalletAddress s = true ->
  exists rest, s = String "0" (String "x" rest) /\
               String.length rest = 40%nat /\ Str.all_hex rest = true.
Proof.
  intros s H. unfold isValidWalletAddress in H.
  destruct s as [|c0 s]; [discriminate|].
  destruct s as [|c1 s].
  { destruct c0 as [[] [] [] [] [] [] [] []]; discriminate. }
  destruct c0 as [[] [] [] [] [] [] [] []]; try discriminate.
  destruct c1 as [[] [] [] [] [] [] [] []]; try discriminate.
  apply andb_true_iff in H. destruct H as [Hl Hh].
  exists s. repeat split; [now apply Nat.eqb_eq | exact Hh].
Qed.

Lemma valid_wallet_trim : forall s, isValidWalletAddress s = true -> Str.trim s = s.
Proof.
  intros s H. destruct (valid_wallet_shape _ H) as (rest & -> & _ & Hh).
  unfold Str.trim. cbn [Str.trimStart].
  change (Str.is_space "0") with false. cbv iota.
  apply trimEnd_no_space. cbn [Str.all_chars].
  now rewrite (all_hex_no_space _ Hh).
Qed.

Lemma valid_wallet_lower : forall s,
  isValidWalletAddress s = true -> isValidWalletAddress (Str.toLowerCase s) = true.
Proof.
  intros s H. destruct (valid_wallet_shape _ H) as (rest & -> & Hl & Hh).
  cbn [Str.toLowerCase]. change (Str.lower_char "0") with "0"%char.
  change (Str.lower_char "x") with "x"%char.
  unfold isValidWalletAddress.
  rewrite toLowerCase_length, Hl, (all_hex_lower _ Hh). reflexivity.
Qed.

(** The key under which the handlers store and look up a well-formed
    address is its lower-case form. *)
Lemma valid_wallet_key : forall w,
  isValidWalletAddress w = true ->
  Str.trim (Str.toLowerCase w) = Str.toLowerCase w /\ wf_key (Str.toLowerCase w).
Proof.
  intros w H. pose proof (valid_wallet_lower _ H) as Hl.
  split; [now apply valid_wallet_trim|].
  split; [exact Hl | apply toLowerCase_idem].
Qed.

Lemma wf_key_fixed : forall k, wf_key k -> Str.trim (Str.toLowerCase k) = k.
Proof.
  intros k [Hv Hl]. rewrite Hl. now apply valid_wallet_trim.
Qed.

(** ** The store: facts used below *)

Section UpdateFacts.

Variable f : User.t -> User.t.

Hypothesis f_key : forall u, User.walletAddress (f u) = User.walletAddress u.

Lemma has_wallet_update : forall a u, has_wallet a (f u) = has_wallet a u.
Proof. intros. unfold has_wallet. now rewrite f_key. Qed.

Lemma update_same : forall a l,
  find (has_wallet a) (fst (findOneAndUpdate (has_wallet a) f l))
    = option_map f (find (has_wallet a) l)
  /\ snd (findOneAndUpdate (has_wallet a) f l) = option_map f (find (has_wallet a) l).
Proof.
  intros a. induction l as [|x l [IH1 IH2]]; simpl; [auto|].
  destruct (has_wallet a x) eqn:Hx; simpl.
  - now rewrite has_wallet_update, Hx.
  - destruct (findOneAndUpdate (has_wallet a) f l) as [l' r]; simpl in *.
    now rewrite Hx.
Qed.

Lemma update_other : forall a b l,
  a <> b ->
  find (has_wallet b) (fst (findOneAndUpdate (has_wallet a) f l))
    = find (has_wallet b) l.
Proof.
  intros a b l Hab. induction l as [|x l IH]; simpl; [reflexivity|].
  destruct (has_wallet a x) eqn:Hx; simpl.
  - rewrite has_wallet_update.
    assert (has_wallet b x = false) as ->; [|reflexivity].
    unfold has_wallet in *. apply String.eqb_eq in Hx.
    apply String.eqb_neq. congruence.
  - destruct (findOneAndUpdate (has_wallet a) f l) as [l' r]; simpl in *.
    now rewrite IH.
Qed.

Lemma update_keys : forall p l,
  map User.walletAddress (fst (findOneAndUpdate p f l)) = map User.walletAddress l.
Proof.
  intros p. induction l as [|x l IH]; simpl; [reflexivity|].
  destruct (p x); simpl; [now rewrite f_key|].
  destruct (findOneAndUpdate p f l) as [l' r]; simpl in *. now rewrite IH.
Qed.

Lemma update_Forall : forall (P : User.t -> Prop) p l,
  (forall u, P u -> P (f u)) ->
  Forall P l -> Forall P (fst (findOneAndUpdate p f l)).
Proof.
  intros P p l Hf. induction 1 as [|x l Hx Hl IH]; simpl; [constructor|].
  destruct (p x); simpl; [constructor; auto|].
  destruct (findOneAndUpdate p f l) as [l' r]; simpl in *. constructor; auto.
Qed.

(** Every document after the update is a document before it, possibly
    updated. *)
Lemma update_In : forall p l u',
  In u' (fst (findOneAndUpdate p f l)) -> exists u, In u l /\ (u' = u \/ u' = f u).
Proof.
  intros p. induction l as [|x l IH]; simpl; [tauto|].
  intros u'. destruct (p x); simpl.
  - intros [<-|H]; [exists x; auto | exists u'; auto].
  - destruct (findOneAndUpdate p f l) as [l' r]; simpl in *.
    intros [<-|H]; [exists x; auto|].
    destruct (IH _ H) as (u & Hu & Hd). exists u; auto.
Qed.

End UpdateFacts.

Lemma update_none : forall (p : User.t -> bool) (f : User.t -> User.t) l,
  find p l = None -> fst (findOneAndUpdate p f l) = l.
Proof.
  intros p f. induction l as [|x l IH]; simpl; [reflexivity|].
  destruct (p x); [discriminate|]. intros H.
  destruct (findOneAndUpdate p f l) as [l' r]; simpl in *. now rewrite IH.
Qed.

Lemma find_app_new : forall (q : User.t -> bool) l u x,
  find q l = Some x -> find q (l ++ [u]) = Some x.
Proof.
  intros q. induction l as [|y l IH]; simpl; [discriminate|].
  intros u x. destruct (q y); [auto | apply IH].
Qed.

Lemma find_existsb : forall (q : User.t -> bool) l,
  existsb q l = match find q l with Some _ => true | None => false end.
Proof.
  intros q. induction l as [|y l IH]; simpl; [reflexivity|].
  destruct (q y); simpl; auto.
Qed.

Lemma find_has_wallet : forall k l u,
  find (has_wallet k) l = Some u -> User.walletAddress u = k /\ In u l.
Proof.
  intros k l u H. apply find_some in H. destruct H as [Hin Hk].
  split; [now apply String.eqb_eq | exact Hin].
Qed.

(** POST /api/scores, case by case. *)
Lemma post_scores_cases : forall now w quiz score difficulty maxScore db,
  let m := match maxScore with Some m => m | None => 20 end in
  post_scores now w quiz score difficulty maxScore db =
  match validate_submission w quiz score difficulty m with
  | inl rejected => (db, rejected)
  | inr sc =>
      match getUserByWallet w db with
      | None => (db, Json 404 (Failure "User not found. Please create profile first."))
      | Some _ =>
          let doc :=
            score_document now (mkScoreData w quiz sc (Str.toLowerCase difficulty) m) in
          if existsb (same_attempt doc) (scores db)
          then (db, Json 409 (Failure "Quiz already completed by this user"))
          else
            match find (has_wallet (Str.toLowerCase w)) (users db) with
            | None => (mkDB (users db) (scores db ++ [doc]), internal_error)
            | Some u =>
                (mkDB (fst (findOneAndUpdate (has_wallet (Str.toLowerCase w))
                                             (inc_totalScore now sc) (users db)))
                      (scores db ++ [doc]),
                 Json 201 (ScoreBody "Score submitted successfully" (receipt_of doc u)))
            end
      end
  end.
Proof.
  intros now w quiz score difficulty maxScore db m.
  unfold post_scores. fold m.
  destruct (validate_submission w quiz score difficulty m) as [rej|sc]; [reflexivity|].
  destruct (getUserByWallet w db); [|reflexivity].
  unfold createScore, insert_score.
  destruct (existsb _ (scores db)) eqn:Hdup; [reflexivity|].
  unfold updateUserTotalScore. cbn [users scores].
  pose proof (update_same (inc_totalScore now sc) (fun u => eq_refl)
                (Str.toLowerCase w) (users db)) as [_ Hr].
  pose proof (@update_none (has_wallet (Str.toLowerCase w))
                (inc_totalScore now sc) (users db)) as Hn.
  destruct (findOneAndUpdate (has_wallet (Str.toLowerCase w))
              (inc_totalScore now sc) (users db)) as [us r].
  cbn [fst snd] in *. subst r.
  destruct (find (has_wallet (Str.toLowerCase w)) (users db)) as [u|];
    cbn [option_map]; [reflexivity|].
  rewrite (Hn eq_refl). unfold catch_scores.
  change (Str.includes _ "already completed") with false. reflexivity.
Qed.

(** POST /api/users leaves the ledger alone and either leaves the profiles
    alone, or rewrites one profile keeping its key and its total score, or
    adds a profile with total score 0 under a key that was free; the last
    case is the one answered 201. *)
Lemma post_users_cases : forall now w name picture db,
  let db' := fst (post_users now w name picture db) in
  let resp := snd (post_users now w name picture db) in
  scores db' = scores db /\
  ((users db' = users db /\ status resp <> 201%Z)
   \/ (exists f,
         (forall u, User.walletAddress (f u) = User.walletAddress u) /\
         (forall u, User.totalScore (f u) = User.totalScore u) /\
         users db' = fst (findOneAndUpdate
                            (has_wallet (Str.trim (Str.toLowerCase w))) f (users db)) /\
         status resp <> 201%Z)
   \/ (exists u,
         users db' = (users db ++ [u])%list /\
         find (has_wallet (User.walletAddress u)) (users db) = None /\
         isValidWalletAddress w = true /\
         User.walletAddress u = Str.toLowerCase w /\
         User.totalScore u = 0 /\
         resp = Json 201 (UserBody "User created successfully" u))).
Proof.
  intros now w name picture db. cbv zeta. unfold post_users.
  destruct (negb (Str.truthy w) || negb (Str.truthy name)) eqn:H1;
    [cbn; split; [reflexivity | left; split; [reflexivity | discriminate]]|].
  destruct (negb (isValidWalletAddress w)) eqn:H2;
    [cbn; split; [reflexivity | left; split; [reflexivity | discriminate]]|].
  apply negb_false_iff in H2.
  destruct (match match picture with
                  | Some url => if Str.truthy url then Some url else None
                  | None => None
                  end with
            | Some url => negb (isValidIPFSUrl url)
            | None => false
            end) eqn:H3;
    [cbn; split; [reflexivity | left; split; [reflexivity | discriminate]]|].
  destruct ((String.length name <? 3)%nat || (30 <? String.length name)%nat) eqn:H4;
    [cbn; split; [reflexivity | left; split; [reflexivity | discriminate]]|].
  destruct (valid_wallet_key _ H2) as [Hkey Hwf].
  destruct (getUserByWallet w db) as [existing|] eqn:Hget.
  - (* update *)
    unfold updateUser. cbv zeta.
    match goal with
    | |- context [if ?c then (db, Throw _) else _] => destruct c eqn:H5
    end.
    + cbn. split; [reflexivity | left; split; [reflexivity | discriminate]].
    + match goal with
      | |- context [findOneAndUpdate ?p ?f (users db)] =>
          destruct (findOneAndUpdate p f (users db)) as [us r] eqn:Hupd;
          assert (Hus : us = fst (findOneAndUpdate p f (users db)))
            by (now rewrite Hupd);
          pose (g := f)
      end.
      assert (Hshape : scores (mkDB us (scores db)) = scores db) by reflexivity.
      destruct r as [updated|]; cbn [fst snd scores users status];
        (split; [reflexivity|]); right; left; exists g; subst g;
        (split; [intros u; reflexivity|]); (split; [intros u; reflexivity|]);
        (split; [exact Hus | discriminate]).
  - (* create *)
    unfold createUser. cbn [User.walletAddress User.username].
    rewrite Hkey, (proj1 Hwf). cbn [negb].
    destruct (negb (valid_username_length (Str.trim name))) eqn:H5.
    + cbn. split; [reflexivity | left; split; [reflexivity | discriminate]].
    + unfold insert_user. cbn [User.walletAddress].
      unfold getUserByWallet in Hget. rewrite Hkey in Hget.
      rewrite find_existsb, Hget.
      cbn [fst snd scores users status]. split; [reflexivity|].
      right; right. eexists. split; [reflexivity|].
      cbn [User.walletAddress User.totalScore].
      repeat split; try reflexivity; assumption.
Qed.

(** The read-only handlers. *)
Lemma get_user_state : forall w db, fst (get_user w db) = db.
Proof.
  intros. unfold get_user.
  destruct (negb (isValidWalletAddress w)); [reflexivity|].
  destruct (getUserByWallet w db); reflexivity.
Qed.

Lemma get_history_state : forall w l o db, fst (get_history w l o db) = db.
Proof.
  intros. unfold get_history.
  destruct (negb (isValidWalletAddress w)); [reflexivity|].
  destruct (getUserByWallet w db); reflexivity.
Qed.

Lemma get_leaderboard_state : forall l db, fst (get_leaderboard l db) = db.
Proof.
  intros. unfold get_leaderboard.
  destruct (getLeaderboard (leaderboard_limit l) db); reflexivity.
Qed.

(** What the validation of a submission establishes. *)
Lemma validate_rejects_400 : forall w quiz score difficulty m rejected,
  validate_submission w quiz score difficulty m = inl rejected ->
  status rejected = 400%Z.
Proof.
  unfold validate_submission. intros w quiz score difficulty m rejected.
  destruct score as [sc|]; [|intros [= <-]; reflexivity].
  destruct (negb (Str.truthy w) || negb (Str.truthy quiz) || negb (Str.truthy difficulty));
    [intros [= <-]; reflexivity|].
  destruct (negb (Qle_bool 0 sc) || negb (Qle_bool sc m));
    [intros [= <-]; reflexivity|].
  destruct (negb (existsb (String.eqb (Str.toLowerCase difficulty)) validDifficulties));
    [intros [= <-]; reflexivity | discriminate].
Qed.

Lemma validate_accepts : forall w quiz score difficulty m sc,
  validate_submission w quiz score difficulty m = inr sc ->
  score = Some sc /\ (0 <= sc)%Q /\ (sc <= m)%Q /\
  Str.truthy w = true /\ Str.truthy quiz = true /\
  existsb (String.eqb (Str.toLowerCase difficulty)) validDifficulties = true.
Proof.
  unfold validate_submission. intros w quiz score difficulty m sc.
  destruct score as [sc'|]; [|discriminate].
  destruct (negb (Str.truthy w) || negb (Str.truthy quiz) || negb (Str.truthy difficulty))
    eqn:H1; [discriminate|].
  destruct (negb (Qle_bool 0 sc') || negb (Qle_bool sc' m)) eqn:H2; [discriminate|].
  destruct (negb (existsb (String.eqb (Str.toLowerCase difficulty)) validDifficulties))
    eqn:H3; [discriminate|].
  intros [= <-].
  apply orb_false_iff in H1. destruct H1 as [H1 _].
  apply orb_false_iff in H1. destruct H1 as [Hw Hq].
  apply orb_false_iff in H2. destruct H2 as [Hlo Hhi].
  apply negb_false_iff in Hw, Hq, Hlo, Hhi, H3.
  apply Qle_bool_iff in Hlo, Hhi. auto 10.
Qed.

Lemma registered_find : forall k db,
  registered k db <-> exists u, find (has_wallet k) (users db) = Some u.
Proof.
  intros k db. unfold registered. split.
  - intros H. apply in_map_iff in H. destruct H as (u & Hk & Hin).
    destruct (find (has_wallet k) (users db)) as [u'|] eqn:Hf; [eauto|].
    exfalso. apply (find_none _ _ Hf) in Hin.
    unfold has_wallet in Hin. rewrite Hk, String.eqb_refl in Hin. discriminate.
  - intros [u Hf]. apply find_has_wallet in Hf. destruct Hf as [Hk Hin].
    apply in_map_iff. eauto.
Qed.

Lemma registered_total : forall k db,
  registered k db <-> exists t, userTotal k db = Some t.
Proof.
  intros k db. rewrite registered_find. unfold userTotal. split.
  - intros [u ->]. cbn. eauto.
  - intros [t H]. destruct (find (has_wallet k) (users db)); [eauto | discriminate].
Qed.

Lemma Inv_empty : Inv empty_db.
Proof. split; cbn; [constructor | constructor | tauto]. Qed.

Lemma Inv_post_users : forall now w name picture db,
  Inv db -> Inv (fst (post_users now w name picture db)).
Proof.
  intros now w name picture db [Hk Hn Ho].
  destruct (post_users_cases now w name picture db) as [Hs Hu].
  set (db' := fst (post_users now w name picture db)) in *.
  assert (Hreg : forall k, registered k db -> registered k db').
  { intros k Hr. unfold registered in *.
    destruct Hu as [[-> _]|[(f & Hfk & _ & -> & _)|(u & -> & _)]];
      [exact Hr | now rewrite update_keys | rewrite map_app; apply in_or_app; auto]. }
  split.
  - destruct Hu as [[-> _]|[(f & Hfk & _ & -> & _)|(u & -> & _ & Hv & Hw & _)]].
    + exact Hk.
    + apply update_Forall; [|exact Hk]. intros u. now rewrite Hfk.
    + apply Forall_app. split; [exact Hk|]. constructor; [|constructor].
      rewrite Hw. apply (valid_wallet_key _ Hv).
  - destruct Hu as [[-> _]|[(f & _ & Hft & -> & _)|(u & -> & _ & _ & _ & Ht & _)]].
    + exact Hn.
    + apply update_Forall; [|exact Hn]. intros u. now rewrite Hft.
    + apply Forall_app. split; [exact Hn|]. constructor; [|constructor].
      rewrite Ht. apply Qle_refl.
  - intros s Hin Hv. apply Hreg. apply Ho; [|exact Hv]. now rewrite <- Hs.
Qed.

Lemma Inv_post_scores : forall now w quiz score difficulty maxScore db,
  Inv db -> Inv (fst (post_scores now w quiz score difficulty maxScore db)).
Proof.
  intros now w quiz score difficulty maxScore db HI.
  rewrite post_scores_cases. cbv zeta.
  set (m := match maxScore with Some m => m | None => 20 end).
  destruct (validate_submission w quiz score difficulty m) as [rej|sc] eqn:Hval;
    [exact HI|].
  destruct (getUserByWallet w db) as [found|] eqn:Hget; [|exact HI].
  destruct (existsb _ (scores db)); [exact HI|].
  destruct HI as [Hk Hn Ho].
  assert (Hdoc : forall s,
    In s (scores db ++ [score_document now
            (mkScoreData w quiz sc (Str.toLowerCase difficulty) m)])%list ->
    isValidWalletAddress (Score.walletAddress s) = true ->
    registered (Score.walletAddress s) db).
  { intros s Hin Hv. apply in_app_or in Hin. destruct Hin as [Hin|[<-|[]]]; [auto|].
    cbn in Hv |- *. apply registered_find. exists found.
    unfold getUserByWallet in Hget. now rewrite (valid_wallet_trim _ Hv) in Hget. }
  destruct (find (has_wallet (Str.toLowerCase w)) (users db)) as [u|] eqn:Hfind;
    cbn [fst].
  - split; cbn [users scores].
    + apply update_Forall; [|exact Hk]. intros u'. exact id.
    + apply update_Forall; [|exact Hn]. intros u' Hu'. cbn.
      destruct (validate_accepts _ _ _ _ _ Hval) as (_ & Hsc & _).
      lra.
    + intros s Hin Hv. unfold registered. cbn [users].
      rewrite update_keys by reflexivity. now apply Hdoc.
  - split; cbn [users scores]; [exact Hk | exact Hn | exact Hdoc].
Qed.

Lemma Inv_handle : forall r db, Inv db -> Inv (fst (handle r db)).
Proof.
  intros [now w name picture|w|now w quiz sc difficulty maxScore|w l o|l] db HI;
    cbn [handle].
  - now apply Inv_post_users.
  - now rewrite get_user_state.
  - now apply Inv_post_scores.
  - now rewrite get_history_state.
  - now rewrite get_leaderboard_state.
Qed.

Lemma reachable_Inv : forall db, reachable db -> Inv db.
Proof.
  induction 1 as [|db r _ IH]; [exact Inv_empty | now apply Inv_handle].
Qed.

Lemma reachable_run : forall tr db, reachable db -> reachable (run tr db).
Proof.
  induction tr as [|r tr IH]; intros db H; cbn; [exact H|].
  apply IH. now constructor.
Qed.

(** ** One request seen from one participant *)

Lemma userTotal_update : forall f a k db us ss,
  (forall u, User.walletAddress (f u) = User.walletAddress u) ->
  us = fst (findOneAndUpdate (has_wallet a) f (users db)) ->
  userTotal k (mkDB us ss) =
    if String.eqb a k
    then option_map (fun u => User.totalScore (f u)) (find (has_wallet k) (users db))
    else userTotal k db.
Proof.
  intros f a k db us ss Hf ->. unfold userTotal. cbn [users].
  destruct (String.eqb a k) eqn:Hak.
  - apply String.eqb_eq in Hak. subst a.
    rewrite (proj1 (update_same f Hf k (users db))).
    now destruct (find (has_wallet k) (users db)).
  - apply String.eqb_neq in Hak. now rewrite (update_other f Hf (users db) Hak).
Qed.

Lemma ledger_app : forall k db us doc,
  ledger k (mkDB us (scores db ++ [doc])) =
    if String.eqb (Score.walletAddress doc) k
    then (ledger k db ++ [doc])%list else ledger k db.
Proof.
  intros. unfold ledger. cbn [scores]. rewrite filter_app. cbn [filter].
  unfold has_score_wallet at 2.
  destruct (String.eqb (Score.walletAddress doc) k); [reflexivity | apply app_nil_r].
Qed.

(** A request changes the total score of the participant [k] exactly when it
    is a successful submission under that key: the raw score is then added to
    the total and one entry is appended to the ledger of [k]; any other
    request leaves both alone. *)
Lemma handle_accrual : forall k r db t,
  userTotal k db = Some t ->
  let db' := fst (handle r db) in
  match accrual_of k r (snd (handle r db)) with
  | Some sc =>
      userTotal k db' = Some (t + sc) /\
      exists doc, ledger k db' = (ledger k db ++ [doc])%list /\ Score.score doc = sc
  | None => userTotal k db' = Some t /\ ledger k db' = ledger k db
  end.
Proof.
  intros k r db t Ht. cbv zeta.
  destruct r as [now w name picture|w|now w quiz score difficulty maxScore|w l o|l];
    cbn [handle accrual_of].
  - destruct (post_users_cases now w name picture db) as [Hs Hu].
    assert (Hl : ledger k (fst (post_users now w name picture db)) = ledger k db)
      by (unfold ledger; now rewrite Hs).
    split; [|exact Hl].
    destruct Hu as [[Hu _]|[(f & Hfk & Hft & Hu & _)|(u & Hu & _)]].
    + unfold userTotal. now rewrite Hu.
    + pose proof (@userTotal_update f _ k db _ (scores db) Hfk Hu) as H.
      unfold userTotal in H |- *. cbn [users] in H. rewrite H.
      destruct (String.eqb _ k); [|exact Ht].
      unfold userTotal in Ht. destruct (find (has_wallet k) (users db)); [|discriminate].
      cbn in *. now rewrite Hft.
    + unfold userTotal in *. rewrite Hu.
      destruct (find (has_wallet k) (users db)) as [x|] eqn:Hx; [|discriminate].
      now rewrite (find_app_new _ _ _ Hx).
  - rewrite get_user_state. auto.
  - rewrite post_scores_cases. cbv zeta.
    set (m := match maxScore with Some m => m | None => 20 end).
    assert (Hno : forall resp, status resp <> 201%Z ->
              match score with
              | Some sc =>
                  if (status resp =? 201)%Z && String.eqb (Str.toLowerCase w) k
                  then Some sc else None
              | None => None
              end = None).
    { intros resp Hst. destruct score; [|reflexivity].
      apply Z.eqb_neq in Hst. now rewrite Hst. }
    destruct (validate_submission w quiz score difficulty m) as [rej|sc] eqn:Hval.
    { cbn [fst snd]. rewrite Hno; [auto|].
      rewrite (validate_rejects_400 _ _ _ _ _ Hval). discriminate. }
    destruct (validate_accepts _ _ _ _ _ Hval) as (-> & _).
    destruct (getUserByWallet w db); [|cbn; auto].
    destruct (existsb _ (scores db)); [cbn; auto|].
    destruct (find (has_wallet (Str.toLowerCase w)) (users db)) as [u|] eqn:Hfind;
      cbn [fst snd status].
    + rewrite (@userTotal_update (inc_totalScore now sc) _ k db _ _ (fun _ => eq_refl) eq_refl).
      rewrite ledger_app. cbn [Score.walletAddress score_document sd_walletAddress].
      change (201 =? 201)%Z with true. cbn [andb].
      destruct (String.eqb (Str.toLowerCase w) k) eqn:Hk.
      * split; [|eexists; split; reflexivity].
        unfold userTotal in Ht.
        destruct (find (has_wallet k) (users db)); [|discriminate].
        cbn in *. congruence.
      * auto.
    + change (500 =? 201)%Z with false. cbn [andb].
      rewrite ledger_app. cbn [Score.walletAddress score_document sd_walletAddress].
      split; [exact Ht|].
      destruct (String.eqb (Str.toLowerCase w) k) eqn:Hk; [|reflexivity].
      apply String.eqb_eq in Hk. subst k. unfold userTotal in Ht.
      rewrite Hfind in Ht. discriminate.
  - rewrite get_history_state. auto.
  - rewrite get_leaderboard_state. auto.
Qed.

(** Along any run, the total of a participant grows by the raw scores of its
    successful submissions, and its ledger by one entry for each of them. *)
Lemma run_accrued : forall tr k db t,
  userTotal k db = Some t ->
  userTotal k (run tr db) = Some (fold_left Qplus (accrued k tr db) t) /\
  map Score.score (ledger k (run tr db)) =
    (map Score.score (ledger k db) ++ accrued k tr db)%list.
Proof.
  induction tr as [|r tr IH]; intros k db t Ht; cbn [run accrued fold_left].
  - split; [exact Ht | now rewrite app_nil_r].
  - pose proof (handle_accrual k r db Ht) as Hstep. cbv zeta in Hstep.
    destruct (handle r db) as [db' resp]. cbn [fst snd] in *.
    destruct (accrual_of k r resp) as [sc|].
    + destruct Hstep as (Ht' & doc & Hl & Hsc).
      destruct (IH k db' _ Ht') as [IH1 IH2]. split; [exact IH1|].
      rewrite IH2, Hl, map_app, <- app_assoc. cbn. now rewrite Hsc.
    + destruct Hstep as (Ht' & Hl).
      destruct (IH k db' _ Ht') as [IH1 IH2]. split; [exact IH1|].
      now rewrite IH2, Hl.
Qed.

(** The history handler reports the size of the ledger of a registered
    participant. *)
Lemma get_history_total : forall k db qlimit qoffset,
  wf_key k -> registered k db ->
  exists page more,
    handle (GetHistory k qlimit qoffset) db =
      (db, Json 200 (HistoryBody page
             (mkPagination (Z.of_nat (List.length (ledger k db)))
                           (history_limit qlimit) (history_offset qoffset) more))).
Proof.
  intros k db qlimit qoffset Hwf Hreg. cbn [handle]. unfold get_history.
  rewrite (proj1 Hwf). cbn [negb]. unfold getUserByWallet.
  rewrite (wf_key_fixed Hwf).
  apply registered_find in Hreg. destruct Hreg as [u ->].
  unfold getUserScoreHistory. cbn [h_scores h_total h_hasMore].
  rewrite (proj2 Hwf). eexists. eexists. reflexivity.
Qed.

(** Nothing is ever removed: a request keeps every ledger entry and every
    registered key. *)
Lemma handle_grows : forall r db,
  (forall s, In s (scores db) -> In s (scores (fst (handle r db)))) /\
  (forall k, registered k db -> registered k (fst (handle r db))).
Proof.
  intros [now w name picture|w|now w quiz score difficulty maxScore|w l o|l] db;
    cbn [handle];
    try (rewrite ?get_user_state, ?get_history_state, ?get_leaderboard_state;
         now auto).
  - destruct (post_users_cases now w name picture db) as [Hs Hu]. split.
    + intros s. now rewrite Hs.
    + intros k Hr. unfold registered in *.
      destruct Hu as [[-> _]|[(f & Hfk & _ & -> & _)|(u & -> & _)]];
        [exact Hr | now rewrite update_keys | rewrite map_app; apply in_or_app; auto].
  - rewrite post_scores_cases. cbv zeta.
    destruct (validate_submission _ _ _ _ _); [now auto|].
    destruct (getUserByWallet w db); [|now auto].
    destruct (existsb _ (scores db)); [now auto|].
    destruct (find (has_wallet (Str.toLowerCase w)) (users db)); cbn [fst scores users];
      (split; [intros s Hs; apply in_or_app; now left|]); [|now auto].
    intros k Hr. unfold registered in *. cbn [users].
    now rewrite update_keys.
Qed.

Lemma run_grows : forall tr db,
  (forall s, In s (scores db) -> In s (scores (run tr db))) /\
  (forall k, registered k db -> registered k (run tr db)).
Proof.
  induction tr as [|r tr IH]; intros db; cbn [run]; [now auto|].
  destruct (handle_grows r db) as [H1 H2].
  destruct (IH (fst (handle r db))) as [IH1 IH2]. split; auto.
Qed.

(** ** Properties of the submission and aggregation logic *)

(** C1.  A participant is created by a profile request answered 201, with
    total score 0.  Whatever requests are served afterwards, the N of them
    that are successful submissions of that participant (each on a quiz of
    its own, since a repeated quiz is refused) carry raw scores s1..sN, and
    then the participant's total score is 0 + s1 + ... + sN, its ledger has N
    entries, and the history handler reports a total of N. *)
Theorem C1_total_is_sum_of_submitted_scores :
  forall db0 now w name picture db1 msg u,
    reachable db0 ->
    handle (PostUsers now w name picture) db0 = (db1, Json 201 (UserBody msg u)) ->
    forall tr,
      let k := User.walletAddress u in
      let ss := accrued k tr db1 in
      let db2 := run tr db1 in
      userTotal k db1 = Some 0 /\
      userTotal k db2 = Some (fold_left Qplus ss 0) /\
      map Score.score (ledger k db2) = ss /\
      forall qlimit qoffset, exists page more,
        handle (GetHistory k qlimit qoffset) db2 =
          (db2, Json 200 (HistoryBody page
                  (mkPagination (Z.of_nat (List.length ss))
                                (history_limit qlimit) (history_offset qoffset)
                                more))).
Proof.
  intros db0 now w name picture db1 msg u Hreach Hcreate tr k ss db2.
  cbn [handle] in Hcreate.
  destruct (post_users_cases now w name picture db0) as [Hs Hu].
  rewrite Hcreate in Hs, Hu. cbn [fst snd status] in Hs, Hu.
  destruct Hu as [[_ Hc]|[(f & _ & _ & _ & Hc)|(u' & Hus & Hfree & Hv & Hw & Ht & Hr)]];
    try (now exfalso; apply Hc).
  injection Hr as _ <-. fold k in Hfree, Hw.
  assert (Hwf : wf_key k) by (rewrite Hw; apply (valid_wallet_key _ Hv)).
  assert (Ht1 : userTotal k db1 = Some 0).
  { unfold userTotal. rewrite Hus.
    assert (Hfind : forall l, find (has_wallet k) l = None ->
              find (has_wallet k) (l ++ [u]) = Some u).
    { induction l as [|x l IH]; cbn.
      - unfold has_wallet, k. now rewrite String.eqb_refl.
      - destruct (has_wallet k x); [discriminate | exact IH]. }
    rewrite (Hfind _ Hfree). cbn. now rewrite Ht. }
  assert (Hfresh : ledger k db1 = []).
  { unfold ledger. rewrite Hs.
    destruct (filter (has_score_wallet k) (scores db0)) as [|s l] eqn:Hf; [reflexivity|].
    exfalso.
    assert (Hin : In s (filter (has_score_wallet k) (scores db0)))
      by (rewrite Hf; now left).
    apply filter_In in Hin. destruct Hin as [Hin Hk].
    apply String.eqb_eq in Hk.
    pose proof (inv_owned (reachable_Inv Hreach) s Hin) as Hown.
    rewrite Hk in Hown. specialize (Hown (proj1 Hwf)).
    apply registered_find in Hown. destruct Hown as [x Hx]. congruence. }
  destruct (run_accrued tr k db1 Ht1) as [Htot Hled].
  rewrite Hfresh in Hled. cbn [map app] in Hled.
  repeat split; [exact Ht1 | exact Htot | exact Hled |].
  intros qlimit qoffset.
  assert (Hreg : registered k db2).
  { apply registered_total. eexists. exact Htot. }
  destruct (@get_history_total k db2 qlimit qoffset Hwf Hreg) as (page & more & Hh).
  exists page, more. rewrite Hh.
  replace (List.length (ledger k db2)) with (List.length ss); [reflexivity|].
  unfold ss, db2. now rewrite <- Hled, length_map.
Qed.

Lemma C1_witness :
  handle (PostUsers 1000 alice "Alice" None) empty_db
    = (db_alice, Json 201 (UserBody "User created successfully" alice_user)) /\
  accrued alice_key sample_trace db_alice = [18; 10] /\
  userTotal alice_key (run sample_trace db_alice) = Some (0 + 18 + 10) /\
  map Score.score (ledger alice_key (run sample_trace db_alice)) = [18; 10].
Proof.
  assert (Hc : handle (PostUsers 1000 alice "Alice" None) empty_db
    = (db_alice, Json 201 (UserBody "User created successfully" alice_user)))
    by reflexivity.
  pose proof (@C1_total_is_sum_of_submitted_scores
                empty_db 1000 alice "Alice" None db_alice _ alice_user
                reachable_init Hc sample_trace)
    as (_ & Htot & Hled & _).
  split; [exact Hc|]. split; [reflexivity|].
  split; [exact Htot | exact Hled].
Defined.

(** C2.  Once a submission for (identifier, quizId) has been answered 201,
    the total score is the one its receipt reported, and, whatever is served
    afterwards, submitting the same body again is answered 409 with the
    duplicate-attempt message and leaves the whole store, hence the total
    score, as it was.  The same holds for any later body for the same pair
    (the identifier compared without regard to case) that passes the input
    checks of the handler. *)
Theorem C2_resubmission_is_refused :
  forall db0 now1 w1 quiz score1 difficulty1 maxScore1 db1 msg receipt,
    handle (PostScores now1 w1 quiz score1 difficulty1 maxScore1) db0
      = (db1, Json 201 (ScoreBody msg receipt)) ->
    userTotal (Str.toLowerCase w1) db1 = Some (r_newTotalScore receipt) /\
    forall tr,
      let db2 := run tr db1 in
      (forall now2,
         handle (PostScores now2 w1 quiz score1 difficulty1 maxScore1) db2
           = (db2, Json 409 (Failure "Quiz already completed by this user"))) /\
      (forall now2 w2 score2 difficulty2 maxScore2 sc2,
         Str.toLowerCase w2 = Str.toLowerCase w1 ->
         validate_submission w2 quiz score2 difficulty2
           (match maxScore2 with Some m => m | None => 20 end) = inr sc2 ->
         handle (PostScores now2 w2 quiz score2 difficulty2 maxScore2) db2
           = (db2, Json 409 (Failure "Quiz already completed by this user"))).
Proof.
  intros db0 now1 w1 quiz score1 difficulty1 maxScore1 db1 msg receipt Hfirst.
  assert (Hdb : fst (handle (PostScores now1 w1 quiz score1 difficulty1 maxScore1) db0)
                = db1) by now rewrite Hfirst.
  cbn [handle] in Hfirst. rewrite post_scores_cases in Hfirst. cbv zeta in Hfirst.
  set (m1 := match maxScore1 with Some m => m | None => 20 end) in *.
  destruct (validate_submission w1 quiz score1 difficulty1 m1) as [rej|sc1] eqn:Hval1.
  { injection Hfirst as _ Hr. apply validate_rejects_400 in Hval1.
    rewrite Hr in Hval1. discriminate. }
  destruct (getUserByWallet w1 db0) as [found|] eqn:Hget; [|discriminate].
  destruct (existsb _ (scores db0)); [discriminate|].
  destruct (find (has_wallet (Str.toLowerCase w1)) (users db0)) as [u|] eqn:Hfind;
    [|discriminate].
  injection Hfirst as Hdb1 _ Hrec.
  set (doc1 := score_document now1
                 (mkScoreData w1 quiz sc1 (Str.toLowerCase difficulty1) m1)) in *.
  assert (Hin1 : In doc1 (scores db1)).
  { rewrite <- Hdb1. cbn [scores]. apply in_or_app. right. now left. }
  assert (Hreg1 : registered (Str.trim (Str.toLowerCase w1)) db1).
  { rewrite <- Hdb. apply handle_grows. apply registered_find. eauto. }
  split.
  { (* the total after the first call *)
    rewrite <- Hdb1, <- Hrec.
    rewrite (@userTotal_update (inc_totalScore now1 sc1) _ (Str.toLowerCase w1) db0
               _ _ (fun _ => eq_refl) eq_refl).
    rewrite String.eqb_refl, Hfind. reflexivity. }
  intros tr db2.
  assert (Hany : forall now2 w2 score2 difficulty2 maxScore2 sc2,
    Str.toLowerCase w2 = Str.toLowerCase w1 ->
    validate_submission w2 quiz score2 difficulty2
      (match maxScore2 with Some m => m | None => 20 end) = inr sc2 ->
    handle (PostScores now2 w2 quiz score2 difficulty2 maxScore2) db2
      = (db2, Json 409 (Failure "Quiz already completed by this user"))).
  { intros now2 w2 score2 difficulty2 maxScore2 sc2 Hw Hval.
    cbn [handle]. rewrite post_scores_cases. cbv zeta. rewrite Hval.
    destruct (run_grows tr db1) as [Hkeep Hregs]. fold db2 in Hkeep, Hregs.
    apply Hregs in Hreg1. apply registered_find in Hreg1. destruct Hreg1 as [x Hx].
    unfold getUserByWallet. rewrite Hw, Hx.
    assert (Hdup : existsb
              (same_attempt
                 (score_document now2
                    (mkScoreData w2 quiz sc2 (Str.toLowerCase difficulty2)
                       (match maxScore2 with Some m => m | None => 20 end))))
              (scores db2) = true).
    { apply existsb_exists. exists doc1. split; [now apply Hkeep|].
      unfold same_attempt, has_score_wallet. cbn.
      now rewrite Hw, !String.eqb_refl. }
    now rewrite Hdup. }
  split; [|exact Hany].
  intros now2. exact (Hany now2 w1 score1 difficulty1 maxScore1 sc1 eq_refl Hval1).
Qed.

Lemma C2_witness :
  let db1 := fst (handle (PostScores 2000 alice "q1" (Some 18) "medium" (Some 20))
                         db_alice) in
  let db2 := run [PostUsers 2100 alice "Alice B" None] db1 in
  userTotal alice_key db1 = Some (0 + 18) /\
  handle (PostScores 2500 alice "q1" (Some 18) "medium" (Some 20)) db2
    = (db2, Json 409 (Failure "Quiz already completed by this user")) /\
  handle (PostScores 2500 alice_key "q1" (Some 5) "hard" (Some 10)) db2
    = (db2, Json 409 (Failure "Quiz already completed by this user")).
Proof.
  cbv zeta.
  destruct (@C2_resubmission_is_refused
              db_alice 2000 alice "q1" (Some 18) "medium" (Some 20) _ _ _ eq_refl)
    as [Htotal Hlater].
  destruct (Hlater [PostUsers 2100 alice "Alice B" None]) as [Hsame Hany].
  split; [exact Htotal|]. split; [exact (Hsame 2500%Z)|].
  exact (Hany 2500%Z alice_key (Some 5) "hard" (Some 10) 5 eq_refl eq_refl).
Defined.

Lemma or_else_nonzero : forall m d, ~ (d == 0)%Q -> ~ (JS.or_else m d == 0)%Q.
Proof.
  intros m d Hd. unfold JS.or_else, JS.truthy.
  destruct (Qeq_bool m 0) eqn:Hm; cbn [negb]; [exact Hd|].
  now apply Qeq_bool_neq.
Qed.

Lemma or_else_truthy : forall m d, ~ (m == 0)%Q -> JS.or_else m d = m.
Proof.
  intros m d Hm. unfold JS.or_else, JS.truthy.
  destruct (Qeq_bool m 0) eqn:H; [|reflexivity].
  apply Qeq_bool_iff in H. contradiction.
Qed.

Lemma div_finite : forall x y, ~ (y == 0)%Q -> JS.div (JS.Fin x) (JS.Fin y) = JS.Fin (x / y).
Proof.
  intros x y Hy. unfold JS.div, JS.Qsign.
  destruct (0 ?= y)%Q eqn:Hc; try reflexivity.
  apply Qeq_alt in Hc. exfalso. apply Hy. now symmetry.
Qed.

Lemma spec_percentage_finite : forall x y,
  ~ (y == 0)%Q -> spec_percentage x y = JS.Fin (x / y * 100).
Proof.
  intros x y Hy. unfold spec_percentage. now rewrite (div_finite x Hy).
Qed.

(** A submission answered 201 appended the document of [createScore] to the
    ledger and reported the receipt computed from it. *)
Lemma post_scores_created : forall now w quiz score difficulty maxScore db db' msg receipt,
  handle (PostScores now w quiz score difficulty maxScore) db
    = (db', Json 201 (ScoreBody msg receipt)) ->
  let m := match maxScore with Some m => m | None => 20 end in
  exists sc u,
    validate_submission w quiz score difficulty m = inr sc /\
    find (has_wallet (Str.toLowerCase w)) (users db) = Some u /\
    let doc := score_document now
                 (mkScoreData w quiz sc (Str.toLowerCase difficulty) m) in
    scores db' = (scores db ++ [doc])%list /\
    users db' = fst (findOneAndUpdate (has_wallet (Str.toLowerCase w))
                       (inc_totalScore now sc) (users db)) /\
    receipt = receipt_of doc u.
Proof.
  intros now w quiz score difficulty maxScore db db' msg receipt H m.
  cbn [handle] in H. rewrite post_scores_cases in H. cbv zeta in H. fold m in H.
  destruct (validate_submission w quiz score difficulty m) as [rej|sc] eqn:Hval.
  { injection H as _ Hr. apply validate_rejects_400 in Hval.
    rewrite Hr in Hval. discriminate. }
  destruct (getUserByWallet w db); [|discriminate].
  destruct (existsb _ (scores db)); [discriminate|].
  destruct (find (has_wallet (Str.toLowerCase w)) (users db)) as [u|]; [|discriminate].
  injection H as <- _ <-. exists sc, u. cbn. auto.
Qed.

(** C3 (amended).  For every submission answered 201, the ledger entry it
    appended stores percentage = rawScore / m x 100, where m is the maxScore
    of the request, or 20 when that maxScore is 0; so it is
    rawScore / maxScore x 100 whenever maxScore is not 0.  The percentage is
    a finite number q, and eligibleForReward is true exactly when 70 <= q. *)
Theorem C3_percentage_and_eligibility :
  forall now w quiz score difficulty maxScore db db' msg receipt,
    handle (PostScores now w quiz score difficulty maxScore) db
      = (db', Json 201 (ScoreBody msg receipt)) ->
    let m := match maxScore with Some m => m | None => 20 end in
    exists sc doc q,
      score = Some sc /\
      scores db' = (scores db ++ [doc])%list /\
      Score.score doc = sc /\
      Score.percentage doc = spec_percentage sc (JS.or_else m 20) /\
      (~ (m == 0)%Q -> Score.percentage doc = spec_percentage sc m) /\
      Score.percentage doc = JS.Fin q /\
      (q == sc / JS.or_else m 20 * 100)%Q /\
      (r_eligibleForReward receipt = true <-> (70 <= q)%Q).
Proof.
  intros now w quiz score difficulty maxScore db db' msg receipt H m.
  destruct (post_scores_created _ _ _ _ _ _ _ H) as (sc & u & Hval & _ & Hs & _ & Hr).
  fold m in Hval, Hs, Hr.
  destruct (validate_accepts _ _ _ _ _ Hval) as (Hscore & _).
  assert (Hnz : ~ (JS.or_else m 20 == 0)%Q) by (apply or_else_nonzero; discriminate).
  eexists sc, _, (sc / JS.or_else m 20 * 100)%Q.
  split; [exact Hscore|]. split; [exact Hs|]. split; [reflexivity|].
  split; [reflexivity|]. split.
  { intros Hm. cbn [Score.percentage score_document sd_score sd_maxScore].
    now rewrite (or_else_truthy 20 Hm). }
  split.
  { cbn [Score.percentage score_document sd_score sd_maxScore].
    apply (spec_percentage_finite sc Hnz). }
  split; [reflexivity|].
  rewrite Hr. unfold receipt_of. cbn [r_eligibleForReward].
  cbn [Score.percentage score_document sd_score sd_maxScore].
  fold (spec_percentage sc (JS.or_else m 20)).
  rewrite (spec_percentage_finite sc Hnz). cbn [JS.ge].
  apply Qle_bool_iff.
Qed.

Lemma C3_witness :
  exists doc q,
    scores (fst (handle (PostScores 2000 alice "q1" (Some 18) "medium" (Some 20))
                        db_alice)) = [doc] /\
    Score.percentage doc = JS.Fin q /\ (q == 90)%Q.
Proof.
  destruct (@C3_percentage_and_eligibility
              2000 alice "q1" (Some 18) "medium" (Some 20) db_alice _ _ _ eq_refl)
    as (sc & doc & q & Hsc & Hs & _ & _ & _ & Hq & Hv & _).
  exists doc, q. injection Hsc as <-.
  split; [exact Hs|]. split; [exact Hq|]. rewrite Hv. reflexivity.
Defined.

(** C3 as the specification states it fails when maxScore is 0: the
    submission of score 0 out of 0 is answered 201 and stores the percentage
    0 / 20 x 100, whereas 0 / 0 x 100 is not a number. *)
Lemma C3_counterexample :
  let served := handle (PostScores 2000 alice "q0" (Some 0) "easy" (Some 0)) db_alice in
  status (snd served) = 201%Z /\
  map Score.percentage (scores (fst served)) = [JS.Fin (0 / 20 * 100)] /\
  spec_percentage 0 0 = JS.NaN /\
  JS.Fin (0 / 20 * 100) <> spec_percentage 0 0.
Proof.
  cbv zeta. repeat split. discriminate.
Qed.

Lemma Math_round_nearest : forall q,
  exists n : Z,
    JS.Math_round (JS.Fin q) = JS.of_Z n /\
    (inject_Z n - (1 # 2) <= q)%Q /\ (q < inject_Z n + (1 # 2))%Q.
Proof.
  intros q. exists (Qfloor (q + (1 # 2))). split; [reflexivity|].
  pose proof (Qfloor_le (q + (1 # 2))) as Hlo.
  pose proof (Qlt_floor (q + (1 # 2))) as Hhi.
  rewrite inject_Z_plus in Hhi. change (inject_Z 1) with 1%Q in Hhi.
  split; lra.
Qed.

(** C10.  For every submission answered 201 the ledger entry stores the
    unrounded value score / maxScore x 100 of its own fields, a rational q;
    the receipt reports [Math.round] of it, the integer n with
    n - 1/2 <= q < n + 1/2; and eligibleForReward compares the unrounded q
    with 70.  So a receipt can show percentage 70 with eligibleForReward
    false: the score 13.9 out of 20 stores 69.5 and is answered that way. *)
Theorem C10_rounded_percentage_unrounded_eligibility :
  (forall now w quiz score difficulty maxScore db db' msg receipt,
     handle (PostScores now w quiz score difficulty maxScore) db
       = (db', Json 201 (ScoreBody msg receipt)) ->
     exists doc q n,
       scores db' = (scores db ++ [doc])%list /\
       Score.percentage doc = spec_percentage (Score.score doc) (Score.maxScore doc) /\
       Score.percentage doc = JS.Fin q /\
       r_percentage receipt = JS.of_Z n /\
       (inject_Z n - (1 # 2) <= q)%Q /\ (q < inject_Z n + (1 # 2))%Q /\
       (r_eligibleForReward receipt = true <-> (70 <= q)%Q))
  /\
  (let served :=
     handle (PostScores 2000 alice "q7" (Some (139 # 10)) "hard" (Some 20)) db_alice in
   snd served =
     Json 201 (ScoreBody "Score submitted successfully"
                 (mkReceipt (139 # 10) 20 (JS.Fin 70) "hard" (0 + (139 # 10)) false 2000))
   /\ exists q, map Score.percentage (scores (fst served)) = [JS.Fin q]
                /\ (q == 139 # 2)%Q).
Proof.
  split.
  - intros now w quiz score difficulty maxScore db db' msg receipt H.
    destruct (post_scores_created _ _ _ _ _ _ _ H) as (sc & u & _ & _ & Hs & _ & Hr).
    cbv zeta in Hs, Hr.
    set (m := match maxScore with Some m => m | None => 20 end) in *.
    set (doc := score_document now
                  (mkScoreData w quiz sc (Str.toLowerCase difficulty) m)) in *.
    assert (Hnz : ~ (JS.or_else m 20 == 0)%Q) by (apply or_else_nonzero; discriminate).
    assert (Hq : Score.percentage doc = JS.Fin (sc / JS.or_else m 20 * 100)).
    { apply (spec_percentage_finite sc Hnz). }
    destruct (Math_round_nearest (sc / JS.or_else m 20 * 100)) as (n & Hn & Hlo & Hhi).
    exists doc, (sc / JS.or_else m 20 * 100)%Q, n.
    split; [exact Hs|]. split; [reflexivity|]. split; [exact Hq|].
    rewrite Hr. unfold receipt_of. cbn [r_percentage r_eligibleForReward].
    rewrite Hq. split; [exact Hn|]. split; [exact Hlo|]. split; [exact Hhi|].
    cbn [JS.ge]. apply Qle_bool_iff.
  - cbv zeta. split; [reflexivity|]. eexists. split; reflexivity.
Qed.

Lemma C10_witness :
  exists doc q n,
    scores (fst (handle (PostScores 2000 alice "q7" (Some (139 # 10)) "hard" (Some 20))
                        db_alice)) = [doc] /\
    Score.percentage doc = JS.Fin q /\
    (inject_Z n - (1 # 2) <= q)%Q /\ (q < inject_Z n + (1 # 2))%Q.
Proof.
  destruct (proj1 C10_rounded_percentage_unrounded_eligibility
              2000%Z alice "q7"%string (Some (139 # 10)) "hard"%string (Some 20%Q)
              db_alice _ _ _ eq_refl)
    as (doc & q & n & Hs & _ & Hq & _ & Hlo & Hhi & _).
  exists doc, q, n. auto.
Defined.

Lemma percentage_in_range : forall sc m,
  (0 <= sc)%Q -> (sc <= m)%Q ->
  (0 <= sc / JS.or_else m 20 * 100)%Q /\ (sc / JS.or_else m 20 * 100 <= 100)%Q.
Proof.
  intros sc m Hlo Hhi. unfold JS.or_else, JS.truthy.
  destruct (Qeq_bool m 0) eqn:Hm; cbn [negb].
  - apply Qeq_bool_iff in Hm.
    assert (Hsc : (sc == 0)%Q) by lra.
    rewrite Hsc. split; vm_compute; discriminate.
  - apply Qeq_bool_neq in Hm.
    assert (Hpos : (0 < m)%Q) by lra.
    assert (H0 : (0 <= sc / m)%Q) by (apply Qle_shift_div_l; [exact Hpos | lra]).
    assert (H1 : (sc / m <= 1)%Q) by (apply Qle_shift_div_r; [exact Hpos | lra]).
    split; lra.
Qed.

(** C9 (amended).  The submission handler does not require a positive
    maxScore: a body with score 0 and maxScore 0 passes its checks.
    [createScore] then stores [maxScore || 20], that is 20, and divides by it:
    the percentage of that entry is 0 / 20 x 100 = 0.  For every submission
    answered 201 the stored percentage is a finite number between 0 and
    100. *)
Theorem C9_zero_maxScore_is_replaced_by_default :
  (forall w quiz difficulty,
     Str.truthy w = true -> Str.truthy quiz = true ->
     existsb (String.eqb (Str.toLowerCase difficulty)) validDifficulties = true ->
     validate_submission w quiz (Some 0) difficulty 0 = inr 0)
  /\
  (forall now w quiz difficulty,
     let doc := score_document now (mkScoreData w quiz 0 difficulty 0) in
     Score.maxScore doc = 20 /\ Score.percentage doc = JS.Fin (0 / 20 * 100))
  /\
  (forall now w quiz score difficulty maxScore db db' msg receipt,
     handle (PostScores now w quiz score difficulty maxScore) db
       = (db', Json 201 (ScoreBody msg receipt)) ->
     exists doc q,
       scores db' = (scores db ++ [doc])%list /\
       Score.percentage doc = JS.Fin q /\ (0 <= q)%Q /\ (q <= 100)%Q).
Proof.
  split; [|split].
  - intros w quiz difficulty Hw Hq Hd. unfold validate_submission.
    rewrite Hw, Hq, Hd. cbn [negb orb].
    destruct difficulty as [|c d]; [discriminate Hd | reflexivity].
  - intros. cbv zeta. split; reflexivity.
  - intros now w quiz score difficulty maxScore db db' msg receipt H.
    destruct (post_scores_created _ _ _ _ _ _ _ H) as (sc & u & Hval & _ & Hs & _).
    cbv zeta in Hs, Hval.
    set (m := match maxScore with Some m => m | None => 20 end) in *.
    destruct (validate_accepts _ _ _ _ _ Hval) as (_ & Hlo & Hhi & _).
    assert (Hnz : ~ (JS.or_else m 20 == 0)%Q) by (apply or_else_nonzero; discriminate).
    destruct (percentage_in_range Hlo Hhi) as [H0 H100].
    eexists. exists (sc / JS.or_else m 20 * 100)%Q.
    split; [exact Hs|]. split; [|split; assumption].
    apply (spec_percentage_finite sc Hnz).
Qed.

Lemma C9_witness :
  validate_submission alice "q9" (Some 0) "easy" 0 = inr 0 /\
  exists doc q,
    scores (fst (handle (PostScores 2000 alice "q9" (Some 0) "easy" (Some 0)) db_alice))
      = [doc] /\
    Score.percentage doc = JS.Fin q /\ (0 <= q)%Q /\ (q <= 100)%Q.
Proof.
  split.
  - apply (proj1 C9_zero_maxScore_is_replaced_by_default); reflexivity.
  - apply (proj2 (proj2 C9_zero_maxScore_is_replaced_by_default)
             2000%Z alice "q9"%string (Some 0%Q) "easy"%string (Some 0%Q)
             db_alice _ _ _ eq_refl).
Defined.

(** C9 as the specification states it fails: the submission of score 0 with
    maxScore 0 is answered 201 and the percentage it stores is the number 0,
    in [0,100] and not [NaN]; the entry records maxScore 20. *)
Lemma C9_counterexample :
  let served := handle (PostScores 2000 alice "q9" (Some 0) "easy" (Some 0)) db_alice in
  status (snd served) = 201%Z /\
  map Score.maxScore (scores (fst served)) = [20] /\
  exists q, map Score.percentage (scores (fst served)) = [JS.Fin q] /\
            (q == 0)%Q /\ JS.is_NaN (JS.Fin q) = false.
Proof.
  cbv zeta. split; [reflexivity|]. split; [reflexivity|].
  eexists. split; [reflexivity|]. split; reflexivity.
Qed.

Lemma find_app_none : forall (q : User.t -> bool) l u,
  find q l = None -> find q (l ++ [u]) = if q u then Some u else None.
Proof.
  intros q. induction l as [|x l IH]; intros u; cbn; [reflexivity|].
  destruct (q x); [discriminate | apply IH].
Qed.

(** Only a validated, hence non-negative, raw score is ever accrued. *)
Lemma accrual_nonneg : forall k r db sc,
  accrual_of k r (snd (handle r db)) = Some sc -> (0 <= sc)%Q.
Proof.
  intros k r db sc.
  destruct r as [now w name picture|w|now w quiz score difficulty maxScore|w l o|l];
    cbn [accrual_of]; try discriminate.
  destruct score as [sc'|]; [|discriminate].
  destruct ((status (snd (handle (PostScores now w quiz (Some sc') difficulty maxScore) db))
             =? 201)%Z) eqn:Hst; [|discriminate].
  cbn [andb]. destruct (String.eqb (Str.toLowerCase w) k); [|discriminate].
  intros [= <-]. cbn [handle] in Hst. rewrite post_scores_cases in Hst. cbv zeta in Hst.
  destruct (validate_submission _ _ _ _ _) as [rej|sc] eqn:Hval.
  - cbn [snd] in Hst. rewrite (validate_rejects_400 _ _ _ _ _ Hval) in Hst. discriminate.
  - destruct (validate_accepts _ _ _ _ _ Hval) as (Hs & Hlo & _).
    injection Hs as ->. exact Hlo.
Qed.

(** A key that is not registered stays so, or is registered with total 0 by
    a profile request, which leaves the ledger alone. *)
Lemma handle_creates_at_zero : forall r k db,
  userTotal k db = None ->
  userTotal k (fst (handle r db)) = None \/
  (userTotal k (fst (handle r db)) = Some 0 /\ wf_key k /\
   scores (fst (handle r db)) = scores db).
Proof.
  intros r k db Hnone.
  assert (Hfind : find (has_wallet k) (users db) = None).
  { unfold userTotal in Hnone. now destruct (find (has_wallet k) (users db)). }
  destruct r as [now w name picture|w|now w quiz score difficulty maxScore|w l o|l];
    cbn [handle];
    try (rewrite ?get_user_state, ?get_history_state, ?get_leaderboard_state;
         now left).
  - destruct (post_users_cases now w name picture db) as [Hs Hu].
    destruct Hu as [[Hu _]|[(f & Hfk & _ & Hu & _)|(u & Hu & _ & Hv & Hw & Ht & _)]].
    + left. unfold userTotal. now rewrite Hu.
    + left. pose proof (@userTotal_update f _ k db _ (scores db) Hfk Hu) as H.
      unfold userTotal in H |- *. cbn [users] in H. rewrite H, Hfind.
      now destruct (String.eqb _ k).
    + unfold userTotal. rewrite Hu, (find_app_none _ _ u Hfind).
      destruct (has_wallet k u) eqn:Hk; [right | now left].
      split; [cbn; now rewrite Ht|]. split; [|exact Hs].
      apply String.eqb_eq in Hk. rewrite <- Hk, Hw. apply (valid_wallet_key _ Hv).
  - left. rewrite post_scores_cases. cbv zeta.
    destruct (validate_submission _ _ _ _ _) as [rej|sc]; [exact Hnone|].
    destruct (getUserByWallet w db); [|exact Hnone].
    destruct (existsb _ (scores db)); [exact Hnone|].
    destruct (find (has_wallet (Str.toLowerCase w)) (users db)); cbn [fst];
      [|exact Hnone].
    rewrite (@userTotal_update (inc_totalScore now sc) _ k db _ _ (fun _ => eq_refl)
               eq_refl).
    rewrite Hfind. now destruct (String.eqb _ k).
Qed.

(** The ledger of a well-formed key that has no profile is empty. *)
Lemma unregistered_ledger_empty : forall k db,
  Inv db -> wf_key k -> userTotal k db = None -> ledger k db = [].
Proof.
  intros k db HI Hwf Hnone. unfold ledger.
  destruct (filter (has_score_wallet k) (scores db)) as [|s l] eqn:Hf; [reflexivity|].
  exfalso.
  assert (Hin : In s (filter (has_score_wallet k) (scores db)))
    by (rewrite Hf; now left).
  apply filter_In in Hin. destruct Hin as [Hin Hk].
  apply String.eqb_eq in Hk.
  pose proof (inv_owned HI s Hin) as Hown.
  rewrite Hk in Hown. specialize (Hown (proj1 Hwf)).
  apply registered_total in Hown. destruct Hown as [x Hx]. congruence.
Qed.

(** In every reachable state the total score of a participant is the sum of
    the raw scores of its ledger entries, added in the order of insertion. *)
Lemma reachable_total_is_ledger_sum : forall db,
  reachable db ->
  forall k t, userTotal k db = Some t ->
    t = fold_left Qplus (map Score.score (ledger k db)) 0.
Proof.
  induction 1 as [|db r Hreach IH]; intros k t Ht; [discriminate|].
  destruct (userTotal k db) as [t0|] eqn:Ht0.
  - pose proof (handle_accrual k r db Ht0) as Hstep. cbv zeta in Hstep.
    destruct (accrual_of k r (snd (handle r db))) as [sc|].
    + destruct Hstep as (Ht' & doc & Hl & Hsc).
      rewrite Hl, map_app, fold_left_app, <- (IH k t0 Ht0). cbn.
      rewrite Hsc. congruence.
    + destruct Hstep as (Ht' & Hl). rewrite Hl, <- (IH k t0 Ht0). congruence.
  - destruct (handle_creates_at_zero r k db Ht0) as [Hn|(Hz & Hwf & Hs)];
      [congruence|].
    unfold ledger. rewrite Hs. fold (ledger k db).
    rewrite (unregistered_ledger_empty (reachable_Inv Hreach) Hwf Ht0).
    cbn. congruence.
Qed.

(** C6.  In every reachable state each participant's total score is
    non-negative.  A request never lowers the total of a registered
    participant: it leaves it as it is, or adds to it the raw score, itself
    non-negative, of a submission of that participant that it answered 201.
    A participant that a request creates starts with total score 0. *)
Theorem C6_total_score_nonnegative_never_decreases :
  forall db, reachable db ->
    (forall u, In u (users db) -> (0 <= User.totalScore u)%Q)
    /\
    (forall r k t,
       userTotal k db = Some t ->
       exists t',
         userTotal k (fst (handle r db)) = Some t' /\ (t <= t')%Q /\
         (t' = t \/ exists sc, accrual_of k r (snd (handle r db)) = Some sc /\
                               (0 <= sc)%Q /\ t' = (t + sc)%Q))
    /\
    (forall r k,
       userTotal k db = None ->
       userTotal k (fst (handle r db)) = None \/
       userTotal k (fst (handle r db)) = Some 0).
Proof.
  intros db Hreach. split; [|split].
  - intros u Hin. pose proof (inv_nonneg (reachable_Inv Hreach)) as Hn.
    rewrite Forall_forall in Hn. now apply Hn.
  - intros r k t Ht. pose proof (handle_accrual k r db Ht) as Hstep. cbv zeta in Hstep.
    destruct (accrual_of k r (snd (handle r db))) as [sc|] eqn:Hacc.
    + destruct Hstep as [Ht' _]. pose proof (accrual_nonneg k r db Hacc) as Hsc.
      exists (t + sc)%Q. split; [exact Ht'|]. split; [lra|].
      right. exists sc. auto.
    + destruct Hstep as [Ht' _]. exists t. split; [exact Ht'|].
      split; [apply Qle_refl | now left].
  - intros r k Hnone.
    destruct (handle_creates_at_zero r k db Hnone) as [Hn|(Hz & _)]; auto.
Qed.

Lemma C6_witness :
  (forall u, In u (users (run sample_trace db_alice)) -> (0 <= User.totalScore u)%Q) /\
  exists t',
    userTotal alice_key
      (fst (handle (PostScores 2000 alice "q1" (Some 18) "medium" (Some 20)) db_alice))
      = Some t' /\ (0 <= t')%Q.
Proof.
  assert (Hr : reachable db_alice).
  { exact (reachable_step (PostUsers 1000 alice "Alice" None) reachable_init). }
  split.
  - exact (proj1 (C6_total_score_nonnegative_never_decreases
                    (reachable_run sample_trace Hr))).
  - destruct (proj1 (proj2 (C6_total_score_nonnegative_never_decreases Hr))
                (PostScores 2000 alice "q1" (Some 18) "medium" (Some 20))
                alice_key 0 eq_refl) as (t' & Ht' & Hle & _).
    exists t'. split; [exact Ht' | exact Hle].
Defined.

(** ** Sorting *)

Section SortFacts.

Variable A : Type.

Variable before : A -> A -> bool.

Hypothesis before_total : forall x y, before x y = false -> before y x = true.

Hypothesis before_trans :
  forall x y z, before x y = true -> before y z = true -> before x z = true.

Let R (x y : A) : Prop := before x y = true.

Lemma insert_by_perm : forall x l, Permutation (insert_by before x l) (x :: l).
Proof.
  intros x. induction l as [|y l IH]; cbn; [reflexivity|].
  destruct (before x y); [reflexivity|].
  rewrite IH. apply perm_swap.
Qed.

Lemma sort_by_perm : forall l, Permutation (sort_by before l) l.
Proof.
  induction l as [|x l IH]; cbn; [reflexivity|].
  fold (sort_by before l). rewrite insert_by_perm. now constructor.
Qed.

Lemma insert_by_sorted : forall x l,
  StronglySorted R l -> StronglySorted R (insert_by before x l).
Proof.
  intros x l Hl. induction Hl as [|y l Hl IH Hy]; cbn.
  - repeat constructor.
  - destruct (before x y) eqn:Hxy.
    + constructor; [now constructor|]. constructor; [exact Hxy|].
      rewrite Forall_forall in Hy |- *. intros z Hz.
      apply (before_trans Hxy). now apply Hy.
    + constructor; [exact IH|].
      rewrite Forall_forall in Hy |- *. intros z Hz.
      apply (Permutation_in _ (insert_by_perm x l)) in Hz.
      destruct Hz as [<-|Hz]; [now apply before_total | now apply Hy].
Qed.

Lemma sort_by_sorted : forall l, StronglySorted R (sort_by before l).
Proof.
  induction l as [|x l IH]; cbn; [constructor|].
  now apply insert_by_sorted.
Qed.

End SortFacts.

Lemma In_firstn : forall (A : Type) n (l : list A) x, In x (firstn n l) -> In x l.
Proof.
  intros A n l x H. rewrite <- (firstn_skipn n l). apply in_or_app. now left.
Qed.

Lemma In_skipn : forall (A : Type) n (l : list A) x, In x (skipn n l) -> In x l.
Proof.
  intros A n l x H. rewrite <- (firstn_skipn n l). apply in_or_app. now right.
Qed.

Lemma StronglySorted_firstn : forall (A : Type) (R : A -> A -> Prop) n l,
  StronglySorted R l -> StronglySorted R (firstn n l).
Proof.
  intros A R n. induction n as [|n IH]; intros l Hl; cbn; [constructor|].
  destruct l as [|x l]; [constructor|].
  apply StronglySorted_inv in Hl. destruct Hl as [Hl Hx].
  constructor; [now apply IH|].
  rewrite Forall_forall in Hx |- *. intros y Hy. apply Hx.
  now apply (@In_firstn _ n).
Qed.

Lemma StronglySorted_skipn : forall (A : Type) (R : A -> A -> Prop) n l,
  StronglySorted R l -> StronglySorted R (skipn n l).
Proof.
  intros A R n. induction n as [|n IH]; intros l Hl; cbn; [exact Hl|].
  destruct l as [|x l]; [constructor|].
  apply StronglySorted_inv in Hl. now apply IH.
Qed.


Lemma newer_first_total : forall a b, newer_first a b = false -> newer_first b a = true.
Proof. unfold newer_first. intros a b H. apply Z.leb_gt in H. apply Z.leb_le. lia. Qed.

Lemma newer_first_trans : forall a b c,
  newer_first a b = true -> newer_first b c = true -> newer_first a c = true.
Proof.
  unfold newer_first. intros a b c H1 H2.
  apply Z.leb_le in H1, H2. apply Z.leb_le. lia.
Qed.

Lemma higher_first_total : forall a b, higher_first a b = false -> higher_first b a = true.
Proof.
  unfold higher_first. intros a b H. apply Qle_bool_iff.
  destruct (Qlt_le_dec (User.totalScore (fst a)) (User.totalScore (fst b))) as [Hlt|Hle].
  - now apply Qlt_le_weak.
  - apply Qle_bool_iff in Hle. congruence.
Qed.

Lemma higher_first_trans : forall a b c,
  higher_first a b = true -> higher_first b c = true -> higher_first a c = true.
Proof.
  unfold higher_first. intros a b c H1 H2.
  apply Qle_bool_iff in H1, H2. apply Qle_bool_iff. lra.
Qed.

(** The limit of a request is the default, or the parsed value when that is
    not zero. *)
Lemma parseInt_or_cases : forall q d,
  (Str.parseInt_or q d = d)
  \/ (exists v, Str.parseInt q = Some v /\ v <> 0%Z /\ Str.parseInt_or q d = v).
Proof.
  intros q d. unfold Str.parseInt_or.
  destruct (Str.parseInt q) as [[|v|v]|]; [now left| | |now left];
    right; eexists; (split; [reflexivity|]); split; [discriminate | reflexivity
                                                     | discriminate | reflexivity].
Qed.

Lemma clamped_limit_cases : forall q d top,
  (1 <= d)%Z -> (1 <= top)%Z ->
  let limit := Z.min (Str.parseInt_or q d) top in
  (limit <= top)%Z /\
  ((1 <= limit)%Z \/
   exists v, Str.parseInt q = Some v /\ (v < 0)%Z /\ limit = v).
Proof.
  intros q d top Hd Htop. cbv zeta. split; [apply Z.le_min_r|].
  destruct (parseInt_or_cases q d) as [->|(v & Hp & Hv & ->)]; [left; lia|].
  destruct (Z.lt_ge_cases v 0) as [Hneg|Hpos].
  - right. exists v. split; [exact Hp|]. split; [exact Hneg | lia].
  - left. lia.
Qed.

(** C7 (amended).  The history handler never uses a limit above 100: the
    limit is the requested one, 20 when it is absent, not a number or 0, cut
    down to 100; it is at least 1 unless the request asked for a negative
    limit.  The offset is never negative.  The entries returned are entries of
    the participant, ordered by creation time descending, and at most [limit]
    of them when the limit is at least 1. *)
Theorem C7_history_window_and_order :
  forall w qlimit qoffset db,
    let limit := history_limit qlimit in
    let offset := history_offset qoffset in
    (limit <= 100)%Z /\
    ((1 <= limit)%Z \/
     exists v, Str.parseInt qlimit = Some v /\ (v < 0)%Z /\ limit = v) /\
    (0 <= offset)%Z /\
    forall page pg,
      snd (handle (GetHistory w qlimit qoffset) db) = Json 200 (HistoryBody page pg) ->
      pg_limit pg = limit /\ pg_offset pg = offset /\
      StronglySorted (fun a b => (Score.createdAt b <= Score.createdAt a)%Z) page /\
      (forall s, In s page -> In s (ledger (Str.toLowerCase w) db)) /\
      ((1 <= limit)%Z -> (Z.of_nat (List.length page) <= limit)%Z).
Proof.
  intros w qlimit qoffset db limit offset.
  destruct (@clamped_limit_cases qlimit 20%Z 100%Z) as [Htop Hlow]; try lia.
  split; [exact Htop|]. split; [exact Hlow|].
  split; [apply Z.le_max_r|].
  intros page pg H. cbn [handle] in H. unfold get_history in H.
  destruct (negb (isValidWalletAddress w)); [discriminate|].
  destruct (getUserByWallet w db); [|discriminate].
  cbn [snd] in H. injection H as <- <-. cbn [pg_limit pg_offset].
  split; [reflexivity|]. split; [reflexivity|].
  unfold getUserScoreHistory. cbn [h_scores]. fold limit offset.
  set (mine := filter (has_score_wallet (Str.toLowerCase w)) (scores db)).
  assert (Hsorted : StronglySorted
            (fun a b => (Score.createdAt b <= Score.createdAt a)%Z)
            (cursor_skip offset (sort_by newer_first mine))).
  { apply StronglySorted_skipn.
    pose proof (@sort_by_sorted _ newer_first newer_first_total newer_first_trans mine)
      as Hs.
    induction Hs as [|x l Hl IH Hx]; constructor; [exact IH|].
    rewrite Forall_forall in Hx |- *. intros y Hy.
    apply Z.leb_le. now apply Hx. }
  assert (Hin : forall s, In s (cursor_skip offset (sort_by newer_first mine)) ->
                In s mine).
  { intros s Hs. apply In_skipn in Hs.
    now apply (Permutation_in _ (@sort_by_perm _ newer_first mine)). }
  unfold cursor_limit. destruct (limit =? 0)%Z eqn:Hz.
  - split; [exact Hsorted|]. split; [exact Hin|].
    apply Z.eqb_eq in Hz. lia.
  - split; [now apply StronglySorted_firstn|].
    split; [intros s Hs; apply Hin; now apply In_firstn in Hs|].
    intros Hpos. pose proof (firstn_le_length (Z.abs_nat limit)
      (cursor_skip offset (sort_by newer_first mine))) as Hlen. lia.
Qed.

(** C7 as the specification states it fails for a negative limit: the
    handler takes the limit -5 as it is and reports it in the pagination of
    its answer. *)
Lemma C7_counterexample :
  history_limit (Some "-5") = (-5)%Z /\
  ~ (1 <= history_limit (Some "-5") <= 100)%Z /\
  exists page pg,
    handle (GetHistory alice_key (Some "-5") None) db_alice
      = (db_alice, Json 200 (HistoryBody page pg)) /\
    pg_limit pg = (-5)%Z.
Proof.
  split; [reflexivity|]. split; [vm_compute; intros [H _]; now apply H|].
  eexists. eexists. split; reflexivity.
Qed.

Lemma C7_witness :
  exists page,
    snd (handle (GetHistory alice_key (Some "1") (Some "0")) (run sample_trace db_alice))
      = Json 200 (HistoryBody page (mkPagination 2 1 0 true)) /\
    StronglySorted (fun a b => (Score.createdAt b <= Score.createdAt a)%Z) page /\
    (Z.of_nat (List.length page) <= 1)%Z.
Proof.
  eexists. split; [reflexivity|].
  destruct (C7_history_window_and_order alice_key (Some "1") (Some "0")
              (run sample_trace db_alice)) as (_ & _ & _ & H).
  destruct (H _ _ eq_refl) as (_ & _ & Hsorted & _ & Hlen).
  split; [exact Hsorted | apply Hlen; reflexivity].
Defined.

(** ** Leaderboard *)

Lemma mapi_from_length : forall (A B : Type) (f : A -> Z -> B) l i,
  List.length (mapi_from f i l) = List.length l.
Proof.
  intros A B f. induction l as [|x l IH]; intros i; cbn; [reflexivity|].
  now rewrite IH.
Qed.

Lemma mapi_from_nth : forall (A B : Type) (f : A -> Z -> B) l i n y,
  nth_error (mapi_from f i l) n = Some y ->
  exists x, nth_error l n = Some x /\ y = f x (i + Z.of_nat n)%Z.
Proof.
  intros A B f. induction l as [|x l IH]; intros i n y; cbn.
  - destruct n; discriminate.
  - destruct n as [|n]; cbn.
    + intros [= <-]. exists x. split; [reflexivity|]. f_equal. lia.
    + intros H. destruct (IH _ _ _ H) as (x' & Hx' & ->).
      exists x'. split; [exact Hx'|]. f_equal. lia.
Qed.

Lemma mapi_from_In : forall (A B : Type) (f : A -> Z -> B) l i y,
  In y (mapi_from f i l) -> exists x j, In x l /\ y = f x j.
Proof.
  intros A B f l i y H. apply In_nth_error in H. destruct H as [n Hn].
  destruct (mapi_from_nth _ _ _ _ Hn) as (x & Hx & ->).
  exists x. eexists. split; [now apply nth_error_In in Hx | reflexivity].
Qed.


Lemma leaderboard_rows_In : forall db row,
  In row (leaderboard_rows db) ->
  In (fst row) (users db) /\ (0 < User.totalScore (fst row))%Q.
Proof.
  intros db row H. unfold leaderboard_rows in H.
  apply (Permutation_in _ (@sort_by_perm _ higher_first _)) in H.
  apply in_map_iff in H. destruct H as (u & <- & Hu). cbn [fst].
  apply filter_In in Hu. destruct Hu as [Hin Hpos]. split; [exact Hin|].
  apply negb_true_iff in Hpos.
  destruct (Qlt_le_dec 0 (User.totalScore u)) as [Hlt|Hle]; [exact Hlt|].
  apply Qle_bool_iff in Hle. congruence.
Qed.

Lemma leaderboard_rows_length : forall db,
  List.length (leaderboard_rows db) = List.length (ranked db).
Proof.
  intros db. unfold leaderboard_rows.
  rewrite (Permutation_length (@sort_by_perm _ higher_first _)).
  apply length_map.
Qed.

Lemma leaderboard_rows_sorted : forall db,
  StronglySorted
    (fun a b : User.t * Z => (User.totalScore (fst b) <= User.totalScore (fst a))%Q)
    (leaderboard_rows db).
Proof.
  intros db. unfold leaderboard_rows.
  match goal with |- StronglySorted _ (sort_by _ ?l) =>
    pose proof (@sort_by_sorted _ higher_first higher_first_total higher_first_trans l)
      as Hs; generalize dependent (sort_by higher_first l) end.
  intros l Hs. induction Hs as [|x l Hl IH Hx]; constructor; [exact IH|].
  rewrite Forall_forall in Hx |- *. intros y Hy.
  apply Qle_bool_iff. now apply Hx.
Qed.




(** ** Registration *)


(** ** Submissions in flight *)

(** Served alone, the three operations of a task are the handler. *)
Lemma task_sequential : forall r db,
  let '(t1, db1) := task_step (Received r) db in
  let '(t2, db2) := task_step t1 db1 in
  let '(t3, db3) := task_step t2 db2 in
  exists resp,
    t3 = Answered resp /\
    post_scores (sub_now r) (sub_walletAddress r) (sub_quizId r) (sub_score r)
                (sub_difficulty r) (sub_maxScore r) db = (db3, resp).
Proof.
  intros r db. unfold post_scores. cbn [task_step]. fold (sub_max r).
  destruct (validate_submission _ _ _ _ _) as [rej|sc]; [cbn; eauto|].
  destruct (getUserByWallet (sub_walletAddress r) db); [|cbn; eauto].
  cbn [task_step]. fold (sub_scoreData r sc).
  destruct (createScore (sub_now r) (sub_scoreData r sc) db) as [db1 [newScore|e]].
  - cbn [task_step].
    destruct (updateUserTotalScore (sub_now r) (sub_walletAddress r) sc db1)
      as [db2 [u|]]; cbn [task_step]; eexists; (split; [reflexivity|]);
      try reflexivity; unfold catch_scores; now destruct (Str.includes _ _).
  - cbn [task_step]. eexists. split; [reflexivity|].
    unfold catch_scores. now destruct (Str.includes _ _).
Qed.

Section TwoSubmissions.

Variable k : string.

Hypothesis k_wf : wf_key k.

Lemma trim_key : Str.trim k = k.
Proof. rewrite <- (proj2 k_wf) at 1. exact (wf_key_fixed k_wf). Qed.

(** One store operation of a well-formed submission of [k] on a fresh quiz:
    it goes well, only the third one changes the total, by the raw score, and
    only the second one changes the ledger, by the attempt at its quiz. *)
Lemma task_progress : forall r sc n a db x,
  Str.toLowerCase (sub_walletAddress r) = k ->
  validate_submission (sub_walletAddress r) (sub_quizId r) (sub_score r)
                      (sub_difficulty r) (sub_max r) = inr sc ->
  task_at r sc n a ->
  userTotal k db = Some x ->
  attempted k (sub_quizId r) db = (2 <=? n)%nat ->
  task_at r sc (Nat.min 3 (S n)) (fst (task_step a db)) /\
  userTotal k (snd (task_step a db)) = Some (if (n =? 2)%nat then x + sc else x) /\
  (forall q', attempted k q' (snd (task_step a db))
              = attempted k q' db || ((n =? 1)%nat && String.eqb (sub_quizId r) q')).
Proof.
  intros r sc n a db x Hw Hval Hat Hx Hq.
  assert (Hfind : exists u, find (has_wallet k) (users db) = Some u).
  { unfold userTotal in Hx. destruct (find (has_wallet k) (users db)); [eauto|discriminate]. }
  destruct Hfind as [u Hu].
  destruct n as [|[|[|n]]]; cbn [task_at Nat.min Nat.eqb andb] in *.
  - subst a. cbn [task_step]. rewrite Hval. unfold getUserByWallet.
    rewrite Hw, trim_key, Hu. cbn [fst snd].
    split; [reflexivity|]. split; [exact Hx|]. intros q'. now rewrite orb_false_r.
  - subst a. cbn [task_step]. unfold createScore, insert_score.
    assert (Hdup : existsb (same_attempt
               (score_document (sub_now r) (sub_scoreData r sc))) (scores db) = false).
    { unfold attempted in Hq. cbn in Hq. rewrite <- Hq.
      unfold same_attempt. cbn. now rewrite Hw. }
    rewrite Hdup. cbn [fst snd]. split; [reflexivity|]. split; [exact Hx|].
    intros q'. unfold attempted. cbn [scores]. rewrite existsb_app. cbn [existsb].
    unfold has_score_wallet at 2. cbn [Score.walletAddress Score.quizId score_document
      sub_scoreData sd_walletAddress sd_quizId].
    now rewrite Hw, String.eqb_refl, orb_false_r.
  - subst a. cbn [task_step]. unfold updateUserTotalScore. rewrite Hw.
    pose proof (update_same (inc_totalScore (sub_now r) sc) (fun _ => eq_refl)
                  k (users db)) as [_ Hr].
    pose proof (@userTotal_update (inc_totalScore (sub_now r) sc) k k db _ (scores db)
                  (fun _ => eq_refl) eq_refl) as Ht.
    destruct (findOneAndUpdate (has_wallet k) (inc_totalScore (sub_now r) sc) (users db))
      as [us res]. cbn [fst snd] in *. rewrite Hr, Hu. cbn [option_map fst snd].
    split; [eexists; split; reflexivity|]. split.
    + rewrite Ht, String.eqb_refl, Hu. cbn. unfold userTotal in Hx.
      rewrite Hu in Hx. cbn in Hx. congruence.
    + intros q'. unfold attempted. cbn [scores]. now rewrite orb_false_r.
  - destruct Hat as (resp & -> & Hst). cbn [task_step fst snd].
    split; [eauto|]. split; [exact Hx|]. intros q'. now rewrite orb_false_r.
Qed.

Variables r1 r2 : Submission.

Variables s1 s2 : Q.

Hypothesis r1_key : Str.toLowerCase (sub_walletAddress r1) = k.

Hypothesis r2_key : Str.toLowerCase (sub_walletAddress r2) = k.

Hypothesis r1_valid :
  validate_submission (sub_walletAddress r1) (sub_quizId r1) (sub_score r1)
                      (sub_difficulty r1) (sub_max r1) = inr s1.

Hypothesis r2_valid :
  validate_submission (sub_walletAddress r2) (sub_quizId r2) (sub_score r2)
                      (sub_difficulty r2) (sub_max r2) = inr s2.

Hypothesis quizzes_differ : sub_quizId r1 <> sub_quizId r2.

Variable t : Q.

Lemma interleave_progress : forall sched na nb a b db x,
  task_at r1 s1 na a -> task_at r2 s2 nb b ->
  userTotal k db = Some x ->
  (x == t + banked na s1 + banked nb s2)%Q ->
  attempted k (sub_quizId r1) db = (2 <=? na)%nat ->
  attempted k (sub_quizId r2) db = (2 <=? nb)%nat ->
  let na' := Nat.min 3 (na + count_occ bool_dec sched true) in
  let nb' := Nat.min 3 (nb + count_occ bool_dec sched false) in
  let '(a', b', db') := interleave task_step sched a b db in
  task_at r1 s1 na' a' /\ task_at r2 s2 nb' b' /\
  exists x', userTotal k db' = Some x' /\ (x' == t + banked na' s1 + banked nb' s2)%Q.
Proof.
  assert (Hstage : forall n, task_at r1 s1 (Nat.min 3 n) = task_at r1 s1 n
                          /\ task_at r2 s2 (Nat.min 3 n) = task_at r2 s2 n
                          /\ forall s, banked (Nat.min 3 n) s = banked n s).
  { intros [|[|[|[|n]]]]; repeat split. }
  induction sched as [|[|] sched IH]; intros na nb a b db x Ha Hb Hx Hsum Hq1 Hq2;
    cbn [interleave count_occ].
  - cbv zeta. rewrite !Nat.add_0_r.
    destruct (Hstage na) as (-> & _ & ->). destruct (Hstage nb) as (_ & -> & ->).
    split; [exact Ha|]. split; [exact Hb|]. exists x. auto.
  - destruct (bool_dec true true) as [_|F]; [|now elim F].
    destruct (bool_dec false true) as [F|_]; [discriminate|].
    destruct (@task_progress r1 s1 na a db x r1_key r1_valid Ha Hx Hq1)
      as (Ha' & Hx' & Hq').
    destruct (task_step a db) as [a' db']. cbn [fst snd] in *.
    specialize (IH (Nat.min 3 (S na)) nb a' b db' _ Ha' Hb Hx').
    replace (Nat.min 3 (Nat.min 3 (S na) + count_occ bool_dec sched true))
      with (Nat.min 3 (na + S (count_occ bool_dec sched true))) in IH by lia.
    apply IH.
    + destruct na as [|[|[|na]]]; cbn [Nat.eqb Nat.min banked Nat.leb] in *; lra.
    + rewrite Hq', Hq1, String.eqb_refl.
      now destruct na as [|[|[|na]]].
    + rewrite Hq', Hq2.
      assert (String.eqb (sub_quizId r1) (sub_quizId r2) = false) as ->
        by now apply String.eqb_neq.
      now rewrite andb_false_r, orb_false_r.
  - destruct (bool_dec false false) as [_|F]; [|now elim F].
    destruct (bool_dec true false) as [F|_]; [discriminate|].
    destruct (@task_progress r2 s2 nb b db x r2_key r2_valid Hb Hx Hq2)
      as (Hb' & Hx' & Hq').
    destruct (task_step b db) as [b' db']. cbn [fst snd] in *.
    specialize (IH na (Nat.min 3 (S nb)) a b' db' _ Ha Hb' Hx').
    replace (Nat.min 3 (Nat.min 3 (S nb) + count_occ bool_dec sched false))
      with (Nat.min 3 (nb + S (count_occ bool_dec sched false))) in IH by lia.
    apply IH.
    + destruct nb as [|[|[|nb]]]; cbn [Nat.eqb Nat.min banked Nat.leb] in *; lra.
    + rewrite Hq', Hq1.
      assert (String.eqb (sub_quizId r2) (sub_quizId r1) = false) as ->
        by (apply String.eqb_neq; congruence).
      now rewrite andb_false_r, orb_false_r.
    + rewrite Hq', Hq2, String.eqb_refl.
      now destruct nb as [|[|[|nb]]].
Qed.

(** Two submissions of one participant on two fresh quizzes, their store
    operations interleaved in any order: once each has performed its three
    operations, both are answered 201 and the total has grown by both raw
    scores. *)
Lemma mongo_both_accruals_take_effect : forall db sched,
  userTotal k db = Some t ->
  attempted k (sub_quizId r1) db = false ->
  attempted k (sub_quizId r2) db = false ->
  (3 <= count_occ bool_dec sched true)%nat ->
  (3 <= count_occ bool_dec sched false)%nat ->
  exists resp1 resp2 db' x',
    interleave task_step sched (Received r1) (Received r2) db
      = (Answered resp1, Answered resp2, db') /\
    status resp1 = 201%Z /\ status resp2 = 201%Z /\
    userTotal k db' = Some x' /\ (x' == t + s1 + s2)%Q.
Proof.
  intros db sched Ht Hq1 Hq2 Hc1 Hc2.
  pose proof (@interleave_progress sched 0 0 (Received r1) (Received r2) db t
                eq_refl eq_refl Ht) as H.
  cbv zeta in H. cbn [banked Nat.leb] in H.
  specialize (H ltac:(lra) Hq1 Hq2).
  destruct (interleave task_step sched (Received r1) (Received r2) db) as [[a' b'] db'].
  replace (Nat.min 3 (0 + count_occ bool_dec sched true)) with 3%nat in H by lia.
  replace (Nat.min 3 (0 + count_occ bool_dec sched false)) with 3%nat in H by lia.
  destruct H as ((resp1 & -> & Hst1) & (resp2 & -> & Hst2) & x' & Hx' & Hsum).
  exists resp1, resp2, db', x'. cbn [banked Nat.leb] in Hsum. auto 10.
Qed.

End TwoSubmissions.

(** C5.  In the SQLite revision the handler adds the raw score to the total
    that its own SELECT returned and writes the sum back.  With two
    submissions of one participant in flight, for 5 and 7 points on two
    quizzes, and their statements served in turn, both are answered with a
    success, reporting the totals 5 and 7, and the stored total ends at 7:
    the accrual of 5 is lost.  Served one after the other they end at 12. *)
Theorem C5_sqlite_read_modify_write_loses_an_accrual : forall code,
  (exists r1 r2 db',
     interleave (Sqlite.task_step code) alternating
                (Sqlite.Received first_submission) (Sqlite.Received second_submission)
                sqlite_alice
       = (Sqlite.Answered r1, Sqlite.Answered r2, db') /\
     r1 = Sqlite.Submitted 5 20 (JS.Fin 25) (0 + 5) "easy" false /\
     r2 = Sqlite.Submitted 7 20 (JS.Fin 35) (0 + 7) "hard" false /\
     Sqlite.total_of alice_key db' = Some (0 + 7) /\
     List.length (Sqlite.scores db') = 2%nat)
  /\
  (exists r1 r2 db',
     interleave (Sqlite.task_step code) [true; true; true; false; false; false]
                (Sqlite.Received first_submission) (Sqlite.Received second_submission)
                sqlite_alice
       = (Sqlite.Answered r1, Sqlite.Answered r2, db') /\
     Sqlite.total_of alice_key db' = Some (0 + 5 + 7)).
Proof.
  intros code. split.
  - do 3 eexists. split; [reflexivity|]. repeat split.
  - do 3 eexists. split; reflexivity.
Qed.

(** In the SQLite revision the percentage is [score / maxScore * 100] with the
    maxScore of the request: the score 0 with maxScore 0 is not refused and
    gives [NaN]. *)
Lemma sqlite_zero_maxScore_is_not_a_number : forall code,
  let r := mkSubmission 2000 alice "q9" (Some 0) "easy" (Some 0) in
  exists user db1,
    Sqlite.task_step code (Sqlite.Received r) sqlite_alice
      = (Sqlite.Selected r 0 user, sqlite_alice) /\
    Sqlite.task_step code (Sqlite.Selected r 0 user) sqlite_alice
      = (Sqlite.Inserted r 0 user, db1) /\
    map Sqlite.percentage (Sqlite.scores db1) = [JS.NaN].
Proof.
  intros code. cbv zeta. do 2 eexists. split; [reflexivity|]. split; reflexivity.
Qed.

(** The same two submissions against the document store, with the same
    schedule and with any other: the total ends at 12. *)
Lemma mongo_same_submissions_keep_both : forall sched,
  (3 <= count_occ bool_dec sched true)%nat ->
  (3 <= count_occ bool_dec sched false)%nat ->
  exists resp1 resp2 db' x',
    interleave task_step sched (Received first_submission)
               (Received second_submission) db_alice
      = (Answered resp1, Answered resp2, db') /\
    status resp1 = 201%Z /\ status resp2 = 201%Z /\
    userTotal alice_key db' = Some x' /\ (x' == 12)%Q.
Proof.
  intros sched H1 H2.
  destruct (@mongo_both_accruals_take_effect alice_key
              (conj eq_refl eq_refl) first_submission second_submission 5 7
              eq_refl eq_refl eq_refl eq_refl ltac:(discriminate) 0
              db_alice sched eq_refl eq_refl eq_refl H1 H2)
    as (resp1 & resp2 & db' & x' & Hrun & Hs1 & Hs2 & Hx & Hsum).
  exists resp1, resp2, db', x'.
  split; [exact Hrun|]. split; [exact Hs1|]. split; [exact Hs2|].
  split; [exact Hx|]. rewrite Hsum. reflexivity.
Qed.

(** * Further properties *)

(** ** Invariants of the two collections *)

Lemma NoDup_snoc : forall (A : Type) (l : list A) x,
  NoDup l -> ~ In x l -> NoDup (l ++ [x]).
Proof.
  intros A l x Hl Hx. induction Hl as [|y l Hy Hl IH]; cbn.
  - constructor; [tauto | constructor].
  - constructor.
    + intros Hin. apply in_app_or in Hin. destruct Hin as [Hin|[->|[]]];
        [now apply Hy | apply Hx; now left].
    + apply IH. intros Hin. apply Hx. now right.
Qed.

Lemma same_attempt_absent : forall doc l,
  existsb (same_attempt doc) l = false -> ~ In (attempt_key doc) (map attempt_key l).
Proof.
  intros doc l Hno Hin. apply in_map_iff in Hin. destruct Hin as (s & Hk & Hs).
  assert (Hex : existsb (same_attempt doc) l = true); [|congruence].
  apply existsb_exists. exists s. split; [exact Hs|].
  unfold attempt_key in Hk. injection Hk as Hw Hq.
  unfold same_attempt, has_score_wallet. now rewrite Hw, Hq, !String.eqb_refl.
Qed.

Lemma handle_keeps_unique : forall r db,
  NoDup (map User.walletAddress (users db)) ->
  NoDup (map attempt_key (scores db)) ->
  NoDup (map User.walletAddress (users (fst (handle r db)))) /\
  NoDup (map attempt_key (scores (fst (handle r db)))).
Proof.
  intros [now w name picture|w|now w quiz score difficulty maxScore|w l o|l] db Hu Hs;
    cbn [handle];
    try (rewrite ?get_user_state, ?get_history_state, ?get_leaderboard_state;
         now split).
  - destruct (post_users_cases now w name picture db) as [Hsc Hus].
    rewrite Hsc. split; [|exact Hs].
    destruct Hus as [[-> _]|[(f & Hfk & _ & -> & _)|(u & -> & Hfree & _)]].
    + exact Hu.
    + now rewrite update_keys.
    + rewrite map_app. cbn [map]. apply NoDup_snoc; [exact Hu|].
      intros Hin. apply (proj1 (registered_find _ db)) in Hin.
      destruct Hin as [x Hx]. congruence.
  - rewrite post_scores_cases. cbv zeta.
    destruct (validate_submission _ _ _ _ _) as [rej|sc]; [now split|].
    destruct (getUserByWallet w db); [|now split].
    destruct (existsb _ (scores db)) eqn:Hdup; [now split|].
    apply same_attempt_absent in Hdup.
    destruct (find (has_wallet (Str.toLowerCase w)) (users db)); cbn [fst users scores];
      (split; [|rewrite map_app; cbn [map]; now apply NoDup_snoc]);
      [now rewrite update_keys | exact Hu].
Qed.

Lemma reachable_keys_unique : forall db,
  reachable db ->
  NoDup (map User.walletAddress (users db)) /\
  NoDup (map attempt_key (scores db)).
Proof.
  induction 1 as [|db r _ [IHu IHs]]; [split; constructor|].
  now apply handle_keeps_unique.
Qed.

(** X1.  In every reachable state no two profiles have the same wallet
    address and no two ledger entries have the same pair of wallet address
    and quiz. *)
Theorem X1_keys_are_unique : forall db,
  reachable db ->
  NoDup (map User.walletAddress (users db)) /\
  NoDup (map attempt_key (scores db)).
Proof.
  intros db Hreach. exact (reachable_keys_unique Hreach).
Qed.

Lemma X1_witness :
  NoDup (map User.walletAddress (users (run sample_trace db_alice))) /\
  NoDup (map attempt_key (scores (run sample_trace db_alice))).
Proof.
  apply X1_keys_are_unique. apply reachable_run.
  exact (reachable_step (PostUsers 1000 alice "Alice" None) reachable_init).
Defined.

(** X2.  In every reachable state the total score of a registered
    participant is the sum of the raw scores of its ledger entries, added in
    the order of insertion; it is also the [totalScore] that [getUserStats]
    aggregates from the ledger. *)
Theorem X2_total_is_the_ledger_sum : forall db k t,
  reachable db ->
  userTotal k db = Some t ->
  t = sum_scores (ledger k db) /\ sumScore (getUserStats k db) = t.
Proof.
  intros db k t Hreach Ht.
  pose proof (reachable_total_is_ledger_sum Hreach k Ht) as Hsum.
  split; [exact Hsum|].
  assert (Hwf : wf_key k).
  { pose proof (inv_keys (reachable_Inv Hreach)) as Hk. rewrite Forall_forall in Hk.
    unfold userTotal in Ht.
    destruct (find (has_wallet k) (users db)) as [u|] eqn:Hu; [|discriminate].
    apply find_has_wallet in Hu. destruct Hu as [<- Hin]. now apply Hk. }
  unfold getUserStats. rewrite (proj2 Hwf). fold (ledger k db).
  rewrite Hsum. now destruct (ledger k db).
Qed.

Lemma X2_witness :
  sumScore (getUserStats alice_key (run sample_trace db_alice)) = (0 + 18 + 10)%Q.
Proof.
  refine (proj2 (@X2_total_is_the_ledger_sum (run sample_trace db_alice) alice_key
                   (0 + 18 + 10)%Q _ eq_refl)).
  apply reachable_run.
  exact (reachable_step (PostUsers 1000 alice "Alice" None) reachable_init).
Defined.

Lemma update_map_fixed : forall (B : Type) (g : User.t -> B) (f : User.t -> User.t) p l,
  (forall u, g (f u) = g u) ->
  map g (fst (findOneAndUpdate p f l)) = map g l.
Proof.
  intros B g f p l Hg. induction l as [|x l IH]; cbn; [reflexivity|].
  destruct (p x); cbn; [now rewrite Hg|].
  destruct (findOneAndUpdate p f l) as [l' r]; cbn in *. now rewrite IH.
Qed.

Lemma valid_username_length_bounds : forall n,
  valid_username_length n = true ->
  (3 <= String.length n)%nat /\ (String.length n <= 30)%nat.
Proof.
  unfold valid_username_length. intros n H.
  apply negb_true_iff, orb_false_iff in H. destruct H as [H1 H2].
  apply Nat.ltb_ge in H1, H2. auto.
Qed.

(** The document of an accepted submission is well formed. *)
Lemma score_document_ok : forall now w quiz score difficulty m sc,
  validate_submission w quiz score difficulty m = inr sc ->
  entry_ok (score_document now (mkScoreData w quiz sc (Str.toLowerCase difficulty) m)).
Proof.
  intros now w quiz score difficulty m sc Hval.
  destruct (validate_accepts _ _ _ _ _ Hval) as (_ & Hlo & Hhi & _ & _ & Hd).
  assert (Hnz : ~ (JS.or_else m 20 == 0)%Q) by (apply or_else_nonzero; discriminate).
  assert (Hmax : (sc <= JS.or_else m 20)%Q /\ (0 < JS.or_else m 20)%Q).
  { unfold JS.or_else, JS.truthy in *.
    destruct (Qeq_bool m 0) eqn:Hm; cbn [negb] in *.
    - apply Qeq_bool_iff in Hm. split; [lra | reflexivity].
    - apply Qeq_bool_neq in Hm. split; lra. }
  split; cbn [score_document Score.difficulty Score.score Score.maxScore
              Score.percentage Score.walletAddress sd_walletAddress sd_quizId
              sd_score sd_difficulty sd_maxScore].
  - apply existsb_exists in Hd. destruct Hd as (d & Hin & Heq).
    apply String.eqb_eq in Heq. now rewrite Heq.
  - exact Hlo.
  - exact (proj1 Hmax).
  - exact (proj2 Hmax).
  - apply (spec_percentage_finite sc Hnz).
  - apply toLowerCase_idem.
Qed.

(** Every ledger entry of a reachable state went through the checks of the
    submission handler. *)
Lemma reachable_entry_ok : forall db s,
  reachable db -> In s (scores db) -> entry_ok s.
Proof.
  intros db s Hreach. revert s.
  induction Hreach as [|db r _ IH]; intros s Hin; [destruct Hin|].
  destruct r as [now w name picture|w|now w quiz score difficulty maxScore|w l o|l];
    cbn [handle] in Hin;
    rewrite ?get_user_state, ?get_history_state, ?get_leaderboard_state in Hin;
    try (now apply IH).
  - rewrite (proj1 (post_users_cases now w name picture db)) in Hin. now apply IH.
  - rewrite post_scores_cases in Hin. cbv zeta in Hin.
    destruct (validate_submission _ _ _ _ _) as [rej|sc] eqn:Hval; [now apply IH|].
    destruct (getUserByWallet w db); [|now apply IH].
    destruct (existsb _ (scores db)); [now apply IH|].
    assert (Hnew : In s (scores db ++
              [score_document now (mkScoreData w quiz sc (Str.toLowerCase difficulty)
                 (match maxScore with Some m => m | None => 20 end))])%list).
    { destruct (find (has_wallet (Str.toLowerCase w)) (users db)); exact Hin. }
    apply in_app_or in Hnew. destruct Hnew as [Hold|[<-|[]]]; [now apply IH|].
    exact (score_document_ok now _ _ _ _ _ Hval).
Qed.



(** [updateUser] rewrites at most the name, the picture and the update time
    of one profile. *)
Lemma updateUser_frame : forall now w upd db,
  let db' := fst (updateUser now w upd db) in
  scores db' = scores db /\
  map User.walletAddress (users db') = map User.walletAddress (users db) /\
  map User.totalScore (users db') = map User.totalScore (users db) /\
  map User.level (users db') = map User.level (users db) /\
  map User.createdAt (users db') = map User.createdAt (users db) /\
  (Forall profile_ok (users db) -> Forall profile_ok (users db')).
Proof.
  intros now w upd db. cbv zeta. unfold updateUser.
  match goal with
  | |- context [if ?c then (db, Throw _) else _] => destruct c eqn:Hc
  end; [cbn; auto 10|].
  match goal with
  | |- context [findOneAndUpdate ?p ?f (users db)] =>
      pose proof (@update_map_fixed _ User.walletAddress f p (users db)
                    (fun _ => eq_refl)) as Hkey;
      pose proof (@update_map_fixed _ User.totalScore f p (users db)
                    (fun _ => eq_refl)) as Htot;
      pose proof (@update_map_fixed _ User.level f p (users db)
                    (fun _ => eq_refl)) as Hlev;
      pose proof (@update_map_fixed _ User.createdAt f p (users db)
                    (fun _ => eq_refl)) as Hcre;
      pose proof (fun H => @update_Forall f profile_ok p (users db) H) as Hok;
      destruct (findOneAndUpdate p f (users db)) as [us r]
  end.
  cbn [fst snd users scores] in *.
  repeat (split; [assumption || reflexivity|]).
  apply Hok. intros u [Hk Hlo Hhi Hl Ht].
  split; cbn [User.walletAddress User.username User.level User.totalScore];
    try assumption.
  - destruct (Str.truthy (upd_username upd)); [|exact Hlo].
    cbn [negb] in Hc. apply negb_false_iff in Hc.
    apply (valid_username_length_bounds _ Hc).
  - destruct (Str.truthy (upd_username upd)); [|exact Hhi].
    cbn [negb] in Hc. apply negb_false_iff in Hc.
    apply (valid_username_length_bounds _ Hc).
Qed.

Lemma is_space_lower : forall c, Str.is_space (Str.lower_char c) = Str.is_space c.
Proof.
  intros [[] [] [] [] [] [] [] []]; vm_compute; reflexivity.
Qed.

Lemma toLowerCase_trimStart : forall s,
  Str.toLowerCase (Str.trimStart s) = Str.trimStart (Str.toLowerCase s).
Proof.
  induction s as [|c s IH]; cbn; [reflexivity|].
  rewrite is_space_lower. destruct (Str.is_space c); [exact IH | reflexivity].
Qed.

Lemma toLowerCase_trimEnd : forall s,
  Str.toLowerCase (Str.trimEnd s) = Str.trimEnd (Str.toLowerCase s).
Proof.
  induction s as [|c s IH]; cbn; [reflexivity|].
  rewrite <- IH, is_space_lower.
  destruct (Str.trimEnd s); cbn; [now destruct (Str.is_space c) | reflexivity].
Qed.

Lemma toLowerCase_trim : forall s,
  Str.toLowerCase (Str.trim s) = Str.trim (Str.toLowerCase s).
Proof.
  intros s. unfold Str.trim. now rewrite toLowerCase_trimEnd, toLowerCase_trimStart.
Qed.

(** [createUser], case by case. *)
Lemma createUser_cases : forall now w name picture db,
  let k := Str.trim (Str.toLowerCase w) in
  let n := Str.trim name in
  createUser now w name picture db =
    if negb (isValidWalletAddress k)
    then (db, Throw (Error "INVALID_WALLET_FORMAT"))
    else if negb (valid_username_length n)
    then (db, Throw (Error "INVALID_USERNAME_LENGTH"))
    else if existsb (has_wallet k) (users db)
    then (db, Throw (Error "USER_ALREADY_EXISTS"))
    else
      let u := User.mk k n
                 (match picture with
                  | Some url => if Str.truthy url then Some (Str.trim url) else None
                  | None => None
                  end) 0 "beginner" now now in
      (mkDB (users db ++ [u]) (scores db), Ok u).
Proof.
  intros now w name picture db k n. unfold createUser.
  cbn [User.walletAddress User.username]. fold k n.
  destruct (negb (isValidWalletAddress k)); [reflexivity|].
  destruct (negb (valid_username_length n)); [reflexivity|].
  unfold insert_user. cbn [User.walletAddress].
  destruct (existsb (has_wallet k) (users db)); reflexivity.
Qed.

(** The state after POST /api/users is the state before it, or the one that
    [updateUser] or [createUser] left. *)
Lemma post_users_state : forall now w name picture db,
  let supplied :=
    match picture with
    | Some url => if Str.truthy url then Some url else None
    | None => None
    end in
  fst (post_users now w name picture db) = db \/
  fst (post_users now w name picture db)
    = fst (updateUser now w (mkUpdate name supplied) db) \/
  (isValidWalletAddress w = true /\
   fst (post_users now w name picture db) = fst (createUser now w name picture db)).
Proof.
  intros now w name picture db. cbv zeta. unfold post_users.
  destruct (negb (Str.truthy w) || negb (Str.truthy name)); [now left|].
  destruct (negb (isValidWalletAddress w)) eqn:Hv; [now left|].
  apply negb_false_iff in Hv.
  match goal with
  | |- context [if ?c then (db, Json 400 _) else _] => destruct c; [now left|]
  end.
  destruct ((String.length name <? 3)%nat || (30 <? String.length name)%nat);
    [now left|].
  destruct (getUserByWallet w db).
  - right; left.
    destruct (updateUser now w _ db) as [db' [[u|]|e]]; cbn [fst]; try reflexivity.
    now destruct (Str.includes (message e) "already exists").
  - right; right. split; [exact Hv|].
    destruct (createUser now w name picture db) as [db' [u|e]]; cbn [fst];
      try reflexivity.
    now destruct (Str.includes (message e) "already exists").
Qed.

Lemma createUser_keeps_profiles_ok : forall now w name picture db,
  Forall profile_ok (users db) ->
  Forall profile_ok (users (fst (createUser now w name picture db))).
Proof.
  intros now w name picture db Hok. rewrite createUser_cases. cbv zeta.
  destruct (negb (isValidWalletAddress _)) eqn:Hv; [exact Hok|].
  destruct (negb (valid_username_length _)) eqn:Hn; [exact Hok|].
  destruct (existsb _ (users db)); [exact Hok|].
  cbn [fst users]. apply Forall_app. split; [exact Hok|].
  constructor; [|constructor].
  apply negb_false_iff in Hv, Hn.
  destruct (valid_username_length_bounds _ Hn) as [Hlo Hhi].
  split; cbn [User.walletAddress User.username User.level User.totalScore];
    try assumption; try reflexivity.
  - split; [exact Hv|]. now rewrite toLowerCase_trim, toLowerCase_idem.
  - apply Qle_refl.
Qed.

Lemma reachable_profiles_ok : forall db,
  reachable db -> Forall profile_ok (users db).
Proof.
  intros db Hreach.
  induction Hreach as [|db r _ IH]; [constructor|].
  destruct r as [now w name picture|w|now w quiz score difficulty maxScore|w l o|l];
    cbn [handle];
    rewrite ?get_user_state, ?get_history_state, ?get_leaderboard_state;
    try exact IH.
  - destruct (post_users_state now w name picture db) as [->|[->|[_ ->]]].
    + exact IH.
    + now apply updateUser_frame.
    + now apply createUser_keeps_profiles_ok.
  - rewrite post_scores_cases. cbv zeta.
    destruct (validate_submission _ _ _ _ _) as [rej|sc] eqn:Hval; [exact IH|].
    destruct (getUserByWallet w db); [|exact IH].
    destruct (existsb _ (scores db)); [exact IH|].
    destruct (find (has_wallet (Str.toLowerCase w)) (users db)); cbn [fst users];
      [|exact IH].
    apply update_Forall; [|exact IH].
    intros x [Hk Hlo Hhi Hl Ht].
    destruct (validate_accepts _ _ _ _ _ Hval) as (_ & Hsc & _).
    split; cbn [inc_totalScore User.walletAddress User.username User.level
                User.totalScore]; try assumption.
    lra.
Qed.

(** X4.  Every profile of a reachable state has a well-formed lower-case
    wallet address, a name of 3 to 30 characters, the level "beginner" (no
    handler ever changes it) and a total score that is not negative. *)
Theorem X4_profiles_are_well_formed : forall db u,
  reachable db -> In u (users db) -> profile_ok u.
Proof.
  intros db u Hreach Hin.
  pose proof (reachable_profiles_ok Hreach) as Hall.
  rewrite Forall_forall in Hall. now apply Hall.
Qed.

Lemma X4_witness :
  Forall (fun u => User.level u = "beginner" /\ (3 <= String.length (User.username u))%nat)
         (users (run sample_trace db_alice)).
Proof.
  apply Forall_forall. intros u Hin.
  assert (Hok : profile_ok u).
  { apply (@X4_profiles_are_well_formed (run sample_trace db_alice) u); [|exact Hin].
    apply reachable_run.
    exact (reachable_step (PostUsers 1000 alice "Alice" None) reachable_init). }
  split; [exact (profile_level Hok) | exact (profile_name_lo Hok)].
Defined.

(** ** Profiles *)

(** X5.  [createUser] and [getUserByWallet] round trip: with a well-formed
    address (after lower-casing and trimming), a name of 3 to 30 characters
    (after trimming) and no profile under that address, [createUser] appends
    one profile with total score 0 and level "beginner"; afterwards
    [getUserByWallet] returns it for every spelling of the address that
    differs by case or surrounding white space, and answers as before for
    every other address. *)
Theorem X5_createUser_then_getUserByWallet : forall now w name picture db,
  isValidWalletAddress (Str.trim (Str.toLowerCase w)) = true ->
  valid_username_length (Str.trim name) = true ->
  getUserByWallet w db = None ->
  exists u,
    createUser now w name picture db = (mkDB (users db ++ [u]) (scores db), Ok u) /\
    u = User.mk (Str.trim (Str.toLowerCase w)) (Str.trim name)
                (match picture with Some url => stored_picture url | None => None end)
                0 "beginner" now now /\
    (forall w', Str.trim (Str.toLowerCase w') = Str.trim (Str.toLowerCase w) ->
       getUserByWallet w' (mkDB (users db ++ [u]) (scores db)) = Some u) /\
    (forall w', Str.trim (Str.toLowerCase w') <> Str.trim (Str.toLowerCase w) ->
       getUserByWallet w' (mkDB (users db ++ [u]) (scores db)) = getUserByWallet w' db).
Proof.
  intros now w name picture db Hv Hn Hfree.
  rewrite createUser_cases. cbv zeta. rewrite Hv, Hn. cbn [negb].
  unfold getUserByWallet in Hfree. rewrite find_existsb, Hfree.
  eexists. split; [reflexivity|]. split; [reflexivity|]. split.
  - intros w' Hw'. unfold getUserByWallet. cbn [users]. rewrite Hw'.
    rewrite (find_app_none _ _ _ Hfree). unfold has_wallet at 1.
    cbn [User.walletAddress]. now rewrite String.eqb_refl.
  - intros w' Hw'. unfold getUserByWallet. cbn [users].
    destruct (find (has_wallet (Str.trim (Str.toLowerCase w'))) (users db))
      as [x|] eqn:Hx.
    + now apply find_app_new.
    + rewrite (find_app_none _ _ _ Hx). unfold has_wallet at 1.
      cbn [User.walletAddress].
      assert (String.eqb (Str.trim (Str.toLowerCase w))
                         (Str.trim (Str.toLowerCase w')) = false) as ->;
        [|reflexivity].
      apply String.eqb_neq. congruence.
Qed.

Lemma X5_witness :
  getUserByWallet "  0xABCDEFABCDEF0123456789ABCDEFABCDEF012345 "
    (fst (createUser 1000 alice "  Alice " (Some " ipfs://picture ") empty_db))
  = Some (User.mk alice_key "Alice" (Some "ipfs://picture") 0 "beginner" 1000 1000).
Proof.
  destruct (@X5_createUser_then_getUserByWallet 1000 alice "  Alice "
              (Some " ipfs://picture ") empty_db eq_refl eq_refl eq_refl)
    as (u & Hc & Hu & Hget & _).
  rewrite Hc. cbn [fst].
  rewrite (Hget "  0xABCDEFABCDEF0123456789ABCDEFABCDEF012345 " eq_refl).
  rewrite Hu. reflexivity.
Defined.

Lemma update_ext : forall (p : User.t -> bool) (f g : User.t -> User.t) l,
  (forall u, f u = g u) -> findOneAndUpdate p f l = findOneAndUpdate p g l.
Proof.
  intros p f g l H. induction l as [|x l IH]; cbn; [reflexivity|].
  now rewrite H, IH.
Qed.

(** [updateUser], case by case. *)
Lemma updateUser_cases : forall now w upd db,
  let k := Str.trim (Str.toLowerCase w) in
  updateUser now w upd db =
    if Str.truthy (upd_username upd)
       && negb (valid_username_length (Str.trim (upd_username upd)))
    then (db, Throw (Error "INVALID_USERNAME_LENGTH"))
    else
      match find (has_wallet k) (users db) with
      | None => (db, Ok None)
      | Some u =>
          (mkDB (fst (findOneAndUpdate (has_wallet k) (edited_profile now upd)
                        (users db)))
                (scores db), Ok (Some (edited_profile now upd u)))
      end.
Proof.
  intros now w upd db k. unfold updateUser. fold k.
  assert (Hcond :
    match (if Str.truthy (upd_username upd)
           then Some (Str.trim (upd_username upd)) else None) with
    | Some n => negb (valid_username_length n)
    | None => false
    end
    = Str.truthy (upd_username upd)
      && negb (valid_username_length (Str.trim (upd_username upd))))
    by now destruct (Str.truthy (upd_username upd)).
  rewrite Hcond.
  destruct (Str.truthy (upd_username upd)
            && negb (valid_username_length (Str.trim (upd_username upd))));
    [reflexivity|].
  match goal with
  | |- context [findOneAndUpdate ?p ?f (users db)] =>
      rewrite (@update_ext p f (edited_profile now upd) (users db))
  end.
  - pose proof (update_same (edited_profile now upd) (fun _ => eq_refl) k (users db))
      as [_ Hr].
    pose proof (@update_none (has_wallet k) (edited_profile now upd) (users db))
      as Hnone.
    destruct (findOneAndUpdate (has_wallet k) (edited_profile now upd) (users db))
      as [us r].
    cbn [fst snd] in *. subst r.
    destruct (find (has_wallet k) (users db)) as [u|]; cbn [option_map];
      [reflexivity|].
    rewrite (Hnone eq_refl). now destruct db.
  - intros u. unfold edited_profile, stored_picture.
    destruct (Str.truthy (upd_username upd));
      destruct (upd_profilePictureUrl upd); reflexivity.
Qed.

(** X6.  [updateUser] never touches the ledger, nor the wallet address, total
    score, level or creation time of any profile.  It throws
    INVALID_USERNAME_LENGTH, leaving the store as it is, when a name is
    supplied whose trimmed length is not 3 to 30; otherwise it returns [null],
    leaving the store as it is, when the address has no profile; otherwise
    it returns the edited profile, which [getUserByWallet] then returns for
    that address while answering as before for every other address. *)
Theorem X6_updateUser_edits_one_profile : forall now w upd db,
  let db' := fst (updateUser now w upd db) in
  scores db' = scores db /\
  map User.walletAddress (users db') = map User.walletAddress (users db) /\
  map User.totalScore (users db') = map User.totalScore (users db) /\
  map User.level (users db') = map User.level (users db) /\
  map User.createdAt (users db') = map User.createdAt (users db) /\
  match snd (updateUser now w upd db) with
  | Throw e =>
      db' = db /\ e = Error "INVALID_USERNAME_LENGTH" /\
      Str.truthy (upd_username upd) = true /\
      valid_username_length (Str.trim (upd_username upd)) = false
  | Ok None => db' = db /\ getUserByWallet w db = None
  | Ok (Some u') =>
      exists u,
        getUserByWallet w db = Some u /\
        u' = edited_profile now upd u /\
        getUserByWallet w db' = Some u' /\
        (forall w', Str.trim (Str.toLowerCase w') <> Str.trim (Str.toLowerCase w) ->
           getUserByWallet w' db' = getUserByWallet w' db)
  end.
Proof.
  intros now w upd db. cbv zeta.
  destruct (updateUser_frame now w upd db) as (Hs & Hk & Ht & Hl & Hc & _).
  repeat (split; [assumption|]).
  rewrite updateUser_cases. cbv zeta.
  destruct (Str.truthy (upd_username upd)
            && negb (valid_username_length (Str.trim (upd_username upd)))) eqn:Hcond.
  - cbn [fst snd]. apply andb_true_iff in Hcond. destruct Hcond as [H1 H2].
    apply negb_true_iff in H2. auto.
  - unfold getUserByWallet.
    destruct (find (has_wallet (Str.trim (Str.toLowerCase w))) (users db))
      as [u|] eqn:Hu; cbn [fst snd users]; [|auto].
    exists u. split; [reflexivity|]. split; [reflexivity|]. split.
    + rewrite (proj1 (update_same (edited_profile now upd) (fun _ => eq_refl) _ _)).
      now rewrite Hu.
    + intros w' Hw'. apply update_other; [reflexivity | congruence].
Qed.

(** POST /api/users when one of its checks fails: 400, store unchanged. *)
Lemma post_users_rejected : forall now w name picture db,
  passes_profile_checks w name picture = false ->
  exists msg, post_users now w name picture db = (db, Json 400 (Failure msg)).
Proof.
  intros now w name picture db H. unfold post_users, passes_profile_checks in *.
  destruct (Str.truthy w); cbn [negb andb orb] in *; [|eauto].
  destruct (Str.truthy name); cbn [negb andb orb] in *; [|eauto].
  destruct (isValidWalletAddress w); cbn [negb andb] in *; [|eauto].
  destruct picture as [url|]; [destruct (Str.truthy url)|];
    try (destruct (isValidIPFSUrl url); cbn [negb andb] in *; [|eauto]);
    cbn [andb] in H; apply negb_false_iff in H; rewrite H; eauto.
Qed.

(** POST /api/users when its checks pass. *)
Lemma post_users_accepted : forall now w name picture db,
  passes_profile_checks w name picture = true ->
  let supplied :=
    match picture with
    | Some url => if Str.truthy url then Some url else None
    | None => None
    end in
  let k := Str.toLowerCase w in
  post_users now w name picture db =
    if negb (valid_username_length (Str.trim name)) then (db, internal_error)
    else
      match find (has_wallet k) (users db) with
      | Some u =>
          let u' := edited_profile now (mkUpdate name supplied) u in
          (mkDB (fst (findOneAndUpdate (has_wallet k)
                        (edited_profile now (mkUpdate name supplied)) (users db)))
                (scores db),
           Json 200 (UserBody "User updated successfully" u'))
      | None =>
          let u := User.mk k (Str.trim name)
                     (match picture with Some url => stored_picture url | None => None end)
                     0 "beginner" now now in
          (mkDB (users db ++ [u]) (scores db),
           Json 201 (UserBody "User created successfully" u))
      end.
Proof.
  intros now w name picture db H supplied k.
  unfold passes_profile_checks in H.
  apply andb_true_iff in H. destruct H as [H Hlen].
  apply andb_true_iff in H. destruct H as [H Hpic].
  apply andb_true_iff in H. destruct H as [H Hv].
  apply andb_true_iff in H. destruct H as [Hw Hn].
  apply negb_true_iff in Hlen.
  destruct (valid_wallet_key _ Hv) as [Hkey Hwf].
  unfold post_users. rewrite Hw, Hn, Hv, Hlen. cbn [negb orb]. fold supplied.
  assert (Hpic' : match supplied with
                  | Some url => negb (isValidIPFSUrl url)
                  | None => false
                  end = false).
  { unfold supplied. destruct picture as [url|]; [|reflexivity].
    destruct (Str.truthy url); [now rewrite Hpic | reflexivity]. }
  rewrite Hpic'. unfold getUserByWallet. rewrite Hkey. fold k.
  destruct (find (has_wallet k) (users db)) as [u|] eqn:Hu.
  - rewrite updateUser_cases. cbv zeta. cbn [upd_username]. rewrite Hn, Hkey.
    fold k. rewrite Hu. cbn [andb].
    destruct (negb (valid_username_length (Str.trim name))); reflexivity.
  - rewrite createUser_cases. cbv zeta. rewrite Hkey, (proj1 Hwf). cbn [negb].
    fold k. rewrite find_existsb, Hu.
    destruct (negb (valid_username_length (Str.trim name))); reflexivity.
Qed.

(** ** A registered identifier at the profile endpoint *)

(** Served alone, the two operations of a profile request are the handler. *)
Lemma user_task_sequential : forall r db,
  let '(t1, db1) := user_task_step (Posted r) db in
  let '(t2, db2) := user_task_step t1 db1 in
  exists resp,
    t2 = Replied resp /\
    post_users (reg_now r) (reg_walletAddress r) (reg_username r)
               (reg_profilePictureUrl r) db = (db2, resp).
Proof.
  intros r db. unfold post_users. cbn [user_task_step]. cbv zeta.
  fold (reg_supplied r).
  destruct (negb (Str.truthy (reg_walletAddress r)) || negb (Str.truthy (reg_username r)));
    [cbn [user_task_step]; eauto|].
  destruct (negb (isValidWalletAddress (reg_walletAddress r)));
    [cbn [user_task_step]; eauto|].
  destruct (match reg_supplied r with
            | Some url => negb (isValidIPFSUrl url)
            | None => false
            end); [cbn [user_task_step]; eauto|].
  destruct ((String.length (reg_username r) <? 3)%nat
            || (30 <? String.length (reg_username r))%nat);
    [cbn [user_task_step]; eauto|].
  destruct (getUserByWallet (reg_walletAddress r) db); cbn [user_task_step].
  - destruct (updateUser (reg_now r) (reg_walletAddress r)
                (mkUpdate (reg_username r) (reg_supplied r)) db) as [db' [[u|]|e]];
      eexists; (split; [reflexivity|]); try reflexivity.
    unfold catch_users. now destruct (Str.includes (message e) "already exists").
  - destruct (createUser (reg_now r) (reg_walletAddress r) (reg_username r)
                (reg_profilePictureUrl r) db) as [db' [u|e]];
      eexists; (split; [reflexivity|]); try reflexivity.
    unfold catch_users. now destruct (Str.includes (message e) "already exists").
Qed.







(** ** The profile endpoint *)

(** X7.  POST /api/users for a wallet address that already has a profile
    never adds a profile and never answers 201: the ledger, the number of
    profiles, their wallet addresses and their total scores stay as they
    are.  When the body passes the checks of the handler and the trimmed name
    has 3 to 30 characters, the answer is 200 with the edited profile, which
    is then the profile of that address. *)
Theorem X7_post_users_edits_a_registered_profile : forall now w name picture db u,
  getUserByWallet w db = Some u ->
  let db' := fst (post_users now w name picture db) in
  let resp := snd (post_users now w name picture db) in
  let supplied :=
    match picture with
    | Some url => if Str.truthy url then Some url else None
    | None => None
    end in
  scores db' = scores db /\
  map User.walletAddress (users db') = map User.walletAddress (users db) /\
  map User.totalScore (users db') = map User.totalScore (users db) /\
  status resp <> 201%Z /\
  (passes_profile_checks w name picture = true ->
   valid_username_length (Str.trim name) = true ->
   resp = Json 200 (UserBody "User updated successfully"
                      (edited_profile now (mkUpdate name supplied) u)) /\
   getUserByWallet w db' = Some (edited_profile now (mkUpdate name supplied) u)).
Proof.
  intros now w name picture db u Hget. cbv zeta.
  destruct (passes_profile_checks w name picture) eqn:Hpass.
  - pose proof (post_users_accepted now w name picture db Hpass) as Heq.
    cbv zeta in Heq. rewrite Heq. clear Heq.
    assert (Hv : isValidWalletAddress w = true).
    { unfold passes_profile_checks in Hpass.
      repeat (apply andb_true_iff in Hpass; destruct Hpass as [Hpass ?]).
      assumption. }
    destruct (valid_wallet_key _ Hv) as [Hkey _].
    unfold getUserByWallet in *. rewrite Hkey in *. rewrite Hget.
    destruct (negb (valid_username_length (Str.trim name))) eqn:Hn;
      cbn [fst snd users scores status].
    + repeat (split; [reflexivity || discriminate|]). intros _ Hn'.
      rewrite Hn' in Hn. discriminate.
    + split; [reflexivity|].
      split; [apply update_map_fixed; reflexivity|].
      split; [apply update_map_fixed; reflexivity|].
      split; [discriminate|]. intros _ _. split; [reflexivity|].
      rewrite (proj1 (update_same (edited_profile now (mkUpdate name
        (match picture with
         | Some url => if Str.truthy url then Some url else None
         | None => None
         end))) (fun _ => eq_refl) _ _)).
      now rewrite Hget.
  - destruct (post_users_rejected now w name picture db Hpass) as [msg ->].
    cbn [fst snd status]. repeat (split; [reflexivity || discriminate|]).
    discriminate.
Qed.

Lemma X7_witness :
  snd (post_users 2600 alice "  Alice B " (Some "ipfs://b") (run sample_trace db_alice))
    = Json 200 (UserBody "User updated successfully"
        (User.mk alice_key "Alice B" (Some "ipfs://b") (0 + 18 + 10) "beginner" 1000 2600)).
Proof.
  refine (proj1 (proj2 (proj2 (proj2 (proj2
    (@X7_post_users_edits_a_registered_profile 2600 alice "  Alice B "
       (Some "ipfs://b") (run sample_trace db_alice)
       (User.mk alice_key "Alice B" None (0 + 18 + 10) "beginner" 1000 3000)
       eq_refl)))) eq_refl eq_refl)).
Defined.

(** X8.  The status of POST /api/users is decided as follows: 400 when one of
    the checks of the handler fails; otherwise 500 when the trimmed name does
    not have 3 to 30 characters (the handler checked the untrimmed name);
    otherwise 200 when the address has a profile and 201 when it has none.
    In particular the handler never answers 409, and it changes the store
    only when it answers 200 or 201. *)
Theorem X8_post_users_status : forall now w name picture db,
  let resp := snd (post_users now w name picture db) in
  status resp =
    (if negb (passes_profile_checks w name picture) then 400
     else if negb (valid_username_length (Str.trim name)) then 500
     else match getUserByWallet w db with Some _ => 200 | None => 201 end)%Z
  /\ status resp <> 409%Z
  /\ (status resp <> 200%Z -> status resp <> 201%Z ->
      fst (post_users now w name picture db) = db).
Proof.
  intros now w name picture db. cbv zeta.
  destruct (passes_profile_checks w name picture) eqn:Hpass; cbn [negb].
  - pose proof (post_users_accepted now w name picture db Hpass) as Heq.
    cbv zeta in Heq. rewrite Heq. clear Heq.
    assert (Hv : isValidWalletAddress w = true).
    { unfold passes_profile_checks in Hpass.
      repeat (apply andb_true_iff in Hpass; destruct Hpass as [Hpass ?]).
      assumption. }
    destruct (valid_wallet_key _ Hv) as [Hkey _].
    unfold getUserByWallet. rewrite Hkey.
    destruct (negb (valid_username_length (Str.trim name)));
      [cbn; repeat split; discriminate || reflexivity|].
    destruct (find (has_wallet (Str.toLowerCase w)) (users db));
      cbn [fst snd status]; (split; [reflexivity|]); (split; [discriminate|]);
      intros H1 H2; exfalso; [now apply H1 | now apply H2].
  - destruct (post_users_rejected now w name picture db Hpass) as [msg ->].
    cbn. repeat split; discriminate || reflexivity.
Qed.

(** ** The statistics of a participant *)

Lemma fold_Qmax_upper : forall l x,
  (x <= fold_left Qmax l x)%Q /\
  (forall y, In y l -> (y <= fold_left Qmax l x)%Q) /\
  In (fold_left Qmax l x) (x :: l).
Proof.
  induction l as [|a l IH]; intros x; cbn [fold_left].
  - split; [apply Qle_refl|]. split; [intros y []|now left].
  - destruct (IH (Qmax x a)) as (H1 & H2 & H3).
    assert (Hx : (x <= Qmax x a)%Q /\ (a <= Qmax x a)%Q /\ (Qmax x a = x \/ Qmax x a = a)).
    { unfold Qmax. destruct (Qle_bool x a) eqn:Hle.
      - apply Qle_bool_iff in Hle. split; [exact Hle|]. split; [apply Qle_refl|now right].
      - split; [apply Qle_refl|]. split; [|now left].
        destruct (Qlt_le_dec a x) as [Hlt|Hge]; [now apply Qlt_le_weak|].
        apply Qle_bool_iff in Hge. congruence. }
    destruct Hx as (Hxa & Haa & Hsel).
    split; [now apply Qle_trans with (Qmax x a)|]. split.
    + intros y [<-|Hy]; [now apply Qle_trans with (Qmax x a)|now apply H2].
    + destruct H3 as [H3|H3]; [|now right; right].
      rewrite <- H3. destruct Hsel as [->| ->]; [now left|now right; left].
Qed.

Lemma fold_Qplus_shift : forall l x,
  (fold_left Qplus l x == x + fold_left Qplus l 0)%Q.
Proof.
  induction l as [|a l IH]; intros x; cbn [fold_left]; [lra|].
  rewrite (IH (x + a)%Q), (IH (0 + a)%Q). lra.
Qed.

Lemma sum_bounds_each : forall l,
  Forall (fun y => 0 <= y)%Q l ->
  (0 <= fold_left Qplus l 0)%Q /\
  forall y, In y l -> (y <= fold_left Qplus l 0)%Q.
Proof.
  induction 1 as [|a l Ha _ [IH0 IH]]; cbn [fold_left].
  - split; [apply Qle_refl|intros y []].
  - cbv beta in Ha. pose proof (fold_Qplus_shift l (0 + a)%Q) as Hs.
    split; [lra|].
    intros y [<-|Hy]; [lra|]. specialize (IH y Hy). lra.
Qed.

Lemma getUserStats_summary : forall w db,
  let stats := getUserStats w db in
  let mine := ledger (Str.toLowerCase w) db in
  quizCount stats = Z.of_nat (List.length mine) /\
  sumScore stats = sum_scores mine /\
  (averageScore stats * inject_Z (quizCount stats) == sumScore stats)%Q /\
  (forall s, In s mine -> (Score.score s <= bestScore stats)%Q) /\
  (mine <> [] -> In (bestScore stats) (map Score.score mine)) /\
  (mine = [] -> stats = mkStats 0 0 0 0).
Proof.
  intros w db. cbv zeta. unfold getUserStats, ledger.
  destruct (filter (has_score_wallet (Str.toLowerCase w)) (scores db)) as [|s l].
  - cbn. repeat split; try reflexivity; try now intros.
  - cbn [quizCount sumScore averageScore bestScore].
    split; [reflexivity|]. split; [reflexivity|].
    destruct (fold_Qmax_upper (map Score.score l) (Score.score s)) as (H1 & H2 & H3).
    split; [|split; [|split]].
    + assert (Hn : ~ (inject_Z (Z.of_nat (List.length (s :: l))) == 0)%Q).
      { cbn [List.length]. rewrite Nat2Z.inj_succ. unfold Qeq. cbn. lia. }
      field. exact Hn.
    + intros s' [<-|Hin]; [exact H1|]. apply H2. now apply in_map.
    + intros _. exact H3.
    + discriminate.
Qed.

(** X9.  [getUserStats] summarises the ledger entries stored under the
    lower-cased address: their number, the sum of their scores, an average
    whose product with the number is the sum, and a best score that is one of
    the scores and is exceeded by none of them; all four are 0 when there is
    no entry. *)
Theorem X9_getUserStats_summarises_the_ledger : forall w db,
  let stats := getUserStats w db in
  let mine := ledger (Str.toLowerCase w) db in
  quizCount stats = Z.of_nat (List.length mine) /\
  sumScore stats = sum_scores mine /\
  (averageScore stats * inject_Z (quizCount stats) == sumScore stats)%Q /\
  (forall s, In s mine -> (Score.score s <= bestScore stats)%Q) /\
  (mine <> [] -> In (bestScore stats) (map Score.score mine)) /\
  (mine = [] -> stats = mkStats 0 0 0 0).
Proof.
  intros w db. exact (getUserStats_summary w db).
Qed.

Lemma X9_witness :
  In (bestScore (getUserStats alice (run sample_trace db_alice)))
     (map Score.score (ledger alice_key (run sample_trace db_alice))).
Proof.
  refine (proj1 (proj2 (proj2 (proj2 (proj2
    (X9_getUserStats_summarises_the_ledger alice (run sample_trace db_alice))))))
    _).
  vm_compute. discriminate.
Defined.

Lemma or_else_zero_eq : forall q, (JS.or_else q 0 == q)%Q.
Proof.
  intros q. unfold JS.or_else, JS.truthy.
  destruct (Qeq_bool q 0) eqn:H; cbn [negb]; [|reflexivity].
  apply Qeq_bool_iff in H. now rewrite H.
Qed.

(** X10.  GET /api/users/:walletAddress leaves the store as it is.  In a
    reachable state it answers 400 to an address that is not of the form 0x
    and 40 hexadecimal digits, 404 when the address has no profile, and
    otherwise 200 with the profile and the statistics of its ledger: the
    total score is the sum of the scores of the ledger entries,
    quizzesCompleted is their number, bestScore is not exceeded by any of
    them and lies between 0 and the total score, and averageScore is the
    average rounded to the nearest integer. *)
Theorem X10_get_user_reports_the_ledger : forall w db,
  reachable db ->
  let mine := ledger (Str.toLowerCase w) db in
  fst (get_user w db) = db /\
  match snd (get_user w db) with
  | Json st (ProfileBody p) =>
      st = 200%Z /\ isValidWalletAddress w = true /\
      getUserByWallet w db = Some (p_user p) /\
      User.totalScore (p_user p) = sum_scores mine /\
      p_quizzesCompleted p = Z.of_nat (List.length mine) /\
      (forall s, In s mine -> (Score.score s <= p_bestScore p)%Q) /\
      (0 <= p_bestScore p)%Q /\ (p_bestScore p <= User.totalScore (p_user p))%Q /\
      exists average n,
        (average * inject_Z (p_quizzesCompleted p) == User.totalScore (p_user p))%Q /\
        p_averageScore p = JS.of_Z n /\
        (inject_Z n - (1 # 2) <= average)%Q /\ (average < inject_Z n + (1 # 2))%Q
  | Json st (Failure _) =>
      if isValidWalletAddress w
      then st = 404%Z /\ getUserByWallet w db = None
      else st = 400%Z
  | _ => False
  end.
Proof.
  intros w db Hreach mine. split; [apply get_user_state|].
  unfold get_user.
  destruct (isValidWalletAddress w) eqn:Hv; cbn [negb snd]; [|reflexivity].
  destruct (getUserByWallet w db) as [u|] eqn:Hu; cbn [snd]; [|now split].
  cbn [p_user p_quizzesCompleted p_bestScore p_averageScore].
  destruct (valid_wallet_key _ Hv) as [Hkey Hwf].
  unfold getUserByWallet in Hu. rewrite Hkey in Hu.
  assert (Ht : userTotal (Str.toLowerCase w) db = Some (User.totalScore u))
    by (unfold userTotal; now rewrite Hu).
  pose proof (reachable_total_is_ledger_sum Hreach _ Ht) as Hsum.
  fold (sum_scores (ledger (Str.toLowerCase w) db)) in Hsum. fold mine in Hsum.
  destruct (getUserStats_summary w db) as (Hc & Hs & Havg & Hbest & Hin & Hnil).
  fold mine in Hc, Hs, Hbest, Hin, Hnil.
  assert (Hpos : Forall (fun y => 0 <= y)%Q (map Score.score mine)).
  { apply Forall_forall. intros y Hy. apply in_map_iff in Hy.
    destruct Hy as (s & <- & Hs'). apply entry_score_lo.
    apply (@reachable_entry_ok db s Hreach). unfold mine, ledger in Hs'.
    apply filter_In in Hs'. exact (proj1 Hs'). }
  destruct (sum_bounds_each Hpos) as [H0 Heach].
  fold (sum_scores mine) in H0, Heach.
  pose proof (or_else_zero_eq (bestScore (getUserStats w db))) as Hb.
  pose proof (or_else_zero_eq (averageScore (getUserStats w db))) as Ha.
  assert (Hrange : (0 <= bestScore (getUserStats w db))%Q /\
                   (bestScore (getUserStats w db) <= sum_scores mine)%Q).
  { destruct mine as [|s l] eqn:Hmine.
    - rewrite (Hnil eq_refl). cbn. split; apply Qle_refl.
    - assert (Hne : s :: l <> []) by discriminate.
      specialize (Hin Hne). split.
      + rewrite Forall_forall in Hpos. now apply Hpos.
      + now apply Heach. }
  split; [reflexivity|]. split; [reflexivity|]. split; [reflexivity|].
  split; [exact Hsum|]. split; [exact Hc|].
  split; [intros s Hs'; rewrite Hb; now apply Hbest|].
  split; [rewrite Hb; exact (proj1 Hrange)|].
  split; [rewrite Hb, Hsum; exact (proj2 Hrange)|].
  destruct (Math_round_nearest (JS.or_else (averageScore (getUserStats w db)) 0))
    as (n & Hn & Hlo & Hhi).
  exists (averageScore (getUserStats w db)), n.
  split; [now rewrite Havg, Hs, Hsum|]. split; [exact Hn|].
  rewrite Ha in Hlo, Hhi. now split.
Qed.

Lemma X10_witness :
  exists p,
    snd (get_user alice (run sample_trace db_alice)) = Json 200 (ProfileBody p) /\
    User.totalScore (p_user p) = (0 + 18 + 10)%Q /\
    p_quizzesCompleted p = 2%Z /\
    (p_bestScore p <= User.totalScore (p_user p))%Q.
Proof.
  assert (Hreach : reachable (run sample_trace db_alice)).
  { apply reachable_run.
    exact (reachable_step (PostUsers 1000 alice "Alice" None) reachable_init). }
  pose proof (proj2 (@X10_get_user_reports_the_ledger alice _ Hreach)) as H.
  remember (snd (get_user alice (run sample_trace db_alice))) as resp eqn:E.
  vm_compute in E. subst resp.
  destruct H as (_ & _ & _ & Ht & Hc & _ & _ & Hb & _).
  eexists. split; [reflexivity|]. split; [exact Ht|]. split; [exact Hc|exact Hb].
Defined.

(** ** Submissions *)

Lemma attempted_same_attempt : forall now w quiz sc difficulty m l,
  existsb (same_attempt (score_document now (mkScoreData w quiz sc difficulty m))) l
    = existsb (fun s => has_score_wallet (Str.toLowerCase w) s
                        && String.eqb (Score.quizId s) quiz) l.
Proof. reflexivity. Qed.

(** X11.  POST /api/scores answers 400, 404, 409, 500 or 201.  It never
    changes the wallet address, name, picture, level or creation time of a
    profile.  Answering 400, 404 or 409 it leaves the store as it is.
    Answering 201 or 500 it has appended exactly one ledger entry, carrying
    the submitted score and quiz under the lower-cased address; answering 500
    it has changed no profile. *)
Theorem X11_post_scores_outcomes : forall now w quiz score difficulty maxScore db,
  let db' := fst (post_scores now w quiz score difficulty maxScore db) in
  let resp := snd (post_scores now w quiz score difficulty maxScore db) in
  map User.walletAddress (users db') = map User.walletAddress (users db) /\
  map User.username (users db') = map User.username (users db) /\
  map User.profilePictureUrl (users db') = map User.profilePictureUrl (users db) /\
  map User.level (users db') = map User.level (users db) /\
  map User.createdAt (users db') = map User.createdAt (users db) /\
  In (status resp) [400; 404; 409; 500; 201]%Z /\
  (status resp = 400%Z \/ status resp = 404%Z \/ status resp = 409%Z -> db' = db) /\
  (status resp = 201%Z \/ status resp = 500%Z ->
   exists sc doc,
     score = Some sc /\
     scores db' = (scores db ++ [doc])%list /\
     Score.score doc = sc /\ Score.quizId doc = quiz /\
     Score.walletAddress doc = Str.toLowerCase w /\
     (status resp = 500%Z -> users db' = users db)).
Proof.
  intros now w quiz score difficulty maxScore db. cbv zeta.
  rewrite post_scores_cases. cbv zeta.
  destruct (validate_submission _ _ _ _ _) as [rej|sc] eqn:Hval.
  - cbn [fst snd]. pose proof (validate_rejects_400 _ _ _ _ _ Hval) as ->.
    repeat (split; [reflexivity|]). split; [now left|].
    split; [reflexivity|]. intros [H|H]; discriminate H.
  - destruct (validate_accepts _ _ _ _ _ Hval) as (-> & _).
    destruct (getUserByWallet w db); cbn [fst snd status].
    2:{ repeat (split; [reflexivity|]). split; [now right; left|].
        split; [reflexivity|]. intros [H|H]; discriminate H. }
    destruct (existsb _ (scores db)); cbn [fst snd status].
    { repeat (split; [reflexivity|]). split; [now right; right; left|].
      split; [reflexivity|]. intros [H|H]; discriminate H. }
    destruct (find (has_wallet (Str.toLowerCase w)) (users db));
      cbn [fst snd status users scores internal_error].
    + split; [now apply update_map_fixed|]. split; [now apply update_map_fixed|].
      split; [now apply update_map_fixed|]. split; [now apply update_map_fixed|].
      split; [now apply update_map_fixed|].
      split; [now right; right; right; right; left|].
      split; [intros [H|[H|H]]; discriminate H|]. intros _.
      eexists; eexists. split; [reflexivity|]. split; [reflexivity|].
      split; [reflexivity|]. split; [reflexivity|]. split; [reflexivity|].
      intros H; discriminate H.
    + repeat (split; [reflexivity|]).
      split; [now right; right; right; left|].
      split; [intros [H|[H|H]]; discriminate H|]. intros _.
      eexists; eexists. split; [reflexivity|]. split; [reflexivity|].
      split; [reflexivity|]. split; [reflexivity|]. split; [reflexivity|].
      reflexivity.
Qed.

Lemma X11_witness :
  exists doc,
    scores (fst (post_scores 2000 alice "q1" (Some 18) "medium" (Some 20) db_alice))
      = ([] ++ [doc])%list /\
    Score.score doc = 18 /\ Score.quizId doc = "q1" /\
    Score.walletAddress doc = alice_key.
Proof.
  destruct (proj2 (proj2 (proj2 (proj2 (proj2 (proj2 (proj2
    (X11_post_scores_outcomes 2000 alice "q1" (Some 18) "medium" (Some 20) db_alice)))))))
    (or_introl eq_refl)) as (sc & doc & Hsc & Hdoc & Hs & Hq & Hw & _).
  exists doc. injection Hsc as <-.
  split; [exact Hdoc|]. split; [exact Hs|]. split; [exact Hq|exact Hw].
Defined.

(** A stored key is not the lower-cased form of an address with white space
    around it. *)
Lemma untrimmed_key_has_no_profile : forall w db,
  reachable db ->
  Str.trim (Str.toLowerCase w) <> Str.toLowerCase w ->
  find (has_wallet (Str.toLowerCase w)) (users db) = None.
Proof.
  intros w db Hreach Hne.
  destruct (find (has_wallet (Str.toLowerCase w)) (users db)) as [u|] eqn:Hu;
    [|reflexivity].
  apply find_has_wallet in Hu. destruct Hu as [Hk Hin].
  pose proof (inv_keys (reachable_Inv Hreach)) as Hkeys.
  rewrite Forall_forall in Hkeys. specialize (Hkeys u Hin). rewrite Hk in Hkeys.
  exfalso. apply Hne. rewrite <- (proj2 Hkeys) at 1.
  rewrite toLowerCase_idem. apply valid_wallet_trim. exact (proj1 Hkeys).
Qed.

(** X12.  A submission whose address has white space around it, sent for a
    registered participant, passes the lookup of the handler (which trims the
    address) but not the update of the total (which does not): in a reachable
    state, when the checks pass and the quiz was not yet recorded under the
    untrimmed address, the handler answers 500 after it has stored the ledger
    entry under the untrimmed lower-cased address.  No profile is changed, the
    entry belongs to no profile and is not in the ledger of the participant,
    and every later submission of that quiz with that address is answered
    409. *)
Theorem X12_untrimmed_address_leaves_an_orphan_entry :
  forall now w quiz score difficulty maxScore db sc u,
    reachable db ->
    validate_submission w quiz score difficulty
      (match maxScore with Some m => m | None => 20 end) = inr sc ->
    getUserByWallet w db = Some u ->
    Str.trim (Str.toLowerCase w) <> Str.toLowerCase w ->
    attempted (Str.toLowerCase w) quiz db = false ->
    let doc :=
      score_document now
        (mkScoreData w quiz sc (Str.toLowerCase difficulty)
           (match maxScore with Some m => m | None => 20 end)) in
    let db' := mkDB (users db) (scores db ++ [doc]) in
    post_scores now w quiz score difficulty maxScore db = (db', internal_error) /\
    userTotal (Score.walletAddress doc) db' = None /\
    getUserByWallet w db' = Some u /\
    ledger (User.walletAddress u) db' = ledger (User.walletAddress u) db /\
    forall now2 score2 difficulty2 maxScore2 sc2,
      validate_submission w quiz score2 difficulty2
        (match maxScore2 with Some m => m | None => 20 end) = inr sc2 ->
      post_scores now2 w quiz score2 difficulty2 maxScore2 db'
        = (db', Json 409 (Failure "Quiz already completed by this user")).
Proof.
  intros now w quiz score difficulty maxScore db sc u Hreach Hval Hu Hne Hfresh.
  cbv zeta.
  pose proof (untrimmed_key_has_no_profile w Hreach Hne) as Hnone.
  split; [|split; [|split; [|split]]].
  - rewrite post_scores_cases. cbv zeta. rewrite Hval, Hu.
    rewrite attempted_same_attempt. unfold attempted in Hfresh.
    rewrite Hfresh, Hnone. reflexivity.
  - unfold userTotal. cbn [users score_document Score.walletAddress sd_walletAddress].
    now rewrite Hnone.
  - exact Hu.
  - unfold ledger. cbn [scores]. rewrite filter_app. cbn [filter].
    unfold has_score_wallet at 2.
    cbn [score_document Score.walletAddress sd_walletAddress].
    assert (Hk : String.eqb (Str.toLowerCase w) (User.walletAddress u) = false).
    { apply String.eqb_neq. intros Heq. unfold getUserByWallet in Hu.
      apply find_has_wallet in Hu. destruct Hu as [Hku _]. congruence. }
    rewrite Hk. apply app_nil_r.
  - intros now2 score2 difficulty2 maxScore2 sc2 Hval2.
    rewrite post_scores_cases. cbv zeta. rewrite Hval2.
    change (getUserByWallet w (mkDB (users db) _)) with (getUserByWallet w db).
    rewrite Hu. rewrite attempted_same_attempt. cbn [scores].
    rewrite existsb_app. cbn [existsb].
    cbn [score_document Score.walletAddress Score.quizId sd_walletAddress sd_quizId].
    unfold has_score_wallet at 2. cbn [Score.walletAddress].
    rewrite !String.eqb_refl. cbn [andb orb]. now rewrite orb_true_r.
Qed.

Lemma X12_witness :
  let w := (" " ++ alice)%string in
  let served := post_scores 2000 w "q1" (Some 18) "medium" (Some 20) db_alice in
  snd served = internal_error /\
  List.length (scores (fst served)) = 1%nat /\
  users (fst served) = users db_alice /\
  ledger alice_key (fst served) = [].
Proof.
  cbv zeta.
  destruct (@X12_untrimmed_address_leaves_an_orphan_entry 2000 (" " ++ alice)%string
              "q1" (Some 18) "medium" (Some 20) db_alice 18 alice_user
              (reachable_step (PostUsers 1000 alice "Alice" None) reachable_init)
              eq_refl eq_refl ltac:(vm_compute; discriminate) eq_refl)
    as (Hpost & _ & _ & Hledger & _).
  rewrite Hpost. cbn [fst snd]. split; [reflexivity|]. split; [reflexivity|].
  split; [reflexivity|]. exact Hledger.
Defined.

(** ** History pages *)






(** ** The leaderboard *)

Lemma NoDup_map_filter : forall (A B : Type) (f : A -> B) (p : A -> bool) l,
  NoDup (map f l) -> NoDup (map f (filter p l)).
Proof.
  intros A B f p. induction l as [|x l IH]; cbn [map filter]; intros H; [constructor|].
  inversion H as [|? ? Hx Hl]; subst.
  destruct (p x); cbn [map]; [|now apply IH].
  constructor; [|now apply IH].
  intros Hin. apply Hx. apply in_map_iff in Hin. destruct Hin as (y & Hy & Hin).
  apply filter_In in Hin. apply in_map_iff. exists y. tauto.
Qed.

Lemma NoDup_firstn : forall (A : Type) n (l : list A), NoDup l -> NoDup (firstn n l).
Proof.
  intros A. induction n as [|n IH]; intros l H; [constructor|].
  destruct l as [|x l]; [constructor|]. cbn [firstn].
  inversion H as [|? ? Hx Hl]; subst. constructor; [|now apply IH].
  intros Hin. apply Hx. now apply In_firstn in Hin.
Qed.

Lemma find_unique_key : forall l u,
  NoDup (map User.walletAddress l) -> In u l ->
  find (has_wallet (User.walletAddress u)) l = Some u.
Proof.
  induction l as [|x l IH]; intros u Hnd Hin; [destruct Hin|].
  cbn [map] in Hnd. inversion Hnd as [|? ? Hx Hl]; subst. cbn [find].
  unfold has_wallet at 1. destruct Hin as [->|Hin].
  - now rewrite String.eqb_refl.
  - destruct (String.eqb_spec (User.walletAddress x) (User.walletAddress u)) as [E|_];
      [|now apply IH].
    exfalso. apply Hx. rewrite E. now apply in_map.
Qed.

Lemma sorted_app_inv : forall (A : Type) (R : A -> A -> Prop) l1 l2,
  StronglySorted R (l1 ++ l2) -> forall x y, In x l1 -> In y l2 -> R x y.
Proof.
  intros A R. induction l1 as [|a l1 IH]; intros l2 H x y Hx Hy; [destruct Hx|].
  cbn [app] in H. inversion H as [|? ? Hs Hall]; subst.
  destruct Hx as [->|Hx]; [|now apply (IH l2)].
  rewrite Forall_forall in Hall. apply Hall. apply in_or_app. now right.
Qed.

Lemma mapi_from_wallets : forall l i,
  map e_walletAddress (mapi_from leaderboard_entry i l)
    = map (fun row : User.t * Z => User.walletAddress (fst row)) l.
Proof.
  induction l as [|x l IH]; intros i; cbn [mapi_from map]; [reflexivity|].
  now rewrite IH.
Qed.

Lemma leaderboard_rows_wallets : forall db,
  Permutation (map (fun row : User.t * Z => User.walletAddress (fst row))
                   (leaderboard_rows db))
              (map User.walletAddress (ranked db)).
Proof.
  intros db. unfold leaderboard_rows. fold (ranked db).
  rewrite (Permutation_map _ (@sort_by_perm _ higher_first _)).
  rewrite map_map. cbn [fst]. reflexivity.
Qed.

Lemma leaderboard_rows_row : forall db row,
  In row (leaderboard_rows db) <->
  In (fst row) (ranked db) /\
  snd row = Z.of_nat (List.length (ledger (User.walletAddress (fst row)) db)).
Proof.
  intros db row. unfold leaderboard_rows. fold (ranked db). split.
  - intros H. apply (Permutation_in _ (@sort_by_perm _ higher_first _)) in H.
    apply in_map_iff in H. destruct H as (u & <- & Hu). now split.
  - intros [Hu Hc].
    apply (Permutation_in _ (Permutation_sym (@sort_by_perm _ higher_first _))).
    apply in_map_iff. exists (fst row). split; [|exact Hu].
    destruct row as [u c]. cbn [fst snd] in *. now rewrite Hc.
Qed.

Lemma leaderboard_board : forall limit db board,
  reachable db ->
  getLeaderboard limit db = Ok board ->
  (1 <= limit)%Z /\
  NoDup (map e_walletAddress board) /\
  (forall e, In e board ->
     e_quizCount e = Z.of_nat (List.length (ledger (e_walletAddress e) db)) /\
     (1 <= e_quizCount e)%Z /\
     e_score e = sum_scores (ledger (e_walletAddress e) db) /\
     e_level e = "beginner") /\
  (forall u, In u (ranked db) ->
     In (User.walletAddress u) (map e_walletAddress board) \/
     (List.length board = Z.to_nat limit /\
      forall e, In e board -> (User.totalScore u <= e_score e)%Q)) /\
  ((Z.of_nat (List.length (ranked db)) <= limit)%Z ->
   Permutation (map e_walletAddress board) (map User.walletAddress (ranked db))).
Proof.
  intros limit db board Hreach Hget. unfold getLeaderboard in Hget.
  destruct (Z.leb_spec limit 0) as [|Hl]; [discriminate|].
  injection Hget as <-. set (n := Z.to_nat limit).
  destruct (reachable_keys_unique Hreach) as [Hnd _].
  assert (Hndr : NoDup (map (fun row : User.t * Z => User.walletAddress (fst row))
                            (leaderboard_rows db))).
  { apply (Permutation_NoDup (Permutation_sym (leaderboard_rows_wallets db))).
    unfold ranked. now apply NoDup_map_filter. }
  split; [lia|]. split; [|split; [|split]].
  - rewrite mapi_from_wallets, <- firstn_map. now apply NoDup_firstn.
  - intros e He. apply mapi_from_In in He. destruct He as (row & j & Hrow & ->).
    apply In_firstn in Hrow.
    destruct (leaderboard_rows_In _ _ Hrow) as [Hin Hpos].
    apply leaderboard_rows_row in Hrow. destruct Hrow as [_ Hc].
    cbn [leaderboard_entry e_quizCount e_walletAddress e_score e_level].
    pose proof (@find_unique_key _ _ Hnd Hin) as Hfind.
    assert (Ht : userTotal (User.walletAddress (fst row)) db
                 = Some (User.totalScore (fst row)))
      by (unfold userTotal; now rewrite Hfind).
    pose proof (reachable_total_is_ledger_sum Hreach _ Ht) as Hsum.
    fold (sum_scores (ledger (User.walletAddress (fst row)) db)) in Hsum.
    pose proof (reachable_profiles_ok Hreach) as Hok. rewrite Forall_forall in Hok.
    split; [exact Hc|]. split; [|split; [exact Hsum|exact (profile_level (Hok _ Hin))]].
    rewrite Hc. destruct (ledger (User.walletAddress (fst row)) db) as [|s l];
      [|cbn [List.length]; lia].
    rewrite Hsum in Hpos. cbn in Hpos. discriminate Hpos.
  - intros u Hu.
    assert (Hrow : In (u, Z.of_nat (List.length (ledger (User.walletAddress u) db)))
                      (leaderboard_rows db))
      by (apply leaderboard_rows_row; now split).
    rewrite <- (firstn_skipn n (leaderboard_rows db)) in Hrow.
    apply in_app_or in Hrow. destruct Hrow as [Hrow|Hrow].
    + left. rewrite mapi_from_wallets. apply in_map_iff. now eexists; split; [|exact Hrow].
    + right. split.
      * rewrite mapi_from_length, length_firstn. apply Nat.min_l.
        destruct (Nat.le_gt_cases n (List.length (leaderboard_rows db))) as [|Hlt];
          [assumption|].
        rewrite skipn_all2 in Hrow by lia. destruct Hrow.
      * intros e He. apply mapi_from_In in He. destruct He as (row & j & Hr & ->).
        cbn [leaderboard_entry e_score].
        pose proof (leaderboard_rows_sorted db) as Hs.
        rewrite <- (firstn_skipn n (leaderboard_rows db)) in Hs.
        exact (@sorted_app_inv _ _ _ _ Hs _ _ Hr Hrow).
  - intros Hall. rewrite mapi_from_wallets, firstn_all2.
    + apply leaderboard_rows_wallets.
    + rewrite leaderboard_rows_length. lia.
Qed.

(** X14.  [getLeaderboard] in a reachable state, for a limit it accepts: the
    limit is at least 1; no participant is listed twice; for every listed
    participant [quizCount] is the number of its ledger entries and is at
    least 1, [score] is the sum of the scores of those entries, and the level
    is "beginner"; a participant with a positive total that is not listed
    was cut by the limit, the board being full with scores that are all at
    least that total; and when the limit is at least the number of
    participants with a positive total, all of them are listed. *)
Theorem X14_leaderboard_is_the_top_of_the_ranking : forall limit db board,
  reachable db ->
  getLeaderboard limit db = Ok board ->
  (1 <= limit)%Z /\
  NoDup (map e_walletAddress board) /\
  (forall e, In e board ->
     e_quizCount e = Z.of_nat (List.length (ledger (e_walletAddress e) db)) /\
     (1 <= e_quizCount e)%Z /\
     e_score e = sum_scores (ledger (e_walletAddress e) db) /\
     e_level e = "beginner") /\
  (forall u, In u (ranked db) ->
     In (User.walletAddress u) (map e_walletAddress board) \/
     (List.length board = Z.to_nat limit /\
      forall e, In e board -> (User.totalScore u <= e_score e)%Q)) /\
  ((Z.of_nat (List.length (ranked db)) <= limit)%Z ->
   Permutation (map e_walletAddress board) (map User.walletAddress (ranked db))).
Proof.
  intros limit db board Hreach Hget.
  exact (@leaderboard_board limit db board Hreach Hget).
Qed.

Lemma X14_witness :
  exists board,
    getLeaderboard 10 (run sample_trace db_alice) = Ok board /\
    Permutation (map e_walletAddress board) [alice_key] /\
    Forall (fun e => (1 <= e_quizCount e)%Z) board.
Proof.
  assert (Hreach : reachable (run sample_trace db_alice)).
  { apply reachable_run.
    exact (reachable_step (PostUsers 1000 alice "Alice" None) reachable_init). }
  eexists. split; [reflexivity|].
  destruct (@X14_leaderboard_is_the_top_of_the_ranking 10%Z _ _ Hreach eq_refl)
    as (_ & _ & Hrows & _ & Hall).
  split.
  - apply Hall. vm_compute. discriminate.
  - apply Forall_forall. intros e He. exact (proj1 (proj2 (Hrows e He))).
Defined.

(** ** The check of the picture URL *)

Lemma includes_prefix : forall s p, String.prefix p s = true -> Str.includes s p = true.
Proof. intros s p H. destruct s; cbn [Str.includes]; now rewrite H. Qed.

Lemma includes_tail : forall c s p, Str.includes s p = true -> Str.includes (String c s) p = true.
Proof. intros c s p H. cbn [Str.includes]. rewrite H. apply orb_true_r. Qed.

Lemma prefix_shorter : forall p q s,
  String.prefix (p ++ q) s = true -> String.prefix p s = true.
Proof.
  induction p as [|c p IH]; intros q s H; [now destruct s|].
  destruct s as [|c' s]; cbn [String.append String.prefix] in *; [discriminate|].
  destruct (ascii_dec c c'); [now apply (IH q)|discriminate].
Qed.

Lemma prefix_includes_inner : forall p q s,
  String.prefix (p ++ q) s = true -> Str.includes s q = true.
Proof.
  induction p as [|c p IH]; intros q s H; [now apply includes_prefix|].
  destruct s as [|c' s]; cbn [String.append String.prefix] in H; [discriminate|].
  destruct (ascii_dec c c'); [|discriminate].
  apply includes_tail. now apply IH.
Qed.

(** X15.  [isValidIPFSUrl] accepts exactly the empty string and the strings
    that contain "ipfs" somewhere: each of the three prefixes it tests
    contains "ipfs", so the last test alone decides.  A URL of any scheme
    and host is therefore accepted as soon as "ipfs" occurs in it, and a
    picture is refused by POST /api/users only when it is a non-empty string
    without "ipfs". *)
Theorem X15_isValidIPFSUrl_is_a_substring_test : forall url,
  isValidIPFSUrl url = negb (Str.truthy url) || Str.includes url "ipfs".
Proof.
  intros url. unfold isValidIPFSUrl, Str.startsWith.
  destruct (Str.truthy url); cbn [negb orb]; [|reflexivity].
  destruct (Str.includes url "ipfs") eqn:Hinc; [apply orb_true_r|].
  rewrite orb_false_r.
  assert (H1 : String.prefix "ipfs://" url = false).
  { destruct (String.prefix "ipfs://" url) eqn:H; [|reflexivity].
    apply (prefix_shorter "ipfs" "://") in H. apply includes_prefix in H. congruence. }
  assert (H2 : String.prefix "https://ipfs.io/ipfs/" url = false).
  { destruct (String.prefix "https://ipfs.io/ipfs/" url) eqn:H; [|reflexivity].
    apply (prefix_shorter "https://ipfs" ".io/ipfs/") in H.
    apply (prefix_includes_inner "https://" "ipfs") in H. congruence. }
  assert (H3 : String.prefix "https://gateway.pinata.cloud/ipfs/" url = false).
  { destruct (String.prefix "https://gateway.pinata.cloud/ipfs/" url) eqn:H;
      [|reflexivity].
    apply (prefix_shorter "https://gateway.pinata.cloud/ipfs" "/") in H.
    apply (prefix_includes_inner "https://gateway.pinata.cloud/" "ipfs") in H.
    congruence. }
  now rewrite H1, H2, H3.
Qed.

(** ** Submissions in flight *)

(** X16.  Two submissions of one registered participant on two different
    quizzes that the ledger does not hold yet, both passing the checks of the
    handler, with their store operations interleaved in any order: once each
    has performed its three operations both are answered 201 and the total of
    the participant has grown by both scores. *)
Theorem X16_concurrent_submissions_both_accrue :
  forall k r1 r2 s1 s2 t db sched,
    wf_key k ->
    Str.toLowerCase (sub_walletAddress r1) = k ->
    Str.toLowerCase (sub_walletAddress r2) = k ->
    validate_submission (sub_walletAddress r1) (sub_quizId r1) (sub_score r1)
                        (sub_difficulty r1) (sub_max r1) = inr s1 ->
    validate_submission (sub_walletAddress r2) (sub_quizId r2) (sub_score r2)
                        (sub_difficulty r2) (sub_max r2) = inr s2 ->
    sub_quizId r1 <> sub_quizId r2 ->
    userTotal k db = Some t ->
    attempted k (sub_quizId r1) db = false ->
    attempted k (sub_quizId r2) db = false ->
    (3 <= count_occ bool_dec sched true)%nat ->
    (3 <= count_occ bool_dec sched false)%nat ->
    exists resp1 resp2 db' x',
      interleave task_step sched (Received r1) (Received r2) db
        = (Answered resp1, Answered resp2, db') /\
      status resp1 = 201%Z /\ status resp2 = 201%Z /\
      userTotal k db' = Some x' /\ (x' == t + s1 + s2)%Q.
Proof.
  intros k r1 r2 s1 s2 t db sched Hwf Hk1 Hk2 Hv1 Hv2 Hq Ht Hf1 Hf2 Hc1 Hc2.
  exact (@mongo_both_accruals_take_effect k Hwf r1 r2 s1 s2 Hk1 Hk2 Hv1 Hv2 Hq t
           db sched Ht Hf1 Hf2 Hc1 Hc2).
Qed.

Lemma X16_witness :
  exists resp1 resp2 db' x',
    interleave task_step [true; false; false; true; false; true]
               (Received first_submission) (Received second_submission) db_alice
      = (Answered resp1, Answered resp2, db') /\
    status resp1 = 201%Z /\ status resp2 = 201%Z /\
    userTotal alice_key db' = Some x' /\ (x' == 0 + 5 + 7)%Q.
Proof.
  exact (@X16_concurrent_submissions_both_accrue alice_key first_submission
           second_submission 5 7 0 db_alice [true; false; false; true; false; true]
           (conj eq_refl eq_refl) eq_refl eq_refl eq_refl eq_refl
           ltac:(discriminate) eq_refl eq_refl eq_refl
           (le_n 3) (le_n 3)).
Defined.

(** One store operation of a submission of [k] that passes the checks, at
    any stage, whether or not the ledger holds an attempt at its quiz. *)
Lemma stage_step : forall k r sc g a db x,
  wf_key k ->
  Str.toLowerCase (sub_walletAddress r) = k ->
  validate_submission (sub_walletAddress r) (sub_quizId r) (sub_score r)
                      (sub_difficulty r) (sub_max r) = inr sc ->
  stage_of r sc g a ->
  userTotal k db = Some x ->
  let taken := attempted k (sub_quizId r) db in
  stage_of r sc (next_stage g taken) (fst (task_step a db)) /\
  userTotal k (snd (task_step a db))
    = Some (match g with AtRecorded => x + sc | _ => x end) /\
  attempted k (sub_quizId r) (snd (task_step a db))
    = (taken || match g with AtUserChecked => true | _ => false end) /\
  List.length (ledger k (snd (task_step a db)))
    = (List.length (ledger k db)
       + match g with AtUserChecked => if taken then 0 else 1 | _ => 0 end)%nat.
Proof.
  intros k r sc g a db x Hwf Hw Hval Hat Hx. cbv zeta.
  assert (Hfind : exists u, find (has_wallet k) (users db) = Some u).
  { unfold userTotal in Hx. destruct (find (has_wallet k) (users db)); [eauto|discriminate]. }
  destruct Hfind as [u Hu].
  destruct g; cbn [stage_of next_stage] in *.
  - subst a. cbn [task_step]. rewrite Hval. unfold getUserByWallet.
    rewrite Hw, (trim_key Hwf), Hu. cbn [fst snd].
    split; [reflexivity|]. split; [exact Hx|]. split; [now rewrite orb_false_r|lia].
  - subst a. cbn [task_step]. unfold createScore, insert_score.
    assert (Hdup : existsb (same_attempt
               (score_document (sub_now r) (sub_scoreData r sc))) (scores db)
             = attempted k (sub_quizId r) db).
    { unfold attempted. unfold same_attempt. cbn. now rewrite Hw. }
    rewrite Hdup. destruct (attempted k (sub_quizId r) db) eqn:Htaken; cbn [fst snd].
    + change (match code duplicate_key with
              | Some c => (c =? 11000)%Z
              | None => false
              end) with true.
      cbv iota. cbn [fst snd].
      split; [reflexivity|]. split; [exact Hx|]. split; [exact Htaken|lia].
    + split; [reflexivity|]. split; [exact Hx|]. split.
      * unfold attempted in *. cbn [scores]. rewrite existsb_app, Htaken. cbn [existsb].
        unfold has_score_wallet at 1.
        cbn [Score.walletAddress Score.quizId score_document
             sub_scoreData sd_walletAddress sd_quizId].
        now rewrite Hw, !String.eqb_refl.
      * unfold ledger. cbn [scores]. rewrite filter_app, length_app. cbn [filter].
        unfold has_score_wallet at 2.
        cbn [Score.walletAddress score_document sub_scoreData sd_walletAddress].
        now rewrite Hw, String.eqb_refl.
  - subst a. cbn [task_step]. unfold updateUserTotalScore. rewrite Hw.
    pose proof (update_same (inc_totalScore (sub_now r) sc) (fun _ => eq_refl)
                  k (users db)) as [_ Hr].
    pose proof (@userTotal_update (inc_totalScore (sub_now r) sc) k k db _ (scores db)
                  (fun _ => eq_refl) eq_refl) as Ht.
    destruct (findOneAndUpdate (has_wallet k) (inc_totalScore (sub_now r) sc) (users db))
      as [us res]. cbn [fst snd] in *. rewrite Hr, Hu. cbn [option_map fst snd].
    split; [eexists; split; reflexivity|]. split; [|split].
    + rewrite Ht, String.eqb_refl, Hu. cbn. unfold userTotal in Hx.
      rewrite Hu in Hx. cbn in Hx. congruence.
    + unfold attempted. cbn [scores]. now rewrite orb_false_r.
    + unfold ledger. cbn [scores]. lia.
  - destruct Hat as (resp & -> & Hst). cbn [task_step fst snd].
    split; [eauto|]. split; [exact Hx|]. split; [now rewrite orb_false_r|lia].
  - subst a. cbn [task_step fst snd].
    split; [reflexivity|]. split; [exact Hx|]. split; [now rewrite orb_false_r|lia].
Qed.

Lemma stages_progress : forall sched ga gb,
  stages_consistent ga gb ->
  let '(ga', gb') := stages sched ga gb in
  stages_consistent ga' gb' /\
  (Nat.min 3 (stage_rank ga + count_occ bool_dec sched true) <= stage_rank ga')%nat /\
  (Nat.min 3 (stage_rank gb + count_occ bool_dec sched false) <= stage_rank gb')%nat.
Proof.
  induction sched as [|[|] sched IH]; intros ga gb Hc; cbn [stages].
  - split; [exact Hc|]. cbn [count_occ]. split; lia.
  - specialize (IH (next_stage ga (holds_entry ga || holds_entry gb)) gb).
    destruct (stages sched _ gb) as [ga' gb'].
    destruct IH as (Hc' & Ha & Hb).
    { destruct Hc as (H1 & H2 & H3).
      destruct ga, gb; cbn in *; repeat split; try reflexivity; try discriminate;
        try (intros; discriminate); auto. }
    split; [exact Hc'|].
    rewrite (count_occ_cons_eq bool_dec sched (eq_refl true)).
    rewrite (@count_occ_cons_neq _ bool_dec sched true false) by discriminate.
    split; [|exact Hb].
    destruct (holds_entry ga || holds_entry gb), ga;
      cbn [next_stage stage_rank] in *; lia.
  - specialize (IH ga (next_stage gb (holds_entry ga || holds_entry gb))).
    destruct (stages sched ga _) as [ga' gb'].
    destruct IH as (Hc' & Ha & Hb).
    { destruct Hc as (H1 & H2 & H3).
      destruct ga, gb; cbn in *; repeat split; try reflexivity; try discriminate;
        try (intros; discriminate); auto. }
    split; [exact Hc'|].
    rewrite (count_occ_cons_eq bool_dec sched (eq_refl false)).
    rewrite (@count_occ_cons_neq _ bool_dec sched false true) by discriminate.
    split; [exact Ha|].
    destruct (holds_entry ga || holds_entry gb), gb;
      cbn [next_stage stage_rank] in *; lia.
Qed.

(** Two submissions of one quiz by one participant, their store operations
    interleaved: the tasks follow [stages], the total is the one at the start
    plus what the answered submissions were credited, and the ledger of the
    participant has one entry more as soon as one of them holds its entry. *)
Lemma same_quiz_interleave : forall k r1 r2 s1 s2,
  wf_key k ->
  Str.toLowerCase (sub_walletAddress r1) = k ->
  Str.toLowerCase (sub_walletAddress r2) = k ->
  validate_submission (sub_walletAddress r1) (sub_quizId r1) (sub_score r1)
                      (sub_difficulty r1) (sub_max r1) = inr s1 ->
  validate_submission (sub_walletAddress r2) (sub_quizId r2) (sub_score r2)
                      (sub_difficulty r2) (sub_max r2) = inr s2 ->
  sub_quizId r2 = sub_quizId r1 ->
  forall sched ga gb a b db x,
    stage_of r1 s1 ga a -> stage_of r2 s2 gb b ->
    userTotal k db = Some x ->
    attempted k (sub_quizId r1) db = holds_entry ga || holds_entry gb ->
    let '(ga', gb') := stages sched ga gb in
    let '(a', b', db') := interleave task_step sched a b db in
    stage_of r1 s1 ga' a' /\ stage_of r2 s2 gb' b' /\
    exists x',
      userTotal k db' = Some x' /\
      (x' - credited ga' s1 - credited gb' s2
         == x - credited ga s1 - credited gb s2)%Q /\
      (List.length (ledger k db') + Nat.b2n (holds_entry ga || holds_entry gb)
       = List.length (ledger k db) + Nat.b2n (holds_entry ga' || holds_entry gb'))%nat.
Proof.
  intros k r1 r2 s1 s2 Hwf Hk1 Hk2 Hv1 Hv2 Hq.
  induction sched as [|[|] sched IH]; intros ga gb a b db x Ha Hb Hx Hatt;
    cbn [stages interleave].
  - split; [exact Ha|]. split; [exact Hb|]. exists x. split; [exact Hx|].
    split; [reflexivity|reflexivity].
  - destruct (@stage_step k r1 s1 ga a db x Hwf Hk1 Hv1 Ha Hx)
      as (Ha1 & Hx1 & Hatt1 & Hlen1).
    rewrite Hatt in Ha1, Hatt1, Hlen1.
    destruct (task_step a db) as [a1 db1]. cbn [fst snd] in *.
    assert (Hatt1' : attempted k (sub_quizId r1) db1
                     = holds_entry (next_stage ga (holds_entry ga || holds_entry gb))
                       || holds_entry gb)
      by (rewrite Hatt1; destruct ga, gb; reflexivity).
    specialize (IH _ gb a1 b db1 _ Ha1 Hb Hx1 Hatt1').
    destruct (stages sched _ gb) as [ga' gb'].
    destruct (interleave task_step sched a1 b db1) as [[a' b'] db'].
    destruct IH as (Ha' & Hb' & x' & Hx' & Hsum & Hlen).
    split; [exact Ha'|]. split; [exact Hb'|]. exists x'. split; [exact Hx'|]. split.
    + rewrite Hsum. destruct ga, gb; cbn [credited next_stage holds_entry orb]; lra.
    + rewrite Hlen1 in Hlen.
      destruct ga, gb; cbn [next_stage holds_entry orb Nat.b2n] in *; lia.
  - destruct (@stage_step k r2 s2 gb b db x Hwf Hk2 Hv2 Hb Hx)
      as (Hb1 & Hx1 & Hatt1 & Hlen1).
    rewrite Hq, Hatt in Hb1, Hatt1, Hlen1.
    destruct (task_step b db) as [b1 db1]. cbn [fst snd] in *.
    assert (Hatt1' : attempted k (sub_quizId r1) db1
                     = holds_entry ga
                       || holds_entry (next_stage gb (holds_entry ga || holds_entry gb)))
      by (rewrite Hatt1; destruct ga, gb; reflexivity).
    specialize (IH ga _ a b1 db1 _ Ha Hb1 Hx1 Hatt1').
    destruct (stages sched ga _) as [ga' gb'].
    destruct (interleave task_step sched a b1 db1) as [[a' b'] db'].
    destruct IH as (Ha' & Hb' & x' & Hx' & Hsum & Hlen).
    split; [exact Ha'|]. split; [exact Hb'|]. exists x'. split; [exact Hx'|]. split.
    + rewrite Hsum. destruct ga, gb; cbn [credited next_stage holds_entry orb]; lra.
    + rewrite Hlen1 in Hlen.
      destruct ga, gb; cbn [next_stage holds_entry orb Nat.b2n] in *; lia.
Qed.

(** X17.  Two submissions of the same quiz by one registered participant,
    both passing the checks of the handler, with their store operations
    interleaved in any order, the ledger holding no attempt of the
    participant at that quiz: once each has performed three operations, one
    is answered 201 and the other 409, the ledger of the participant has
    exactly one entry more, and the total has grown by the score of the
    submission that was answered 201 and by nothing else. *)
Theorem X17_concurrent_duplicates_credit_once :
  forall k r1 r2 s1 s2 t db sched,
    wf_key k ->
    Str.toLowerCase (sub_walletAddress r1) = k ->
    Str.toLowerCase (sub_walletAddress r2) = k ->
    validate_submission (sub_walletAddress r1) (sub_quizId r1) (sub_score r1)
                        (sub_difficulty r1) (sub_max r1) = inr s1 ->
    validate_submission (sub_walletAddress r2) (sub_quizId r2) (sub_score r2)
                        (sub_difficulty r2) (sub_max r2) = inr s2 ->
    sub_quizId r2 = sub_quizId r1 ->
    userTotal k db = Some t ->
    attempted k (sub_quizId r1) db = false ->
    (3 <= count_occ bool_dec sched true)%nat ->
    (3 <= count_occ bool_dec sched false)%nat ->
    exists resp1 resp2 db' x',
      interleave task_step sched (Received r1) (Received r2) db
        = (Answered resp1, Answered resp2, db') /\
      userTotal k db' = Some x' /\
      List.length (ledger k db') = S (List.length (ledger k db)) /\
      ((status resp1 = 201%Z /\ status resp2 = 409%Z /\ (x' == t + s1)%Q) \/
       (status resp1 = 409%Z /\ status resp2 = 201%Z /\ (x' == t + s2)%Q)).
Proof.
  intros k r1 r2 s1 s2 t db sched Hwf Hk1 Hk2 Hv1 Hv2 Hq Ht Hfresh Hc1 Hc2.
  pose proof (@same_quiz_interleave k r1 r2 s1 s2 Hwf Hk1 Hk2 Hv1 Hv2 Hq sched
                AtReceived AtReceived (Received r1) (Received r2) db t
                eq_refl eq_refl Ht Hfresh) as Hrun.
  assert (Hstart : stages_consistent AtReceived AtReceived)
    by (split; [reflexivity|split; discriminate]).
  pose proof (stages_progress sched Hstart) as Hst.
  destruct (stages sched AtReceived AtReceived) as [ga gb].
  destruct (interleave task_step sched (Received r1) (Received r2) db) as [[a b] db'].
  destruct Hrun as (Ha & Hb & x' & Hx' & Hsum & Hlen).
  destruct Hst as ((Hex & Hla & Hlb) & Hra & Hrb).
  cbn [stage_rank Nat.add] in Hra, Hrb.
  cbn [credited holds_entry orb Nat.b2n] in Hsum, Hlen.
  destruct ga; cbn [stage_rank] in Hra; try lia;
    destruct gb; cbn [stage_rank] in Hrb; try lia;
    cbn [holds_entry andb] in *; try discriminate Hex;
    try (specialize (Hla eq_refl); discriminate Hla).
  - destruct Ha as (resp1 & -> & Hs1). cbn [stage_of] in Hb. subst b.
    exists resp1. eexists. exists db', x'. split; [reflexivity|]. split; [exact Hx'|].
    split; [cbn [orb Nat.b2n] in Hlen; lia|]. left.
    split; [exact Hs1|]. split; [reflexivity|]. cbn [credited] in Hsum. lra.
  - destruct Hb as (resp2 & -> & Hs2). cbn [stage_of] in Ha. subst a.
    eexists. exists resp2, db', x'. split; [reflexivity|]. split; [exact Hx'|].
    split; [cbn [orb Nat.b2n] in Hlen; lia|]. right.
    split; [reflexivity|]. split; [exact Hs2|]. cbn [credited] in Hsum. lra.
Qed.

Lemma X17_witness :
  exists resp1 resp2 db' x',
    interleave task_step [false; true; false; true; true; false]
               (Received first_submission)
               (Received (mkSubmission 2001 alice "q1" (Some 7) "hard" None)) db_alice
      = (Answered resp1, Answered resp2, db') /\
    userTotal alice_key db' = Some x' /\
    List.length (ledger alice_key db') = 1%nat /\
    ((status resp1 = 201%Z /\ status resp2 = 409%Z /\ (x' == 0 + 5)%Q) \/
     (status resp1 = 409%Z /\ status resp2 = 201%Z /\ (x' == 0 + 7)%Q)).
Proof.
  exact (@X17_concurrent_duplicates_credit_once alice_key first_submission
           (mkSubmission 2001 alice "q1" (Some 7) "hard" None) 5 7 0 db_alice
           [false; true; false; true; true; false]
           (conj eq_refl eq_refl) eq_refl eq_refl eq_refl eq_refl eq_refl
           eq_refl eq_refl (le_n 3) (le_n 3)).
Defined.
